(** * File-Org: filename pattern inference, learned patterns, duplicate
      classification and gap detection

    A shallow embedding of the detection core of
    [v7.1-dev/src/file_organizer.py] and the properties its specification
    states about it.

    Conventions of the embedding.
    - Python [str] values are [string]s whose characters are ASCII; a byte
      above 127 is an opaque symbol (neither letter, digit nor space).  A
      statement that would not hold of the program for other characters
      carries the hypothesis [ascii_only].
    - [os.path] is [posixpath]: the separator is "/".
    - An operation that can raise in Python ([x[0]], [d[k]], a method call on
      [None]) returns a [result]; a function is exception-free when it
      provably returns [Ok].
    - [re] is modelled by a backtracking matcher over a small regular
      expression syntax; each pattern of the source is transcribed as a term
      of that syntax.
    - Confidence values are exact rationals; [Binary64] evaluates the same
      formula in binary64, as the source does, at the counts that matter.
    - The file system, the clock and the hash function are read through
      explicit oracles passed as arguments.  *)

From Stdlib Require Import Ascii String DecimalString QArith Qminmax Lia Lqa.
From Stdlib Require Floats.
From Stdlib Require DecimalFacts DecimalPos DecimalN DecimalZ.
From stdpp Require Import base option list gmap strings sorting.
From Equations Require Import Equations.
From Equations.Prop Require Import Logic.
Open Scope string_scope.
Open Scope Z_scope.

(* ##################################################################### *)
(** * Part I. The program *)
(* ##################################################################### *)

(* ===================================================================== *)
(** ** Python exceptions *)
(* ===================================================================== *)

Inductive exn : Type :=
| IndexError
| KeyError
| AttributeError
| OSError
| Exception.   (* any other exception *)

Inductive result (A : Type) : Type :=
| Ok (a : A)
| Raise (e : exn).

Arguments Ok {A} a.

Arguments Raise {A} e.

#[global] Instance result_ret : MRet result := fun A a => Ok a.

#[global] Instance result_bind : MBind result := fun A B f m =>
  match m with
  | Ok a => f a
  | Raise e => Raise e
  end.

Definition returns {A : Type} (m : result A) : Prop := exists a, m = Ok a.

(* ===================================================================== *)
(** ** Characters *)
(* ===================================================================== *)

Definition code (c : ascii) : Z := Z.of_N (N_of_ascii c).

Definition in_range (lo hi : Z) (c : ascii) : bool :=
  (lo <=? code c) && (code c <=? hi).

(** [str.isdigit], [\d] *)
Definition isdigit_c (c : ascii) : bool := in_range 48 57 c.

(** uppercase and lowercase letters *)
Definition isupper_c (c : ascii) : bool := in_range 65 90 c.

Definition islower_c (c : ascii) : bool := in_range 97 122 c.

(** [str.isalpha], [[A-Za-z]] *)
Definition isalpha_c (c : ascii) : bool := isupper_c c || islower_c c.

(** [\s]: tab, newline, vertical tab, form feed, carriage return, the four
    separators 0x1c-0x1f and the space *)
Definition isspace_c (c : ascii) : bool :=
  in_range 9 13 c || in_range 28 31 c || (code c =? 32).

Definition upper_c (c : ascii) : ascii :=
  if islower_c c then ascii_of_N (N_of_ascii c - 32) else c.

Definition lower_c (c : ascii) : ascii :=
  if isupper_c c then ascii_of_N (N_of_ascii c + 32) else c.

Definition eqb_c (a b : ascii) : bool := Ascii.eqb a b.

(** membership of a character in a set written as a string *)
Fixpoint mem_c (c : ascii) (set : string) : bool :=
  match set with
  | EmptyString => false
  | String d set' => eqb_c c d || mem_c c set'
  end.

(* ===================================================================== *)
(** ** Python string methods *)
(* ===================================================================== *)

Fixpoint smap (f : ascii -> ascii) (s : string) : string :=
  match s with
  | EmptyString => EmptyString
  | String c s' => String (f c) (smap f s')
  end.

Fixpoint sall (p : ascii -> bool) (s : string) : bool :=
  match s with
  | EmptyString => true
  | String c s' => p c && sall p s'
  end.

Fixpoint sany (p : ascii -> bool) (s : string) : bool :=
  match s with
  | EmptyString => false
  | String c s' => p c || sany p s'
  end.

(** [s.upper()], [s.lower()] *)
Definition upper (s : string) : string := smap upper_c s.

Definition lower (s : string) : string := smap lower_c s.

(** [s.isupper()]: no lowercase letter and at least one uppercase letter *)
Definition isupper (s : string) : bool :=
  sall (fun c => negb (islower_c c)) s && sany isupper_c s.

(** [s.capitalize()]: first character uppercased, all the others lowercased *)
Definition capitalize (s : string) : string :=
  match s with
  | EmptyString => EmptyString
  | String c s' => String (upper_c c) (lower s')
  end.

(** [c in s] for a one-character [c] *)
Definition contains (c : ascii) (s : string) : bool := sany (eqb_c c) s.

(** [s.split(sep)] for a one-character separator: never an empty list *)
Fixpoint split (sep : ascii) (s : string) : list string :=
  match s with
  | EmptyString => [EmptyString]
  | String c s' =>
      if eqb_c c sep then EmptyString :: split sep s'
      else match split sep s' with
           | w :: ws => String c w :: ws
           | [] => [String c EmptyString]
           end
  end.

(** [sep.join(words)] *)
Fixpoint join (sep : string) (words : list string) : string :=
  match words with
  | [] => EmptyString
  | [w] => w
  | w :: ws => w +:+ sep +:+ join sep ws
  end.

(** [s.rstrip(chars)] *)
Fixpoint rstrip (chars : string) (s : string) : string :=
  match s with
  | EmptyString => EmptyString
  | String c s' =>
      match rstrip chars s' with
      | EmptyString => if mem_c c chars then EmptyString else String c EmptyString
      | t => String c t
      end
  end.

(** [s.rfind(c)]: the highest index of [c], or -1 *)
Fixpoint rfind_from (c : ascii) (s : string) (i : Z) (found : Z) : Z :=
  match s with
  | EmptyString => found
  | String d s' => rfind_from c s' (i + 1) (if eqb_c d c then i else found)
  end.

Definition rfind (s : string) (c : ascii) : Z := rfind_from c s 0 (-1).

Definition len (s : string) : Z := Z.of_nat (String.length s).

(** [s[a:b]] for [0 <= a], [0 <= b] *)
Definition slice (s : string) (a b : Z) : string :=
  String.substring (Z.to_nat a) (Z.to_nat (b - a)) s.

(** [s[:b]] and [s[a:]] *)
Definition slice_to (s : string) (b : Z) : string := slice s 0 b.

Definition slice_from (s : string) (a : Z) : string := slice s a (len s).

(** [s.endswith(suffix)] *)
Definition endswith (s suffix : string) : bool :=
  let n := len s in let m := len suffix in
  (m <=? n) && String.eqb (slice_from s (n - m)) suffix.

(** ['N' * count] *)
Definition repeat_c (c : ascii) (count : nat) : string :=
  string_of_list_ascii (repeat c count).

(** [l[i]] for [0 <= i], raising [IndexError] out of range *)
Definition index {A : Type} (l : list A) (i : nat) : result A :=
  match nth_error l i with
  | Some x => Ok x
  | None => Raise IndexError
  end.

(** [l[-1]] *)
Definition index_last {A : Type} (l : list A) : result A :=
  match List.rev l with
  | x :: _ => Ok x
  | [] => Raise IndexError
  end.

(** [int(s)] of a string of decimal digits *)
Definition digit_val (c : ascii) : Z := code c - 48.

Fixpoint int_acc (s : string) (acc : Z) : Z :=
  match s with
  | EmptyString => acc
  | String c s' => int_acc s' (10 * acc + digit_val c)
  end.

Definition int_of (s : string) : Z := int_acc s 0.

(** [str(n)] for [0 <= n] *)
Definition str_of_nat (n : nat) : string :=
  NilEmpty.string_of_uint (Nat.to_uint n).

(** truth value of an [Optional[str]]: [None] and [''] are false *)
Definition truthy (o : option string) : option string :=
  match o with
  | Some EmptyString => None
  | other => other
  end.

(* ===================================================================== *)
(** ** The [re] module: a backtracking matcher *)
(* ===================================================================== *)

Module Re.

(** The fragment of the pattern syntax that the source uses.  Alternatives
    are tried left to right, [Star] is greedy and [LazyStar] is not, as in
    Python. *)
Inductive regex : Type :=
| Eps
| Chr (p : ascii -> bool)          (* one character of a class *)
| Cat (r1 r2 : regex)              (* r1 r2 *)
| Alt (r1 r2 : regex)              (* r1|r2 *)
| Star (r : regex)                 (* r*  *)
| LazyStar (r : regex)             (* r*? *)
| Grp (n : nat) (r : regex)        (* the n-th capturing group *)
| Bol                              (* ^ *)
| Eol                              (* $ : the end, or just before a final newline *)
| Ahead (r : regex)                (* (?=r) *)
| Behind (p : ascii -> bool).      (* (?<=[class]) *)

Definition Opt (r : regex) : regex := Alt r Eps.                  (* r?  *)

Definition Plus (r : regex) : regex := Cat r (Star r).            (* r+  *)

Definition LazyPlus (r : regex) : regex := Cat r (LazyStar r).    (* r+? *)

Definition AtLeast2 (r : regex) : regex := Cat r (Cat r (Star r)). (* r{2,} *)

Definition Lit (c : ascii) : regex := Chr (eqb_c c).

(** a literal word under [re.IGNORECASE] *)
Fixpoint WordI (w : string) : regex :=
  match w with
  | EmptyString => Eps
  | String c w' => Cat (Chr (fun d => eqb_c (upper_c d) (upper_c c))) (WordI w')
  end.

(** character classes *)
Definition digit : regex := Chr isdigit_c.                         (* \d *)

Definition space : regex := Chr isspace_c.                         (* \s *)

Definition letter : regex := Chr isalpha_c.                        (* [A-Za-z] *)

Definition dash_us (c : ascii) : bool := eqb_c c "-" || eqb_c c "_".

Definition sepr : regex := Chr dash_us.                            (* [-_] *)

Definition dot : regex := Chr (fun c => negb (eqb_c c "010")).     (* . *)

(** group number, start and end of its last match; newest first *)
Definition captures : Type := list (nat * (nat * nat)).

Fixpoint cap_lookup (n : nat) (caps : captures) : option (nat * nat) :=
  match caps with
  | [] => None
  | (m, span) :: caps' => if Nat.eqb n m then Some span else cap_lookup n caps'
  end.

Section Engine.

Variable txt : list ascii.

Definition at_end (i : nat) : bool :=
  Nat.eqb i (length txt)
  || (Nat.eqb (S i) (length txt)
      && match nth_error txt i with Some c => eqb_c c "010" | None => false end).

(** what remains to be matched: from a position and the groups so far to
    the end of the match *)
Definition cont : Type := nat -> captures -> option (nat * captures).

(** [r*], given how one [r] is matched: as many iterations as possible
    first; an iteration has to consume a character *)
Definition star_loop (step : nat -> captures -> cont -> option (nat * captures))
    (k : cont) : nat -> nat -> captures -> option (nat * captures) :=
  fix star (n : nat) (i : nat) (caps : captures) {struct n} :=
    match n with
    | O => k i caps
    | S n' =>
        match step i caps (fun j c => if Nat.ltb i j then star n' j c else None) with
        | Some res => Some res
        | None => k i caps
        end
    end.

(** [r*?]: as few iterations as possible first *)
Definition lazy_loop (step : nat -> captures -> cont -> option (nat * captures))
    (k : cont) : nat -> nat -> captures -> option (nat * captures) :=
  fix lazy (n : nat) (i : nat) (caps : captures) {struct n} :=
    match k i caps with
    | Some res => Some res
    | None =>
        match n with
        | O => None
        | S n' => step i caps (fun j c => if Nat.ltb i j then lazy n' j c else None)
        end
    end.

(** [run r i caps k]: match [r] at position [i], then continue with [k];
    on failure of [k] the next way of matching [r] is tried. *)
Fixpoint run (r : regex) (i : nat) (caps : captures) (k : cont) {struct r}
    : option (nat * captures) :=
  match r with
  | Eps => k i caps
  | Chr p =>
      match nth_error txt i with
      | Some c => if p c then k (S i) caps else None
      | None => None
      end
  | Cat r1 r2 => run r1 i caps (fun j c => run r2 j c k)
  | Alt r1 r2 =>
      match run r1 i caps k with
      | Some res => Some res
      | None => run r2 i caps k
      end
  | Star r1 => star_loop (run r1) k (length txt - i)%nat i caps
  | LazyStar r1 => lazy_loop (run r1) k (length txt - i)%nat i caps
  | Grp n r1 => run r1 i caps (fun j c => k j ((n, (i, j)) :: c))
  | Bol => if Nat.eqb i 0 then k i caps else None
  | Eol => if at_end i then k i caps else None
  | Ahead r1 =>
      match run r1 i caps (fun j c => Some (j, c)) with
      | Some (_, c) => k i c
      | None => None
      end
  | Behind p =>
      match i with
      | O => None
      | S i' =>
          match nth_error txt i' with
          | Some c => if p c then k i caps else None
          | None => None
          end
      end
  end.

Definition match_at (r : regex) (i : nat) : option (nat * captures) :=
  run r i [] (fun j c => Some (j, c)).

(** the leftmost position at or after [i] where [r] matches *)
Fixpoint scan (r : regex) (fuel : nat) (i : nat) : option (nat * (nat * captures)) :=
  match match_at r i with
  | Some res => Some (i, res)
  | None =>
      match fuel with
      | O => None
      | S fuel' => scan r fuel' (S i)
      end
  end.

(** the text with every match of [r] from position [i] on removed *)
Fixpoint remove_all (r : regex) (fuel : nat) (i : nat) : list ascii :=
  match fuel with
  | O => drop i txt
  | S fuel' =>
      match scan r (length txt - i)%nat i with
      | None => drop i txt
      | Some (a, (b, _)) =>
          take (a - i)%nat (drop i txt)
          ++ (if Nat.ltb a b then remove_all r fuel' b
              else take 1 (drop a txt) ++ remove_all r fuel' (S a))
      end
  end.

End Engine.

(** a match object *)
Record match_obj : Type := MatchObj {
  m_text : string;
  m_start : nat;
  m_end : nat;
  m_caps : captures
}.

(** [re.match(r, s)] *)
Definition rmatch (r : regex) (s : string) : option match_obj :=
  match match_at (list_ascii_of_string s) r 0 with
  | Some (j, c) => Some (MatchObj s 0 j c)
  | None => None
  end.

(** [re.search(r, s)] *)
Definition search (r : regex) (s : string) : option match_obj :=
  let txt := list_ascii_of_string s in
  match scan txt r (length txt) 0 with
  | Some (a, (b, c)) => Some (MatchObj s a b c)
  | None => None
  end.

(** [re.sub(r, '', s)] *)
Definition sub_empty (r : regex) (s : string) : string :=
  let txt := list_ascii_of_string s in
  string_of_list_ascii (remove_all txt r (S (length txt)) 0).

(** [m.group(n)]: [None] for a group that took no part in the match *)
Definition group (m : match_obj) (n : nat) : option string :=
  match cap_lookup n (m_caps m) with
  | Some (a, b) => Some (String.substring a (b - a) (m_text m))
  | None => None
  end.

(** [m.group(n)] used as a string: a method call on [None] raises *)
Definition group_str (m : match_obj) (n : nat) : result string :=
  match group m n with
  | Some g => Ok g
  | None => Raise AttributeError
  end.

End Re.

Import Re.

(** The patterns of the source. *)
(** [\s*[\-_]?\(\d+\)$] *)
Definition re_dup_marker : regex :=
  Cat (Star space) (Cat (Opt sepr) (Cat (Lit "(") (Cat (Plus digit) (Cat (Lit ")") Eol)))).

(** [(?<=[\-_])\d+[A-Za-z]?$] *)
Definition re_seq_suffix : regex :=
  Cat (Behind dash_us) (Cat (Plus digit) (Cat (Opt letter) Eol)).

(** [([\-_]?)(\d+)$] *)
Definition re_tail_number : regex :=
  Cat (Grp 1 (Opt sepr)) (Cat (Grp 2 (Plus digit)) Eol).

(** [([A-Za-z]+)\d+$] *)
Definition re_simple : regex :=
  Cat (Grp 1 (Plus letter)) (Cat (Plus digit) Eol).

(** [(IMG|DSC|DSCN|DCS|DCSN)(?=\d|_|\.|$)], re.IGNORECASE *)
Definition re_img_tag : regex :=
  Cat (Grp 1 (Alt (WordI "IMG") (Alt (WordI "DSC") (Alt (WordI "DSCN")
                (Alt (WordI "DCS") (WordI "DCSN"))))))
      (Ahead (Alt digit (Alt (Lit "_") (Alt (Lit ".") Eol)))).

(** [^(.+?)([-_])(\d{2,})$] *)
Definition re_seq_sep : regex :=
  Cat Bol (Cat (Grp 1 (LazyPlus dot)) (Cat (Grp 2 sepr) (Cat (Grp 3 (AtLeast2 digit)) Eol))).

(** [^([A-Za-z]+)(\d{2,})$] *)
Definition re_seq_nosep : regex :=
  Cat Bol (Cat (Grp 1 (Plus letter)) (Cat (Grp 2 (AtLeast2 digit)) Eol)).

(** [^(\d+)([-_])(\d{2,})$] *)
Definition re_seq_numeric : regex :=
  Cat Bol (Cat (Grp 1 (Plus digit)) (Cat (Grp 2 sepr) (Cat (Grp 3 (AtLeast2 digit)) Eol))).

(** [^(\d+)$] *)
Definition re_pure_numeric : regex := Cat Bol (Cat (Grp 1 (Plus digit)) Eol).

(** [^(.+?)(\d+)$] *)
Definition re_prefix_number : regex :=
  Cat Bol (Cat (Grp 1 (LazyPlus dot)) (Cat (Grp 2 (Plus digit)) Eol)).

(** [^(.+?)(\d+)(.+)$] *)
Definition re_prefix_number_suffix : regex :=
  Cat Bol (Cat (Grp 1 (LazyPlus dot)) (Cat (Grp 2 (Plus digit)) (Cat (Grp 3 (Plus dot)) Eol))).

(* ===================================================================== *)
(** ** [os.path] (posixpath) *)
(* ===================================================================== *)

Module Path.

(** [os.path.splitext]: the extension starts at the last dot of the last
    path component, unless that component consists of leading dots only up
    to there. *)
Definition splitext (p : string) : string * string :=
  let sepIndex := rfind p "/" in
  let dotIndex := rfind p "." in
  if (sepIndex <? dotIndex)
     && sany (fun c => negb (eqb_c c ".")) (slice p (sepIndex + 1) dotIndex)
  then (slice_to p dotIndex, slice_from p dotIndex)
  else (p, EmptyString).

(** [os.path.join(a, b)] *)
Definition join (a b : string) : string :=
  if endswith (slice_to b 1) "/" && negb (String.eqb b "") then b
  else if String.eqb a "" || endswith a "/" then a +:+ b
  else a +:+ "/" +:+ b.

(** [os.path.dirname(p)] *)
Definition dirname (p : string) : string :=
  let i := rfind p "/" + 1 in
  let head := slice_to p i in
  if negb (String.eqb head "") && negb (sall (eqb_c "/") head)
  then rstrip "/" head
  else head.

End Path.

(* ===================================================================== *)
(** ** Detection helpers *)
(* ===================================================================== *)

(** [smart_title] *)
Definition smart_title (text : string) : string :=
  join "_" ((fun w => if isupper w then w else capitalize w) <$> split "_" text).

Definition reserved_names : list string :=
  [ "CON"; "PRN"; "AUX"; "NUL";
    "COM1"; "COM2"; "COM3"; "COM4"; "COM5"; "COM6"; "COM7"; "COM8"; "COM9";
    "LPT1"; "LPT2"; "LPT3"; "LPT4"; "LPT5"; "LPT6"; "LPT7"; "LPT8"; "LPT9" ].

(** [sanitize_folder_name] *)
Definition sanitize_folder_name (folder_name : string) : result string :=
  if String.eqb folder_name "" then Ok folder_name
  else
    first ← index (split "." folder_name) 0;
    let base_name := upper first in
    if bool_decide (base_name ∈ reserved_names)
    then Ok (folder_name +:+ "_")
    else Ok folder_name.

(** ['-'.join(w.capitalize() for w in pre.split('-'))] *)
Definition hyphen_title (pre : string) : string :=
  join "-" (capitalize <$> split "-" pre).

(** the first two statements of [detect_folder_name] and of
    [detect_sequential_pattern]: the stem of the file name, without a
    duplicate marker such as " (2)" *)
Definition clean_stem (filename : string) : string :=
  let base := (Path.splitext filename).1 in
  rstrip " ." (sub_empty re_dup_marker base).

(** the second half of [detect_folder_name]: the folder built from the
    text [pre] before the trailing number and the delimiter [delim] found
    in front of that number *)
Definition folder_of_parts (pre : string) (delim : option string) : result (option string) :=
  folder ←
    (if contains "_" pre && negb (contains "-" pre) then
       let folder := smart_title pre in
       Ok (Some (if bool_decide (delim = Some "-") then folder +:+ "[-]" else folder))
     else if contains "-" pre && negb (contains "_" pre) then
       let folder := hyphen_title pre in
       Ok (Some (if bool_decide (delim = Some "_") then folder +:+ "[_]" else folder))
     else if contains "-" pre && contains "_" pre then
       let folder :=
         if rfind pre "_" <? rfind pre "-" then hyphen_title pre else smart_title pre in
       Ok (Some (if bool_decide (delim = Some "_") then folder +:+ "[_]"
                 else if bool_decide (delim = Some "-") then folder +:+ "[-]"
                 else folder))
     else
       match rmatch re_simple pre with
       | Some m_simple => g ← group_str m_simple 1; Ok (Some (capitalize g))
       | None => Ok None
       end);
  match truthy folder with
  | Some f => r ← sanitize_folder_name (rstrip " ." f); Ok (Some r)
  | None => Ok None
  end.

(** [detect_folder_name] *)
Definition detect_folder_name (filename : string) : result (option string) :=
  let base := clean_stem filename in
  let base := rstrip " _-." (sub_empty re_seq_suffix base) in
  let '(pre, delim) :=
    match search re_tail_number base with
    | Some m => (slice_to base (Z.of_nat (m_start m)), group m 1)
    | None => (base, Some EmptyString)
    end in
  folder_of_parts pre delim.

(** [extract_img_tag] *)
Definition extract_img_tag (filename : string) : result (option string) :=
  match search re_img_tag filename with
  | Some m => g ← group_str m 1; r ← sanitize_folder_name (upper g); Ok (Some r)
  | None => Ok None
  end.

(** the casing shared by the first two branches of
    [detect_sequential_pattern] *)
Definition seq_case (base_name : string) : string :=
  if isupper base_name then base_name else capitalize base_name.

(** [detect_sequential_pattern] *)
Definition detect_sequential_pattern (filename : string) : result (option string) :=
  let base := clean_stem filename in
  match rmatch re_seq_sep base with
  | Some m_sep =>
      base_name ← group_str m_sep 1;
      r ← sanitize_folder_name (seq_case base_name); Ok (Some r)
  | None =>
      match rmatch re_seq_nosep base with
      | Some m_no_sep =>
          base_name ← group_str m_no_sep 1;
          r ← sanitize_folder_name (seq_case base_name); Ok (Some r)
      | None =>
          match rmatch re_seq_numeric base with
          | Some m_numeric =>
              match group m_numeric 1 with
              | Some g => r ← sanitize_folder_name g; Ok (Some r)
              | None => Ok None
              end
          | None => Ok None
          end
      end
  end.

(* ===================================================================== *)
(** ** PatternLearner *)
(* ===================================================================== *)

(** the inner loops of [extract_signature]: the run of characters of a
    class at the head of the text, and what follows it *)
Fixpoint take_run (p : ascii -> bool) (s : string) : string :=
  match s with
  | EmptyString => EmptyString
  | String c s' => if p c then String c (take_run p s') else EmptyString
  end.

Fixpoint drop_run (p : ascii -> bool) (s : string) : string :=
  match s with
  | EmptyString => EmptyString
  | String c s' => if p c then drop_run p s' else s
  end.

(** the outer loop of [extract_signature], on the text from index [i] on;
    it returns the pieces appended to [signature] *)
Equations? signature_parts (rest : string) : list string
    by wf (String.length rest) lt :=
  signature_parts EmptyString := [];
  signature_parts (String char tl) with inspect (isdigit_c char) := {
    | exist _ true Hd =>
        let count := String.length (take_run isdigit_c (String char tl)) in
        repeat_c "N" count :: signature_parts (drop_run isdigit_c (String char tl));
    | exist _ false Hd with inspect (isalpha_c char) := {
      | exist _ true Ha =>
          let text_str := take_run isalpha_c (String char tl) in
          (if isupper text_str && (len text_str <=? 5) then text_str else "TEXT")
            :: signature_parts (drop_run isalpha_c (String char tl));
      | exist _ false Ha =>
          String char EmptyString :: signature_parts tl } }.
Proof.
  all: assert (Hrun : forall p s, (String.length (drop_run p s) <= String.length s)%nat)
    by (clear; intros p s; induction s as [|c s IH]; simpl; [lia|];
        destruct (p c); simpl; lia).
  - simpl. rewrite Hd. pose proof (Hrun isdigit_c tl). lia.
  - simpl. rewrite Ha. pose proof (Hrun isalpha_c tl). lia.
Qed.

(** [PatternLearner.extract_signature] *)
Definition extract_signature (filename : string) : string :=
  let base := (Path.splitext filename).1 in
  join "" (signature_parts base).

(** an entry of [PatternLearner.patterns]; an entry read back from the
    patterns file may lack the "examples" key *)
Record learned_pattern : Type := Pattern {
  p_folder : string;
  p_count : Z;
  p_examples : option (list string)
}.

(** [d[k]] *)
Definition dict_get {V : Type} (d : gmap string V) (k : string) : result V :=
  match d !! k with
  | Some v => Ok v
  | None => Raise KeyError
  end.

(** [k in d] *)
Definition dict_has {V : Type} (d : gmap string V) (k : string) : bool :=
  bool_decide (is_Some (d !! k)).

(** [l[-5:]] *)
Definition last5 {A : Type} (l : list A) : list A := drop (length l - 5)%nat l.

(** [PatternLearner.learn]: the store after the call.  [pattern] is a
    reference to the stored entry, so the updates of its fields are updates
    of the entry under [signature].  Writing the store to the patterns file
    ([_save_patterns]) is left out. *)
Definition learn (patterns : gmap string learned_pattern) (filename folder : string)
    : result (gmap string learned_pattern) :=
  let signature := extract_signature filename in
  if negb (dict_has patterns signature) then
    Ok (<[signature := Pattern folder 1 (Some [filename])]> patterns)
  else
    pattern ← dict_get patterns signature;
    let '(patterns, pattern) :=
      if String.eqb (p_folder pattern) folder then
        (patterns, Pattern (p_folder pattern) (p_count pattern + 1) (p_examples pattern))
      else if 3 <? p_count pattern then
        let alt_sig := signature +:+ "_ALT" in
        (<[alt_sig := Pattern folder 1 (Some [filename])]> patterns, pattern)
      else
        (patterns, Pattern folder 1 (p_examples pattern)) in
    let examples := (default [] (p_examples pattern) ++ [filename])%list in
    Ok (<[signature := Pattern (p_folder pattern) (p_count pattern) (Some (last5 examples))]>
          patterns).

(** the confidence of a learned pattern used [count] times *)
Definition learned_confidence (count : Z) : Q :=
  Qmin 0.99 (0.80 + inject_Z count * 0.03).

(** the same value as Python computes it, in binary64, for a count that
    fits in 63 bits: [min(0.99, x)] is [x] when [x < 0.99] and [0.99]
    otherwise *)
Module Binary64.
Import Floats.
Open Scope float_scope.
#[local] Set Warnings "-inexact-float".

Definition learned_confidence64 (count : Z) : float :=
  let x := 0.80 + of_uint63 (Uint63.of_Z count) * 0.03 in
  if ltb x 0.99 then x else 0.99.

(** [h / 100], and closeness of two values up to a millionth *)
Definition hundredths (h : Z) : float := of_uint63 (Uint63.of_Z h) / 100.
Definition near (x y : float) : bool := ltb (abs (x - y)) 0.000001.

End Binary64.

(** [PatternLearner.predict] *)
Definition predict (patterns : gmap string learned_pattern) (filename : string)
    : result (option (string * Q)) :=
  let signature := extract_signature filename in
  if dict_has patterns signature then
    pattern ← dict_get patterns signature;
    let confidence := learned_confidence (p_count pattern) in
    Ok (Some (p_folder pattern, confidence))
  else Ok None.

(* ===================================================================== *)
(** ** IntelligentPatternDetector *)
(* ===================================================================== *)

(** [IntelligentPatternDetector.detect], with the learner's store as an
    argument *)
Definition detect (patterns : gmap string learned_pattern) (filename : string)
    : result (option string * Q * string) :=
  learned ← predict patterns filename;
  match learned with
  | Some (folder, confidence) => Ok (Some folder, confidence, "Learned Pattern")
  | None =>
      camera_tag ← extract_img_tag filename;
      match truthy camera_tag with
      | Some tag => Ok (Some tag, 0.95%Q, "Camera Tag")
      | None =>
          sequential ← detect_sequential_pattern filename;
          match truthy sequential with
          | Some folder => Ok (Some folder, 0.90%Q, "Sequential Pattern")
          | None =>
              smart ← detect_folder_name filename;
              match truthy smart with
              | Some folder => Ok (Some folder, 0.80%Q, "Smart Pattern")
              | None => Ok (None, 0.0%Q, "No Pattern")
              end
          end
      end
  end.

(* ===================================================================== *)
(** ** Moving a file: collision handling *)
(* ===================================================================== *)

(** What a read of the file system gives: a value; nothing, which is also
    what an exception caught on the spot leaves behind; or an exception
    that no handler of the program catches. *)
Inductive attempt (A : Type) : Type :=
| Got (a : A)
| Nothing
| Uncaught.

Arguments Got {A} a.

Arguments Nothing {A}.

Arguments Uncaught {A}.

(** What [move_file] observes of the file system.  Times are counted in
    microseconds: a modification time from the epoch, a date-time (which
    has no time zone) from the first day of the calendar.  The answers are
    those of the state in which the call runs; creating the destination
    folders does not change them for the file paths that are queried. *)
Record file_system : Type := FileSystem {
  fs_exists : string -> bool;              (* os.path.exists *)
  fs_access_w : string -> bool;            (* os.access(path, os.W_OK) *)
  fs_makedirs : string -> bool;            (* os.makedirs(path, exist_ok=True) does not raise *)
  fs_getsize : string -> option Z;         (* os.path.getsize, unless it raises *)
  fs_exif_datetime : string -> attempt Z;  (* the inner try of get_file_datetime: the date-time
                                              parsed from the first DateTimeOriginal or DateTime
                                              entry; nothing without PIL, EXIF data or such an
                                              entry, and on ImportError, AttributeError, OSError
                                              and ValueError *)
  fs_getmtime : string -> option Z;        (* os.path.getmtime, to the microsecond, unless it
                                              raises *)
  fs_fromtimestamp : Z -> attempt Z;       (* datetime.fromtimestamp, the date-time of the local
                                              clock; nothing on OSError and ValueError, while
                                              OverflowError is not caught *)
  fs_move : string -> string -> bool       (* shutil.move does not raise *)
}.

(** [get_file_size] *)
Definition get_file_size (fs : file_system) (filepath : string) : Z :=
  match fs_getsize fs filepath with
  | Some n => n
  | None => -1
  end.

(** [get_file_datetime]: the date-time returned, [Nothing] for [None], and
    [Uncaught] when an exception leaves the function *)
Definition get_file_datetime (fs : file_system) (filepath : string) : attempt Z :=
  let image :=
    existsb (endswith (lower filepath)) [".jpg"; ".jpeg"; ".tiff"; ".tif"] in
  match (if image then fs_exif_datetime fs filepath else Nothing) with
  | Got date => Got date
  | Uncaught => Uncaught
  | Nothing =>
      match fs_getmtime fs filepath with
      | Some mtime => fs_fromtimestamp fs mtime
      | None => Nothing
      end
  end.

(** a call of [get_file_datetime] inside [move_file], which has no handler
    around it *)
Definition called (date : attempt Z) : result (option Z) :=
  match date with
  | Got date => Ok (Some date)
  | Nothing => Ok None
  | Uncaught => Raise Exception
  end.

(** the two axes of the decision matrix *)
Definition same_size_of (fs : file_system) (src dst : string) : bool :=
  get_file_size fs src =? get_file_size fs dst.

Definition same_date_of (src_date dst_date : option Z) : bool :=
  match src_date, dst_date with
  | Some src_date, Some dst_date => Z.abs (src_date - dst_date) <? 1000000
  | _, _ => false
  end.

(** the tag written after the base name *)
Definition dup_tag (same_size : bool) : string :=
  if same_size then "[d]" else "{d}".

(** the folder that receives the colliding file *)
Definition dup_folder_of (dst_folder : string) (same_size same_date : bool) : string :=
  let target_root := Path.dirname dst_folder in
  if same_size && same_date then Path.join target_root "!Dupes"
  else if negb same_size && same_date then Path.join target_root "!Dupes Size"
  else dst_folder.

Section NestedCollisions.

Variable fs : file_system.

Variables (dst_folder base ext : string) (same_size same_date : bool).

(** the [while os.path.exists(dst)] loop; [None] when the function gives
    up with "Too many collisions" *)
Equations? nested_collisions (counter : nat) (dst : string) : option string
    by wf (101 - counter)%nat lt :=
  nested_collisions counter dst with fs_exists fs dst := {
    | false => Some dst
    | true with inspect (Nat.ltb 100 (S counter)) := {
      | exist _ true _ => None
      | exist _ false Hle =>
          let new_filename := base +:+ dup_tag same_size +:+ str_of_nat counter +:+ ext in
          nested_collisions (S counter)
            (Path.join (dup_folder_of dst_folder same_size same_date) new_filename) } }.
Proof. apply Nat.ltb_ge in Hle. lia. Qed.

End NestedCollisions.

(** [move_file]: [Ok (Some dst)] when the file was moved to [dst] and [True]
    returned, [Ok None] when [False] was returned and the file left in
    place, [Raise OSError] when creating a duplicates folder fails and
    [Raise Exception] when reading a date raises.  [validate_before_move]
    is the setting [safety.validate_before_move] as [CONFIG.get] returns
    it. *)
Definition move_file (fs : file_system) (validate_before_move : bool)
    (src dst_folder filename : string) : result (option string) :=
  if negb (fs_exists fs src) then Ok None
  else if negb (fs_makedirs fs dst_folder) then Ok None
  else if validate_before_move && negb (fs_access_w fs dst_folder) then Ok None
  else
    let '(base, ext) := Path.splitext filename in
    let dst := Path.join dst_folder filename in
    dst ←
      (if fs_exists fs dst then
         let same_size := same_size_of fs src dst in
         src_date ← called (get_file_datetime fs src);
         dst_date ← called (get_file_datetime fs dst);
         let same_date := same_date_of src_date dst_date in
         let folder := dup_folder_of dst_folder same_size same_date in
         if same_date && negb (fs_makedirs fs folder) then Raise OSError
         else
           let new_filename := base +:+ dup_tag same_size +:+ ext in
           Ok (nested_collisions fs dst_folder base ext same_size same_date 2
                 (Path.join folder new_filename))
       else Ok (Some dst));
    match dst with
    | None => Ok None
    | Some dst =>
        if negb (fs_exists fs src) then Ok None
        else if fs_move fs src dst then Ok (Some dst)
        else Ok None
    end.

(* ===================================================================== *)
(** ** DuplicateDetector *)
(* ===================================================================== *)

(** a row of the table [file_hashes]; its primary key is
    (filename, size, hash) *)
Record hash_row : Type := HashRow {
  h_filename : string;
  h_size : Z;
  h_hash : string;
  h_path : string;
  h_first_seen : string
}.

Definition same_key (a b : hash_row) : bool :=
  String.eqb (h_filename a) (h_filename b)
  && (h_size a =? h_size b)
  && String.eqb (h_hash a) (h_hash b).

(** [SELECT size, hash FROM file_hashes WHERE filename = ?] *)
Definition select_size_hash (db : list hash_row) (filename : string) : list (Z * string) :=
  (fun r => (h_size r, h_hash r)) <$> List.filter (fun r => String.eqb (h_filename r) filename) db.

(** [INSERT OR REPLACE INTO file_hashes] *)
Definition insert_or_replace (db : list hash_row) (row : hash_row) : list hash_row :=
  (List.filter (fun r => negb (same_key r row)) db ++ [row])%list.

(** what opening and reading a file gives *)
Inductive read_outcome : Type :=
| Content (bytes : string)
| FileNotFound
| PermissionDenied
| IOFailure.

Section Duplicates.

(** the content of the files, the digest and the clock *)
Variable read_file : string -> read_outcome.

Variable md5_hexdigest : string -> string.

Variable now : string.

(** [DuplicateDetector.compute_hash] *)
Definition compute_hash (filepath : string) : option string :=
  match read_file filepath with
  | Content bytes => Some (md5_hexdigest bytes)
  | FileNotFound => None
  | PermissionDenied => None
  | IOFailure => None
  end.

(** [DuplicateDetector.check_duplicate]: the returned pair and the table
    after the call, for a name, a size and a path that SQLite binds and a
    database that answers; the exceptions of [sqlite3] are not modelled *)
Definition check_duplicate (db : list hash_row) (filename : string) (size : Z)
    (filepath : string) : (bool * string) * list hash_row :=
  let results := select_size_hash db filename in
  match results with
  | [] =>
      match truthy (compute_hash filepath) with
      | Some file_hash =>
          ((false, ""), insert_or_replace db (HashRow filename size file_hash filepath now))
      | None => ((false, ""), db)
      end
  | _ :: _ =>
      match truthy (compute_hash filepath) with
      | None => ((false, ""), db)
      | Some file_hash =>
          if existsb (fun '(existing_size, existing_hash) =>
                        String.eqb existing_hash file_hash && (existing_size =? size))
               results
          then ((true, "DUPES"), db)
          else ((true, "DUPE SIZE"),
                insert_or_replace db (HashRow filename size file_hash filepath now))
      end
  end.

End Duplicates.

(* ===================================================================== *)
(** ** Missing file scanner *)
(* ===================================================================== *)

Record pattern_data : Type := PatternData {
  pd_files : list (string * Z);
  pd_prefix : string;
  pd_suffix : string;
  pd_padding : Z;
  pd_extension : string;
  pd_is_pure_numeric : bool
}.

(** the default entry of the [defaultdict] *)
Definition empty_pattern : pattern_data := PatternData [] "" "" 0 "" false.

(** the updates made to [patterns[pattern_key]] for one file *)
Definition record_file (patterns : gmap string pattern_data) (pattern_key : string)
    (filename : string) (number : Z) (prefix suffix : string) (padding : Z)
    (ext : string) (pure : bool) : gmap string pattern_data :=
  let entry := default empty_pattern (patterns !! pattern_key) in
  <[pattern_key := PatternData (pd_files entry ++ [(filename, number)])%list prefix suffix
                     (Z.max (pd_padding entry) padding) ext pure]> patterns.

(** the body of the loop over the files of the directory *)
Definition classify_file (patterns : gmap string pattern_data) (filename : string)
    : result (gmap string pattern_data) :=
  let '(name, ext) := Path.splitext filename in
  match rmatch re_pure_numeric name with
  | Some m =>
      g1 ← group_str m 1;
      Ok (record_file patterns ("PURE_NUMERIC_" +:+ ext) filename (int_of g1) "" ""
            (len g1) ext true)
  | None =>
      match rmatch re_prefix_number name with
      | Some m =>
          prefix ← group_str m 1;
          g2 ← group_str m 2;
          Ok (record_file patterns (prefix +:+ "_" +:+ ext) filename (int_of g2) prefix ""
                (len g2) ext false)
      | None =>
          match rmatch re_prefix_number_suffix name with
          | Some m =>
              prefix ← group_str m 1;
              g2 ← group_str m 2;
              suffix ← group_str m 3;
              Ok (record_file patterns (prefix +:+ "_NUM_" +:+ suffix +:+ "_" +:+ ext)
                    filename (int_of g2) prefix suffix (len g2) ext false)
          | None => Ok patterns
          end
      end
  end.

Fixpoint classify_files (patterns : gmap string pattern_data) (files : list string)
    : result (gmap string pattern_data) :=
  match files with
  | [] => Ok patterns
  | filename :: files' =>
      patterns' ← classify_file patterns filename;
      classify_files patterns' files'
  end.

(** [detect_file_patterns]; [listing] is the list of the regular files of
    the directory, or [None] when the path is not a directory *)
Definition detect_file_patterns (listing : option (list string))
    : result (gmap string pattern_data) :=
  match listing with
  | None => Ok ∅
  | Some files =>
      patterns ← classify_files ∅ files;
      Ok (filter (fun kv => (2 <= length (pd_files kv.2))%nat) patterns)
  end.

(** [find_missing_files] *)
Definition find_missing_files (pattern_data : pattern_data) : result (list Z) :=
  match pd_files pattern_data with
  | [] => Ok []
  | _ :: _ =>
      let numbers := merge_sort Z.le (snd <$> pd_files pattern_data) in
      first_num ← index numbers 0;
      last_num ← index_last numbers;
      let start := if pd_is_pure_numeric pattern_data then 1 else first_num in
      let existing_set : gset Z := list_to_set numbers in
      Ok (filter (fun n => n ∉ existing_set) (seqZ start (last_num + 1 - start)))
  end.

(* ===================================================================== *)
(** ** More string methods *)
(* ===================================================================== *)

(** the ASCII characters for which [str.isspace] holds *)
Definition whitespace : string :=
  String "009" (String "010" (String "011" (String "012" (String "013"
    (String "028" (String "029" (String "030" (String "031" " ")))))))).

(** [s.lstrip(chars)] *)
Fixpoint lstrip (chars : string) (s : string) : string :=
  match s with
  | EmptyString => EmptyString
  | String c s' => if mem_c c chars then lstrip chars s' else s
  end.

(** [s.strip()] *)
Definition strip (s : string) : string := rstrip whitespace (lstrip whitespace s).

(** [str(n)] *)
Definition str_of_Z (n : Z) : string := NilEmpty.string_of_int (Z.to_int n).

(** [s.zfill(width)]: zeros are inserted after a leading sign *)
Definition zfill (s : string) (width : Z) : string :=
  let fill := repeat_c "0" (Z.to_nat (width - len s)) in
  match s with
  | String c s' =>
      if eqb_c c "+" || eqb_c c "-" then String c (fill +:+ s') else fill +:+ s
  | EmptyString => fill
  end.

(** [s.startswith(prefix)] *)
Definition startswith (s prefix : string) : bool :=
  String.eqb (slice_to s (len prefix)) prefix.

(** [sub in s] for strings *)
Fixpoint is_infix (sub s : string) : bool :=
  startswith s sub
  || match s with
     | EmptyString => false
     | String _ s' => is_infix sub s'
     end.

(** a hexadecimal digit *)
Definition hex_digit (n : Z) : ascii :=
  ascii_of_N (Z.to_N (if n <? 10 then 48 + n else 87 + n)).

(** [repr(c)] of a one-character ASCII string *)
Definition repr_c (c : ascii) : string :=
  let quoted body := "'" +:+ body +:+ "'" in
  if eqb_c c "'" then String "034" (String c (String "034" ""))
  else if eqb_c c "\" then quoted "\\"
  else if eqb_c c "009" then quoted "\t"
  else if eqb_c c "010" then quoted "\n"
  else if eqb_c c "013" then quoted "\r"
  else if (code c <? 32) || (code c =? 127) then
    quoted ("\x" +:+ String (hex_digit (code c / 16)) (String (hex_digit (code c mod 16)) ""))
  else quoted (String c "").

(* ===================================================================== *)
(** ** Custom folder hierarchy *)
(* ===================================================================== *)

(** [parse_folder_hierarchy] *)
Definition parse_folder_hierarchy (hierarchy_string : string) : list string :=
  if String.eqb hierarchy_string "" then []
  else
    let folders := strip <$> split "-" hierarchy_string in
    List.filter (fun f => negb (String.eqb f "")) folders.

(** the characters that [validate_folder_hierarchy] refuses: the nine
    characters shown, and the character of code 0 before the slash *)
Definition invalid_chars : string :=
  "<>:" +:+ String "034" ("|?*" +:+ String "000" "/\").

(** [[c for c in invalid_chars if c in part]] *)
Definition invalid_found (part : string) : list ascii :=
  List.filter (fun c => contains c part) (list_ascii_of_string invalid_chars).

(** the loop of [validate_folder_hierarchy] over the parts: the message of
    the first check that fails *)
Fixpoint check_parts (parts : list string) : option string :=
  match parts with
  | [] => None
  | part :: parts' =>
      if 255 <? len part then
        Some ("Folder name too long: '" +:+ slice_to part 50 +:+ "...'")
      else if len part <? 1 then Some "Empty folder name in hierarchy"
      else
        match invalid_found part with
        | _ :: _ =>
            Some ("Invalid characters in '" +:+ part +:+ "': "
                  +:+ join ", " (repr_c <$> invalid_found part))
        | [] => check_parts parts'
        end
  end.

(** [validate_folder_hierarchy] *)
Definition validate_folder_hierarchy (hierarchy : string) : bool * string :=
  if String.eqb hierarchy "" || String.eqb (strip hierarchy) "" then
    (false, "Hierarchy cannot be empty")
  else
    let parts := parse_folder_hierarchy hierarchy in
    match parts with
    | [] => (false, "No valid folder names found")
    | _ :: _ =>
        if (15 <? length parts)%nat then
          (false, "Too many nesting levels (" +:+ str_of_nat (length parts) +:+ "). Maximum: 15")
        else
          match check_parts parts with
          | Some message => (false, message)
          | None =>
              let estimated_length := len (join "/" parts) + 50 in
              if 240 <? estimated_length then
                (false, "Total path too long (estimated " +:+ str_of_Z estimated_length
                        +:+ " chars). Maximum: 240")
              else (true, "Valid hierarchy")
          end
    end.

(** [generate_numbered_folder_names] *)
Definition generate_numbered_folder_names (count : Z) : list string :=
  if count <=? 0 then []
  else
    let width := len (str_of_Z count) in
    let width := if width <? 3 then 3 else width in
    (fun i => zfill (str_of_Z i) width) <$> seqZ 1 count.

Section Hierarchy.

(** The file system as [create_custom_hierarchy] uses it: a state, the
    test [os.path.exists], and [os.makedirs], which gives the next state
    and, when it raises, the text of the exception. *)
Context {world : Type}.

Variable path_exists : world -> string -> bool.

Variable makedirs : world -> string -> world * option string.

(** [if not os.path.exists(path): os.makedirs(path)] *)
Definition ensure_dir (w : world) (path : string) : world * option string :=
  if path_exists w path then (w, None) else makedirs w path.

(** the first loop: the nested path is built one sanitized name at a time;
    [inr] carries the text of the exception that ended the loop *)
Fixpoint create_nested (w : world) (current_path : string) (folders : list string)
    : world * (string + string) :=
  match folders with
  | [] => (w, inl current_path)
  | folder :: folders' =>
      match sanitize_folder_name folder with
      | Raise _ => (w, inr "list index out of range")
      | Ok safe_folder =>
          let current_path := Path.join current_path safe_folder in
          match ensure_dir w current_path with
          | (w, None) => create_nested w current_path folders'
          | (w, Some e) => (w, inr e)
          end
      end
  end.

(** the second loop: the numbered folders of the last level *)
Fixpoint create_numbered (w : world) (current_path : string) (numbered_folders : list string)
    : world * option string :=
  match numbered_folders with
  | [] => (w, None)
  | numbered :: rest =>
      match ensure_dir w (Path.join current_path numbered) with
      | (w, None) => create_numbered w current_path rest
      | (w, Some e) => (w, Some e)
      end
  end.

(** [create_custom_hierarchy]: the state after the call and the returned
    pair.  The arrow of the message is written in UTF-8. *)
Definition create_custom_hierarchy (w : world) (base_path hierarchy : string)
    (num_folders : Z) : world * (bool * string) :=
  let folders := parse_folder_hierarchy hierarchy in
  match folders with
  | [] => (w, (false, "No folders specified in hierarchy"))
  | _ :: _ =>
      match create_nested w base_path folders with
      | (w, inr e) => (w, (false, "Error creating hierarchy: " +:+ e))
      | (w, inl current_path) =>
          let '(w, failure) :=
            if 0 <? num_folders
            then create_numbered w current_path (generate_numbered_folder_names num_folders)
            else (w, None) in
          match failure with
          | Some e => (w, (false, "Error creating hierarchy: " +:+ e))
          | None =>
              let hierarchy_display := join " → " folders in
              let hierarchy_display :=
                if 0 <? num_folders
                then hierarchy_display +:+ " (with " +:+ str_of_Z num_folders
                     +:+ " numbered folders)"
                else hierarchy_display in
              (w, (true, "Successfully created hierarchy:" +:+ String "010" hierarchy_display))
          end
      end
  end.

End Hierarchy.

(* ===================================================================== *)
(** ** Placeholder files *)
(* ===================================================================== *)

(** the name of the placeholder for the number [num] *)
Definition placeholder_name (pattern_data : pattern_data) (num : Z) : string :=
  let num_str := zfill (str_of_Z num) (pd_padding pattern_data) in
  pd_prefix pattern_data +:+ num_str +:+ pd_suffix pattern_data
    +:+ pd_extension pattern_data.

Section Placeholders.

Context {world : Type}.

(** [with open(filepath, 'w') as f: pass]: the next state and, when it
    raises, the text of the exception *)
Variable open_w : world -> string -> world * option string.

(** the loop of [create_placeholder_files] *)
Fixpoint create_placeholders_from (w : world) (directory : string)
    (pattern_data : pattern_data) (missing_numbers : list Z) (created_files : list string)
    : world * (bool * string * list string) :=
  match missing_numbers with
  | [] =>
      (w, (true, "Created " +:+ str_of_nat (length created_files) +:+ " placeholder files",
           created_files))
  | num :: rest =>
      let filename := placeholder_name pattern_data num in
      let filepath := Path.join directory filename in
      match open_w w filepath with
      | (w, None) =>
          create_placeholders_from w directory pattern_data rest
            (created_files ++ [filename])%list
      | (w, Some e) => (w, (false, "Error creating placeholders: " +:+ e, created_files))
      end
  end.

(** [create_placeholder_files] *)
Definition create_placeholder_files (w : world) (directory : string)
    (pattern_data : pattern_data) (missing_numbers : list Z)
    : world * (bool * string * list string) :=
  create_placeholders_from w directory pattern_data missing_numbers [].

End Placeholders.

(* ===================================================================== *)
(** ** Logic functions *)
(* ===================================================================== *)

(** [by_extension]; [upper] is [str.upper] on ASCII characters *)
Definition by_extension (filename : string) : result string :=
  let ext := slice_from (Path.splitext filename).2 1 in
  let folder := if negb (String.eqb ext "") then upper ext else "_NOEXT" in
  sanitize_folder_name folder.

(** [by_alphabet]; [filename[0]] raises on the empty name, and the case
    and the classes of characters are those of ASCII *)
Definition by_alphabet (filename : string) : result string :=
  match filename with
  | EmptyString => Raise IndexError
  | String c _ =>
      let first := upper_c c in
      if isalpha_c first then Ok (String first "")
      else if isdigit_c first then Ok "0-9"
      else Ok "!@#$"
  end.

(** the characters that [by_numeric_simple] sends to the symbols folder *)
Definition forbidden_first : string := "\/:*?" +:+ String "034" "<>|".

(** [by_numeric_simple], with the case and the classes of ASCII
    characters *)
Definition by_numeric_simple (filename : string) : string :=
  let name := lstrip whitespace filename in
  match name with
  | EmptyString => "!@#$"
  | String ch _ =>
      if mem_c ch forbidden_first then "!@#$"
      else if isdigit_c ch then String ch ""
      else if isalpha_c ch then String (upper_c ch) ""
      else String ch ""
  end.

(** [by_img_dsc], [by_detected], [by_sequential] *)
Definition by_img_dsc (filename : string) : result (option string) :=
  extract_img_tag filename.

Definition by_detected (filename : string) : result (option string) :=
  detect_folder_name filename.

Definition by_sequential (filename : string) : result (option string) :=
  detect_sequential_pattern filename.

(** [by_intelligent] *)
Definition by_intelligent (patterns : gmap string learned_pattern) (filename : string)
    : result (option string) :=
  '(folder, confidence, method) ← detect patterns filename;
  Ok folder.

(** [make_key] *)
Definition make_key (filename : string) : string :=
  let base := (Path.splitext filename).1 in
  let base := sub_empty re_dup_marker base in
  let base := sub_empty re_seq_suffix base in
  lower (strip base).

(** [by_detected_or_prompt]: what the call returns or raises, and
    [USER_MAP] after it.  [askstring] is the dialog: the text typed for a
    file name, [None] when the dialog is cancelled.  [save_mappings] tells
    whether [save_mappings()] returns for a map; it catches the errors of
    writing the file, and any other exception of [json.dump], such as the
    one for a text that cannot be encoded, passes through the caller, which
    has changed [USER_MAP] by then. *)
Definition by_detected_or_prompt (askstring : string -> option string)
    (save_mappings : gmap string string -> bool)
    (user_map : gmap string string) (filename : string) (allow_prompt : bool)
    : result (option string) * gmap string string :=
  let key := make_key filename in
  if dict_has user_map key then
    (folder ← dict_get user_map key; Ok (Some folder), user_map)
  else
    match detect_folder_name filename with
    | Raise e => (Raise e, user_map)
    | Ok folder =>
        match truthy folder with
        | Some folder => (Ok (Some folder), user_map)
        | None =>
            if allow_prompt then
              match truthy (askstring filename) with
              | Some answer =>
                  let user_map := <[key := strip answer]> user_map in
                  if save_mappings user_map
                  then (folder ← dict_get user_map key; Ok (Some folder), user_map)
                  else (Raise Exception, user_map)
              | None => (Ok None, user_map)
              end
            else (Ok None, user_map)
        end
    end.

(* ===================================================================== *)
(** ** DuplicateDetector, continued *)
(* ===================================================================== *)

(** [DuplicateDetector.clear_session]: [DELETE FROM file_hashes] *)
Definition clear_session (db : list hash_row) : list hash_row := [].

(* ===================================================================== *)
(** ** Collecting the files to move *)
(* ===================================================================== *)

(** an entry of [seen_files] *)
Record seen_entry : Type := Seen {
  s_sizes : list Z;
  s_count : Z
}.

(** what [collect_files_generator] changes while it runs: its dictionary
    [seen_files], the table of the duplicate detector and the number of
    calls of [LOGGER.log_duplicate] *)
Record collect_state : Type := CollectState {
  seen_files : gmap string seen_entry;
  hash_db : list hash_row;
  duplicates_logged : Z
}.

Section Collect.

(** the target root, the two settings, the logic function, [os.path.abspath],
    the file system, the content of the files, the digest and the time at
    which a file is checked *)
Variable target_root : string.

Variable use_hash : bool.

Variable inplace_mode : bool.

Variable logic_func : string -> option string.

Variable abspath : string -> string.

Variable fs : file_system.

Variable read_file : string -> read_outcome.

Variable md5_hexdigest : string -> string.

Variable now_at : string -> string.

(** the end of the loop body, for a file that is no duplicate *)
Definition by_logic (st : collect_state) (src file : string)
    : collect_state * option (string * string * string) :=
  match truthy (logic_func file) with
  | None => (st, None)
  | Some rel_folder =>
      let dst_folder := Path.join target_root rel_folder in
      let dst := Path.join dst_folder file in
      if String.eqb (abspath src) (abspath dst) then (st, None)
      else (st, Some (src, dst_folder, file))
  end.

(** the body of the loop over the files of a directory: the state after
    it and the triple it yields, if any *)
Definition collect_file (st : collect_state) (dirpath file : string)
    : collect_state * option (string * string * string) :=
  let src := Path.join dirpath file in
  let file_size := get_file_size fs src in
  match seen_files st !! file with
  | Some entry =>
      let count := s_count entry + 1 in
      let seen := <[file := Seen (s_sizes entry) count]> (seen_files st) in
      let '(base, ext) := Path.splitext file in
      let new_filename := base +:+ " (" +:+ str_of_Z count +:+ ")" +:+ ext in
      if use_hash then
        let '((is_dup, dup_type), db) :=
          check_duplicate read_file md5_hexdigest (now_at src) (hash_db st) file file_size src in
        if is_dup then
          let dup_type :=
            if String.eqb dup_type "DUPES" then "!Dupes"
            else if String.eqb dup_type "DUPE SIZE" then "!Dupes Size"
            else dup_type in
          (CollectState seen db (duplicates_logged st + 1),
           Some (src, Path.join target_root dup_type, new_filename))
        else by_logic (CollectState seen db (duplicates_logged st)) src file
      else if bool_decide (file_size ∈ s_sizes entry) then
        (CollectState seen (hash_db st) (duplicates_logged st + 1),
         Some (src, Path.join target_root "!Dupes", new_filename))
      else
        (CollectState (<[file := Seen (s_sizes entry ++ [file_size]) count]> (seen_files st))
           (hash_db st) (duplicates_logged st),
         Some (src, Path.join target_root "!Dupes Size", new_filename))
  | None =>
      let seen := <[file := Seen [file_size] 0]> (seen_files st) in
      let db :=
        if use_hash
        then (check_duplicate read_file md5_hexdigest (now_at src) (hash_db st)
                file file_size src).2
        else hash_db st in
      by_logic (CollectState seen db (duplicates_logged st)) src file
  end.

(** [for file in files] *)
Fixpoint collect_dir (st : collect_state) (dirpath : string) (files : list string)
    : collect_state * list (string * string * string) :=
  match files with
  | [] => (st, [])
  | file :: files' =>
      let '(st, item) := collect_file st dirpath file in
      let '(st, items) := collect_dir st dirpath files' in
      (st, (option_list item ++ items)%list)
  end.

(** [for dirpath, dirnames, files in os.walk(source)], over the pairs of a
    directory and its files that the walk gives; which directories the walk
    enters, after the folders to skip are removed from [dirnames], is left
    to the walk *)
Fixpoint collect_walk (st : collect_state) (source : string)
    (walk : list (string * list string))
    : collect_state * list (string * string * string) :=
  match walk with
  | [] => (st, [])
  | (dirpath, files) :: walk' =>
      let '(st, items) :=
        if inplace_mode && negb (String.eqb (abspath dirpath) (abspath source))
        then (st, [])
        else collect_dir st dirpath files in
      let '(st, items') := collect_walk st source walk' in
      (st, (items ++ items')%list)
  end.

(** [for source in source_dirs], each source with its walk *)
Fixpoint collect_sources (st : collect_state)
    (source_dirs : list (string * list (string * list string)))
    : collect_state * list (string * string * string) :=
  match source_dirs with
  | [] => (st, [])
  | (source, walk) :: source_dirs' =>
      let '(st, items) := collect_walk st source walk in
      let '(st, items') := collect_sources st source_dirs' in
      (st, (items ++ items')%list)
  end.

(** [collect_files_generator]: everything it yields, for the table [db]
    of the duplicate detector at its start *)
Definition collect_files_generator (db : list hash_row)
    (source_dirs : list (string * list (string * list string)))
    : list (string * string * string) :=
  (collect_sources (CollectState ∅ db 0) source_dirs).2.

(** [collect_files_chunked]: the yielded triples in chunks of [chunk_size] *)
Fixpoint chunks_from {A : Type} (items : list A) (chunk_size : Z) (current_chunk : list A)
    : list (list A) :=
  match items with
  | [] => match current_chunk with [] => [] | _ :: _ => [current_chunk] end
  | item :: items' =>
      let current_chunk := (current_chunk ++ [item])%list in
      if chunk_size <=? Z.of_nat (length current_chunk)
      then current_chunk :: chunks_from items' chunk_size []
      else chunks_from items' chunk_size current_chunk
  end.

Definition collect_files_chunked (db : list hash_row)
    (source_dirs : list (string * list (string * list string))) (chunk_size : Z)
    : list (list (string * string * string)) :=
  chunks_from (collect_files_generator db source_dirs) chunk_size [].

End Collect.

(* ===================================================================== *)
(** ** Folders to skip and unorganized folders *)
(* ===================================================================== *)

(** [should_skip_folder], for the list [skip_folders] of the configuration;
    [folder_name[1]] is read only when the name has more than one
    character *)
Definition should_skip_folder (skip_list : list string) (folder_name : string) : bool :=
  if startswith folder_name "#"
     && ((len folder_name =? 1) || negb (String.eqb (slice folder_name 1 2) " "))
  then true
  else bool_decide (folder_name ∈ skip_list).

(** [DatabaseScanner.unorganized_keywords] *)
Definition unorganized_keywords : list string :=
  ["sorting"; "sort"; "unsorted"; "to organize"; "to sort"; "temp"; "temporary"].

(** [DatabaseScanner.is_unorganized_folder]; [lower] is [str.lower] on
    ASCII characters *)
Definition is_unorganized_folder (folder_name : string) : bool :=
  let folder_lower := lower folder_name in
  existsb (fun keyword => is_infix keyword folder_lower) unorganized_keywords.

(* ===================================================================== *)
(** ** Config *)
(* ===================================================================== *)

#[local] Set Warnings "-register-all".

(** A configuration value: [None], a dictionary, or any other value (a
    number, a string, a list, a boolean). *)
Inductive pyval (atom : Type) : Type :=
| VNone
| VDict (d : gmap string (pyval atom))
| VAtom (a : atom).

Arguments VNone {atom}.

Arguments VDict {atom} d.

Arguments VAtom {atom} a.

(** the exceptions that [Config.set] can raise *)
Inductive set_exn : Type :=
| SetIndexError
| SetAttributeError
| SetTypeError.

Inductive set_result (atom : Type) : Type :=
| Stored (config : gmap string (pyval atom))
| SetRaises (e : set_exn).

Arguments Stored {atom} config.

Arguments SetRaises {atom} e.

Section Config.

Context {atom : Type}.

(** the loop of [Config.get]: [value.get(k, default)] raises when [value]
    is no dictionary *)
Fixpoint get_from (value : pyval atom) (keys : list string) (default : pyval atom)
    : result (pyval atom) :=
  match keys with
  | [] => Ok value
  | k :: keys' =>
      match value with
      | VDict d =>
          let value := match d !! k with Some found => found | None => default end in
          match value with
          | VNone => Ok default
          | _ => get_from value keys' default
          end
      | _ => Raise AttributeError
      end
  end.

(** [Config.get] *)
Definition config_get (config : gmap string (pyval atom)) (key : string)
    (default : pyval atom) : result (pyval atom) :=
  get_from (VDict config) (split "." key) default.

(** [Config.set]: the configuration after the call.  [setdefault] is a
    method of dictionaries only, and so is the assignment to a key; when
    either raises, nothing has been changed.  Writing the configuration to
    its file ([_save_config]) is left out. *)
Fixpoint set_in (config : gmap string (pyval atom)) (keys : list string)
    (value : pyval atom) : set_result atom :=
  match keys with
  | [] => SetRaises SetIndexError
  | [k] => Stored (<[k := value]> config)
  | k :: (_ :: rest) as keys' =>
      let inner :=
        match config !! k with
        | None => set_in ∅ keys' value
        | Some (VDict d) => set_in d keys' value
        | Some _ =>
            SetRaises (match rest with [] => SetTypeError | _ :: _ => SetAttributeError end)
        end in
      match inner with
      | Stored d => Stored (<[k := VDict d]> config)
      | SetRaises e => SetRaises e
      end
  end.

Definition config_set (config : gmap string (pyval atom)) (key : string)
    (value : pyval atom) : set_result atom :=
  set_in config (split "." key) value.

End Config.

(* ===================================================================== *)
(** ** OperationLogger *)
(* ===================================================================== *)

(** the entries of ["moves"] and of ["errors"] *)
Record move_entry : Type := MoveEntry
  { move_from : string;
    move_to : string;
    move_size : Z }.

Record error_entry : Type := ErrorEntry
  { error_text : string;
    error_file : string;
    error_timestamp : string }.

(** ["stats"]; the running total of megabytes is a binary64 number *)
Record operation_stats : Type := OperationStats
  { files_moved : Z;
    duplicates_found : Z;
    errors_counted : Z;
    total_size_mb : PrimFloat.float }.

Record operation : Type := Operation
  { operation_id : string;
    operation_timestamp : string;
    operation_type : string;
    source_dirs : list string;
    target_dir : string;
    moves : list move_entry;
    errors : list error_entry;
    stats : operation_stats }.

Record OperationLogger : Type := Logger
  { current_operation : option operation;
    operations : list operation }.

(** [OperationLogger.__init__] *)
Definition logger_init : OperationLogger :=
  {| current_operation := None; operations := [] |}.

(** [start_operation]; [now_id] and [now_iso] are the two renderings of the
    clock *)
Definition start_operation (now_id now_iso : string) (operation_type : string)
    (source_dirs : list string) (target_dir : string) (self : OperationLogger)
    : OperationLogger :=
  {| current_operation :=
       Some {| operation_id := now_id;
               operation_timestamp := now_iso;
               operation_type := operation_type;
               source_dirs := source_dirs;
               target_dir := target_dir;
               moves := [];
               errors := [];
               stats := {| files_moved := 0;
                           duplicates_found := 0;
                           errors_counted := 0;
                           total_size_mb := PrimFloat.of_uint63 (Uint63.of_Z 0) |} |};
     operations := operations self |}.

(** [size_bytes / (1024 * 1024)], for a size below 2^63 in absolute
    value; the size is -1 when it could not be read *)
Definition megabytes (size_bytes : Z) : PrimFloat.float :=
  let magnitude :=
    PrimFloat.div (PrimFloat.of_uint63 (Uint63.of_Z (Z.abs size_bytes)))
                  (PrimFloat.of_uint63 (Uint63.of_Z (1024 * 1024))) in
  if size_bytes <? 0 then PrimFloat.opp magnitude else magnitude.

(** [log_move] *)
Definition log_move (src dst : string) (size_bytes : Z) (self : OperationLogger)
    : OperationLogger :=
  match current_operation self with
  | Some op =>
      let st := stats op in
      {| current_operation :=
           Some {| operation_id := operation_id op;
                   operation_timestamp := operation_timestamp op;
                   operation_type := operation_type op;
                   source_dirs := source_dirs op;
                   target_dir := target_dir op;
                   moves := moves op ++ [MoveEntry src dst size_bytes];
                   errors := errors op;
                   stats := {| files_moved := files_moved st + 1;
                               duplicates_found := duplicates_found st;
                               errors_counted := errors_counted st;
                               total_size_mb :=
                                 PrimFloat.add (total_size_mb st) (megabytes size_bytes) |} |};
         operations := operations self |}
  | None => self
  end.

(** [log_error] *)
Definition log_error (now_iso : string) (error filename : string) (self : OperationLogger)
    : OperationLogger :=
  match current_operation self with
  | Some op =>
      let st := stats op in
      {| current_operation :=
           Some {| operation_id := operation_id op;
                   operation_timestamp := operation_timestamp op;
                   operation_type := operation_type op;
                   source_dirs := source_dirs op;
                   target_dir := target_dir op;
                   moves := moves op;
                   errors := errors op ++ [ErrorEntry error filename now_iso];
                   stats := {| files_moved := files_moved st;
                               duplicates_found := duplicates_found st;
                               errors_counted := errors_counted st + 1;
                               total_size_mb := total_size_mb st |} |};
         operations := operations self |}
  | None => self
  end.

(** [log_duplicate] *)
Definition log_duplicate (self : OperationLogger) : OperationLogger :=
  match current_operation self with
  | Some op =>
      let st := stats op in
      {| current_operation :=
           Some {| operation_id := operation_id op;
                   operation_timestamp := operation_timestamp op;
                   operation_type := operation_type op;
                   source_dirs := source_dirs op;
                   target_dir := target_dir op;
                   moves := moves op;
                   errors := errors op;
                   stats := {| files_moved := files_moved st;
                               duplicates_found := duplicates_found st + 1;
                               errors_counted := errors_counted st;
                               total_size_mb := total_size_mb st |} |};
         operations := operations self |}
  | None => self
  end.

(** [l[-n:]] *)
Definition last_slice {A : Type} (l : list A) (n : Z) : list A :=
  let size := Z.of_nat (length l) in
  let start := - n in
  let start := if start <? 0 then Z.max 0 (start + size) else Z.min start size in
  drop (Z.to_nat start) l.

(** [end_operation].  [saved] tells whether the line could be written to
    the log file, [max_ops] is the value of [safety.max_undo_operations]
    when the configuration gives an integer ([None] when reading it, or
    comparing with it, raises: the exception is caught and the list is left
    as it is after the [append]). *)
Definition end_operation (saved : bool) (max_ops : option Z) (self : OperationLogger)
    : OperationLogger :=
  match current_operation self with
  | Some op =>
      let operations :=
        if saved then
          let operations := (operations self ++ [op])%list in
          match max_ops with
          | Some max_ops =>
              if Z.of_nat (length operations) >? max_ops
              then last_slice operations max_ops
              else operations
          | None => operations
          end
        else operations self in
      {| current_operation := None; operations := operations |}
  | None => self
  end.

(* ===================================================================== *)
(** ** DatabaseScanner *)
(* ===================================================================== *)

(** [os.path.basename] *)
Definition basename (p : string) : string := slice_from p (rfind p "/" + 1).

(** What [os.walk] finds in a directory: the names of its files and of its
    subdirectories, each subdirectory with what the walk finds in it, or
    [None] when the walk does not enter it (a link to a directory, or a
    directory that cannot be listed). *)
Inductive tree : Type :=
| Tree (filenames : list string) (dirnames : list (string * option tree)).

(** the entries of ["unorganized_areas"], ["learned_mappings"] and
    ["folder_structure"] *)
Record unorganized_area : Type := Area
  { area_path : string;
    area_folder : string;
    area_file_count : Z }.

Record learned_mapping : Type := Mapping
  { mapping_folder : string;
    mapping_count : Z;
    mapping_examples : list string }.

Record folder_entry : Type := FolderEntry
  { folder_path : string;
    folder_file_count : Z;
    folder_patterns : gset string }.

(** [scan_results]; [scan_root] is the entry ["root_path"], and
    ["patterns_found"], which the scan leaves empty, is not kept *)
Record scan_results : Type := ScanResults
  { total_files : Z;
    total_folders : Z;
    organized_files : Z;
    unorganized_files : Z;
    folder_structure : gmap string folder_entry;
    unorganized_areas : list unorganized_area;
    learned_mappings : gmap string learned_mapping;
    scan_date : string;
    scan_root : string }.

Section DatabaseScanner.

(** [skip_folders] of the configuration and [os.path.relpath] *)
Variable skip_list : list string.

Variable relpath : string -> string -> string.

(** [_learn_from_organized_file]: the two tables after the call *)
Definition _learn_from_organized_file (filename folder_name full_path root_path : string)
    (mappings : gmap string learned_mapping) (structure : gmap string folder_entry)
    : gmap string learned_mapping * gmap string folder_entry :=
  let signature := extract_signature filename in
  let mappings :=
    if negb (dict_has mappings signature)
    then <[signature := Mapping folder_name 0 []]> mappings
    else mappings in
  let mappings :=
    match mappings !! signature with
    | Some mapping =>
        let examples := mapping_examples mapping in
        <[signature :=
            Mapping (mapping_folder mapping) (mapping_count mapping + 1)
              (if Z.of_nat (length examples) <? 5 then examples ++ [filename] else examples)]>
          mappings
    | None => mappings
    end in
  let rel_path := relpath full_path root_path in
  let structure :=
    if negb (dict_has structure folder_name)
    then <[folder_name := FolderEntry rel_path 0 ∅]> structure
    else structure in
  let structure :=
    match structure !! folder_name with
    | Some entry =>
        <[folder_name :=
            FolderEntry (folder_path entry) (folder_file_count entry + 1)
              ({[signature]} ∪ folder_patterns entry)]> structure
    | None => structure
    end in
  (mappings, structure).

(** [for filename in filenames]; no progress callback is given *)
Fixpoint scan_files (is_unorganized : bool) (folder_name dirpath root_path : string)
    (filenames : list string) (results : scan_results) : scan_results :=
  match filenames with
  | [] => results
  | filename :: filenames' =>
      let results :=
        if is_unorganized then
          {| total_files := total_files results + 1;
             total_folders := total_folders results;
             organized_files := organized_files results;
             unorganized_files := unorganized_files results + 1;
             folder_structure := folder_structure results;
             unorganized_areas := unorganized_areas results;
             learned_mappings := learned_mappings results;
             scan_date := scan_date results;
             scan_root := scan_root results |}
        else
          let '(mappings, structure) :=
            _learn_from_organized_file filename folder_name dirpath root_path
              (learned_mappings results) (folder_structure results) in
          {| total_files := total_files results + 1;
             total_folders := total_folders results;
             organized_files := organized_files results + 1;
             unorganized_files := unorganized_files results;
             folder_structure := structure;
             unorganized_areas := unorganized_areas results;
             learned_mappings := mappings;
             scan_date := scan_date results;
             scan_root := scan_root results |} in
      scan_files is_unorganized folder_name dirpath root_path filenames' results
  end.

(** the body of the loop over the walk, for one directory *)
Definition scan_folder (root_path dirpath : string) (filenames : list string)
    (dirnames : list string) (results : scan_results) : scan_results :=
  let dirnames := filter (fun d => negb (should_skip_folder skip_list d) = true) dirnames in
  let folder_name := basename dirpath in
  let is_unorganized := is_unorganized_folder folder_name in
  let results :=
    {| total_files := total_files results;
       total_folders := total_folders results + Z.of_nat (length dirnames);
       organized_files := organized_files results;
       unorganized_files := unorganized_files results;
       folder_structure := folder_structure results;
       unorganized_areas :=
         if is_unorganized
         then unorganized_areas results
              ++ [Area dirpath folder_name (Z.of_nat (length filenames))]
         else unorganized_areas results;
       learned_mappings := learned_mappings results;
       scan_date := scan_date results;
       scan_root := scan_root results |} in
  scan_files is_unorganized folder_name dirpath root_path filenames results.

(** [for dirpath, dirnames, filenames in os.walk(root_path)]: the walk goes
    top down, and enters the subdirectories that the loop body has left in
    [dirnames] *)
Fixpoint scan_walk (root_path dirpath : string) (t : tree) (results : scan_results)
    : scan_results :=
  match t with
  | Tree filenames dirnames =>
      let results := scan_folder root_path dirpath filenames dirnames.*1 results in
      (fix scan_subfolders (dirnames : list (string * option tree)) (results : scan_results)
         : scan_results :=
         match dirnames with
         | [] => results
         | (d, entered) :: dirnames' =>
             let results :=
               if should_skip_folder skip_list d then results
               else match entered with
                    | Some t' => scan_walk root_path (Path.join dirpath d) t' results
                    | None => results
                    end in
             scan_subfolders dirnames' results
         end) dirnames results
  end.

(** [scan_directory], for the time [now_iso] and for what the walk finds
    under [root_path] ([None]: nothing, the path is no directory that can
    be listed) *)
Definition scan_directory (now_iso : string) (root_path : string) (found : option tree)
    : scan_results :=
  let results :=
    {| total_files := 0;
       total_folders := 0;
       organized_files := 0;
       unorganized_files := 0;
       folder_structure := ∅;
       unorganized_areas := [];
       learned_mappings := ∅;
       scan_date := now_iso;
       scan_root := root_path |} in
  match found with
  | Some t => scan_walk root_path root_path t results
  | None => results
  end.

End DatabaseScanner.

(* ##################################################################### *)
(** * Part II. Vocabulary of the statements *)
(* ##################################################################### *)

(* ===================================================================== *)
(** ** Outcomes of the detectors, reserved names, the decision table *)
(* ===================================================================== *)

(** equality of two names up to the case of their letters *)
Definition eq_ignore_case (a b : string) : Prop := upper a = upper b.

(** [s] is one of the reserved device names, in any case *)
Definition reserved (s : string) : Prop :=
  exists d, d ∈ reserved_names /\ eq_ignore_case s d.

(** what a detector may give back: no folder, or a folder that is the
    result of [sanitize_folder_name] and hence no reserved name *)
Definition sanitized_output (res : result (option string)) : Prop :=
  match res with
  | Ok (Some r) => (exists candidate, sanitize_folder_name candidate = Ok r) /\ ~ reserved r
  | Ok None => True
  | Raise _ => False
  end.

(** a detector found the folder [f]: it returned a non-empty string *)
Definition hit (res : result (option string)) (f : string) : Prop :=
  exists o, res = Ok o /\ truthy o = Some f.

(** a detector found nothing *)
Definition miss (res : result (option string)) : Prop :=
  exists o, res = Ok o /\ truthy o = None.

(** the numbers of the files of a group *)
Definition numbers_of (pd : pattern_data) : list Z := snd <$> pd_files pd.

(** the casing applied to each word by [smart_title] and to the base name
    by the first two branches of [detect_sequential_pattern] *)
Definition word_case (w : string) : string :=
  if isupper w then w else capitalize w.

(* ===================================================================== *)
(** ** Numbered word groups *)
(* ===================================================================== *)

(** the characters of a word group: letters, hyphens and underscores *)
Definition name_char (c : ascii) : bool := isalpha_c c || dash_us c.

(** the characters of a numbered stem *)
Definition stem_char (c : ascii) : bool := name_char c || isdigit_c c.

(** [s] ends with a character of class [p] *)
Fixpoint ends_with (p : ascii -> bool) (s : string) : bool :=
  match s with
  | EmptyString => false
  | String c EmptyString => p c
  | String _ s' => ends_with p s'
  end.

(** the folder built from the words of [pre], without a tag *)
Definition untagged_title (pre : string) : string :=
  if contains "_" pre && negb (contains "-" pre) then smart_title pre
  else if contains "-" pre && negb (contains "_" pre) then hyphen_title pre
  else if (rfind pre "_" <? rfind pre "-")%Z then hyphen_title pre
  else smart_title pre.

(** the tag appended by [folder_of_parts] *)
Definition cross_tag (pre : string) (delim : option string) : string :=
  if contains "_" pre && negb (contains "-" pre) then
    if bool_decide (delim = Some "-") then "[-]" else ""
  else if contains "-" pre && negb (contains "_" pre) then
    if bool_decide (delim = Some "_") then "[_]" else ""
  else if bool_decide (delim = Some "_") then "[_]"
  else if bool_decide (delim = Some "-") then "[-]"
  else "".

(* ===================================================================== *)
(** ** Groups and required characters of a pattern *)
(* ===================================================================== *)

(** the characters of a string *)
Abbreviation los := list_ascii_of_string.

(** [sets n r]: every match of [r] goes through the capturing group [n] *)
Fixpoint sets (n : nat) (r : regex) : bool :=
  match r with
  | Grp m r1 => Nat.eqb n m || sets n r1
  | Cat r1 r2 => sets n r1 || sets n r2
  | Alt r1 r2 => sets n r1 && sets n r2
  | Ahead r1 => sets n r1
  | _ => false
  end.

(** the group [n] has a span in [caps] *)
Definition captured (n : nat) (caps : captures) : Prop := is_Some (cap_lookup n caps).

(** [caps'] keeps the groups of [caps] and has those that [r] sets *)
Definition extends (r : regex) (caps caps' : captures) : Prop :=
  forall n, sets n r = true \/ captured n caps -> captured n caps'.

(** every character *)
Definition all_ascii : list ascii := List.map ascii_of_nat (seq 0 256).

(** the class [q] is included in the class [p] *)
Definition subclass (q p : ascii -> bool) : bool :=
  forallb (fun c => implb (q c) (p c)) all_ascii.

(** [requires p r]: every match of [r] consumes a character of class [p] *)
Fixpoint requires (p : ascii -> bool) (r : regex) : bool :=
  match r with
  | Chr q => subclass q p
  | Cat r1 r2 => requires p r1 || requires p r2
  | Alt r1 r2 => requires p r1 && requires p r2
  | Grp _ r1 => requires p r1
  | _ => false
  end.

(** the text has a character of class [p] at a position from [i] to [j - 1] *)
Definition has_between (txt : list ascii) (p : ascii -> bool) (i j : nat) : Prop :=
  exists x c, (i <= x < j)%nat /\ nth_error txt x = Some c /\ p c = true.

(** case analysis over the 256 characters *)
Ltac each_char c :=
  destruct c as [[] [] [] [] [] [] [] []]; vm_compute; try reflexivity; try discriminate.

(** a folder name as [parse_folder_hierarchy] gives it: not empty, without
    white space around it and without a hyphen *)
Definition clean_part (f : string) : Prop :=
  f <> "" /\ strip f = f /\ contains "-" f = false.

(** the folder names that [validate_folder_hierarchy] lets through *)
Definition acceptable (parts : list string) : Prop :=
  parts <> [] /\ (length parts <= 15)%nat
  /\ Forall (fun part => len part <= 255
                        /\ sany (fun c => mem_c c invalid_chars) part = false) parts
  /\ len (join "/" parts) <= 190.

(** the name under which [create_custom_hierarchy] creates a folder *)
Definition safe_name (folder : string) : string :=
  match sanitize_folder_name folder with
  | Ok safe_folder => safe_folder
  | Raise _ => folder
  end.

(** the innermost folder of a hierarchy below [base_path] *)
Definition nested_path (base_path : string) (folders : list string) : string :=
  foldl (fun current_path folder => Path.join current_path (safe_name folder))
    base_path folders.

(** a file system whose state is the list of its directories, where every
    directory can be created; every path that exists is a directory *)
Definition dirs_exists (w : list string) (path : string) : bool :=
  existsb (String.eqb path) w.

Definition dirs_makedirs (w : list string) (path : string) : list string * option string :=
  (path :: w, None).

(** an extension as [os.path.splitext] gives it: nothing, or a dot followed
    by characters that are neither dots nor slashes *)
Definition extension (ext : string) : Prop :=
  ext = "" \/ exists b, ext = String "." b /\ contains "." b = false /\ contains "/" b = false.

(** neither a dot nor a slash *)
Definition plain_char (c : ascii) : bool := negb (eqb_c c ".") && negb (eqb_c c "/").

(** the primary key of a row of [file_hashes] *)
Definition row_key (r : hash_row) : string * Z * string :=
  (h_filename r, h_size r, h_hash r).

(** the table has a row for this name, size and hash *)
Definition recorded (db : list hash_row) (filename : string) (size : Z) (file_hash : string)
    : Prop :=
  exists r, r ∈ db /\ row_key r = (filename, size, file_hash).

(** the table has a row for this name *)
Definition name_recorded (db : list hash_row) (filename : string) : Prop :=
  exists r, r ∈ db /\ h_filename r = filename.

(** the files with the name [file] among the visited pairs of a directory
    and a file name *)
Definition same_name (file : string) (visited : list (string * string))
    : list (string * string) :=
  List.filter (fun entry => String.eqb entry.2 file) visited.

Section CollectVocabulary.

Variables (target_root : string) (use_hash inplace_mode : bool)
  (logic_func : string -> option string) (abspath : string -> string) (fs : file_system)
  (read_file : string -> read_outcome) (md5_hexdigest : string -> string)
  (now_at : string -> string).

(** the state after the loop body has run on the visited files, in order *)
Fixpoint collect_visited (st : collect_state) (visited : list (string * string))
    : collect_state :=
  match visited with
  | [] => st
  | (dirpath, file) :: visited' =>
      collect_visited
        (collect_file target_root use_hash logic_func abspath fs read_file md5_hexdigest
           now_at st dirpath file).1 visited'
  end.

(** the files on which the loop body runs *)
Definition visited_of_walk (source : string) (walk : list (string * list string))
    : list (string * string) :=
  flat_map (fun '(dirpath, files) =>
              if inplace_mode && negb (String.eqb (abspath dirpath) (abspath source))
              then [] else pair dirpath <$> files) walk.

Definition visited_of (source_dirs : list (string * list (string * list string)))
    : list (string * string) :=
  flat_map (fun '(source, walk) => visited_of_walk source walk) source_dirs.

(** the size and the hash of a visited file *)
Definition size_of (entry : string * string) : Z :=
  get_file_size fs (Path.join entry.1 entry.2).

Definition hash_of (entry : string * string) : option string :=
  truthy (compute_hash read_file md5_hexdigest (Path.join entry.1 entry.2)).

(** the triple yielded for a repeated name *)
Definition renamed (dirpath file folder : string) (count : nat)
    : string * string * string :=
  let '(base, ext) := Path.splitext file in
  (Path.join dirpath file, Path.join target_root folder,
   base +:+ " (" +:+ str_of_Z (Z.of_nat count) +:+ ")" +:+ ext).

(** everything the loop body yields on the visited files, in order *)
Fixpoint collect_items (st : collect_state) (visited : list (string * string))
    : list (string * string * string) :=
  match visited with
  | [] => []
  | (dirpath, file) :: visited' =>
      let '(st, item) :=
        collect_file target_root use_hash logic_func abspath fs read_file md5_hexdigest
          now_at st dirpath file in
      (option_list item ++ collect_items st visited')%list
  end.

(** what the end of the loop body yields for a file that is no duplicate *)
Definition logic_item (dirpath file : string) : option (string * string * string) :=
  (by_logic target_root logic_func abspath (CollectState ∅ [] 0)
     (Path.join dirpath file) file).2.

(** what [seen_files] holds for a name after the files [visited]: nothing
    when no visited file has the name; otherwise the number of such files
    less one, and, without hashing, their sizes *)
Definition seen_invariant (visited : list (string * string)) (st : collect_state) : Prop :=
  forall file,
    match seen_files st !! file with
    | None => same_name file visited = []
    | Some entry =>
        same_name file visited <> []
        /\ s_count entry = Z.of_nat (length (same_name file visited)) - 1
        /\ (use_hash = false ->
            forall z, z ∈ s_sizes entry <-> z ∈ size_of <$> same_name file visited)
    end.

(** with hashing, the rows of the table after the files [visited], from an
    empty table: one for each name, size and hash of a visited file that
    could be hashed *)
Definition table_invariant (visited : list (string * string)) (st : collect_state) : Prop :=
  forall file size file_hash,
    recorded (hash_db st) file size file_hash
    <-> exists entry, entry ∈ visited /\ entry.2 = file /\ size_of entry = size
                      /\ hash_of entry = Some file_hash.

End CollectVocabulary.

(** [learn] called on each file name and folder of a list, in order *)
Fixpoint learn_all (patterns : gmap string learned_pattern)
    (choices : list (string * string)) : result (gmap string learned_pattern) :=
  match choices with
  | [] => Ok patterns
  | (filename, folder) :: choices' =>
      patterns' ← learn patterns filename folder;
      learn_all patterns' choices'
  end.

(** two characters that are equal or both digits, and two texts that
    differ at most in which digits they have *)
Definition same_kind (c d : ascii) : bool := eqb_c c d || (isdigit_c c && isdigit_c d).

Fixpoint digit_variant (s t : string) : bool :=
  match s, t with
  | EmptyString, EmptyString => true
  | String c s', String d t' => same_kind c d && digit_variant s' t'
  | _, _ => false
  end.

(** a text of ASCII characters, and the values that SQLite binds as
    parameters of a statement: texts that can be encoded, here ASCII
    texts, and integers of 64 bits *)
Definition ascii_only (s : string) : bool := sall (fun c => code c <? 128) s.

Definition bound_by_sqlite (filename : string) (size : Z) (filepath : string) : Prop :=
  ascii_only filename = true /\ ascii_only filepath = true
  /\ - 2 ^ 63 <= size < 2 ^ 63.

(** the path of the placeholder for a number, and the state after the
    files of a list of paths have been opened for writing, one after the
    other *)
Definition placeholder_path (directory : string) (pattern_data : pattern_data) (num : Z)
    : string :=
  Path.join directory (placeholder_name pattern_data num).

Definition opened {world : Type} (open_w : world -> string -> world * option string)
    (w : world) (paths : list string) : world :=
  foldl (fun w path => (open_w w path).1) w paths.

(** The calls made on the logger while files are organized. *)
Inductive logged : Type :=
| LogMove (src dst : string) (size_bytes : Z)
| LogError (now_iso error filename : string)
| LogDuplicate.

Definition log (self : OperationLogger) (call : logged) : OperationLogger :=
  match call with
  | LogMove src dst size_bytes => log_move src dst size_bytes self
  | LogError now_iso error filename => log_error now_iso error filename self
  | LogDuplicate => log_duplicate self
  end.

Definition logged_move (call : logged) : option move_entry :=
  match call with
  | LogMove src dst size_bytes => Some (MoveEntry src dst size_bytes)
  | _ => None
  end.

Definition logged_error (call : logged) : option error_entry :=
  match call with
  | LogError now_iso error filename => Some (ErrorEntry error filename now_iso)
  | _ => None
  end.

Definition is_duplicate_call (call : logged) : bool :=
  match call with LogDuplicate => true | _ => false end.

(** the sums of the counts in the three tables of a scan *)
Definition mappings_total (mappings : gmap string learned_mapping) : Z :=
  map_fold (fun _ mapping total => mapping_count mapping + total) 0 mappings.

Definition folders_total (structure : gmap string folder_entry) : Z :=
  map_fold (fun _ entry total => folder_file_count entry + total) 0 structure.

Definition areas_total (areas : list unorganized_area) : Z :=
  foldr (fun area total => area_file_count area + total) 0 areas.

(** the entries of ["learned_mappings"] keep at most five examples *)
Definition examples_kept (mappings : gmap string learned_mapping) : Prop :=
  forall signature mapping, mappings !! signature = Some mapping ->
    1 <= mapping_count mapping
    /\ Z.of_nat (length (mapping_examples mapping)) = Z.min (mapping_count mapping) 5.

(** what holds of the results while a scan runs, between two files and
    between two directories *)
Definition consistent (results : scan_results) : Prop :=
  total_files results = organized_files results + unorganized_files results
  /\ organized_files results = mappings_total (learned_mappings results)
  /\ organized_files results = folders_total (folder_structure results)
  /\ examples_kept (learned_mappings results).

Definition scanned (results : scan_results) : Prop :=
  consistent results
  /\ unorganized_files results = areas_total (unorganized_areas results).

(* ===================================================================== *)
(** ** The duplicate decision matrix *)
(* ===================================================================== *)











(** a file system given by the list of its files with size and
    modification time and by the local clock, where no file has EXIF data
    and every folder can be created and written to *)
Definition fs_zone (files : list (string * (Z * Z))) (fromtimestamp : Z -> attempt Z)
    : file_system :=
  let find path := snd <$> List.find (fun f => String.eqb f.1 path) files in
  FileSystem (fun path => bool_decide (is_Some (find path)))
    (fun _ => true) (fun _ => true)
    (fun path => fst <$> find path)
    (fun _ => Nothing)
    (fun path => snd <$> find path)
    fromtimestamp
    (fun _ _ => true).

(** the same where the local clock shows universal time *)
Definition fs_of (files : list (string * (Z * Z))) : file_system :=
  fs_zone files Got.


(* ##################################################################### *)
(** * Part III. The program on examples *)
(* ##################################################################### *)

Example split_ex : split "_" "name__set_" = ["name"; ""; "set"; ""].
Proof. reflexivity. Qed.

Example rstrip_ex : rstrip " ." "a. b . " = "a. b".
Proof. reflexivity. Qed.

Example capitalize_ex : capitalize "fooBAR" = "Foobar".
Proof. reflexivity. Qed.

Example rfind_ex : rfind "a-b-c" "-" = 3 /\ rfind "abc" "-" = -1.
Proof. split; reflexivity. Qed.

Example slice_ex : slice "photo.jpg" 2 5 = "oto" /\ slice_from "photo.jpg" 5 = ".jpg".
Proof. split; reflexivity. Qed.

Example isupper_ex : isupper "A1" = true /\ isupper "12" = false /\ isupper "aB" = false.
Proof. repeat split; reflexivity. Qed.

Example str_of_nat_ex : str_of_nat 42 = "42" /\ int_of "0042" = 42.
Proof. split; reflexivity. Qed.

Example sub_dup_marker_ex :
  sub_empty re_dup_marker "a (1) -(23)" = "a (1)"
  /\ sub_empty re_dup_marker "photo_(2)" = "photo"
  /\ sub_empty re_dup_marker "photo(2)x" = "photo(2)x".
Proof. repeat split; vm_compute; reflexivity. Qed.

Example sub_seq_suffix_ex :
  sub_empty re_seq_suffix "2024_report-01" = "2024_report-"
  /\ sub_empty re_seq_suffix "shot_02r" = "shot_"
  /\ sub_empty re_seq_suffix "shot02" = "shot02".
Proof. repeat split; vm_compute; reflexivity. Qed.

Example search_tail_number_ex :
  (m ← search re_tail_number "name_set-5"; Some (m_start m, group m 1, group m 2))
  = Some (8%nat, Some "-", Some "5").
Proof. vm_compute. reflexivity. Qed.

Example img_tag_ex :
  (m ← search re_img_tag "my_dscn1234.jpg"; group m 1) = Some "dscn"
  /\ search re_img_tag "imgur.png" = None.
Proof. split; vm_compute; reflexivity. Qed.

Example prefix_number_suffix_ex :
  (m ← rmatch re_prefix_number_suffix "IMG_001_final"; Some (group m 1, group m 2, group m 3))
  = Some (Some "IMG_", Some "001", Some "_final").
Proof. vm_compute. reflexivity. Qed.

Example splitext_ex :
  Path.splitext "IMG_1234.jpg" = ("IMG_1234", ".jpg")
  /\ Path.splitext ".bashrc" = (".bashrc", "")
  /\ Path.splitext "archive.tar.gz" = ("archive.tar", ".gz")
  /\ Path.splitext "a/b.c/readme" = ("a/b.c/readme", "")
  /\ Path.splitext "..x" = ("..x", "")
  /\ Path.splitext "a." = ("a", ".").
Proof. repeat split; reflexivity. Qed.

Example join_dirname_ex :
  Path.join "/pics/Trip" "a.jpg" = "/pics/Trip/a.jpg"
  /\ Path.join "" "a.jpg" = "a.jpg"
  /\ Path.join "/pics/" "a.jpg" = "/pics/a.jpg"
  /\ Path.dirname "/pics/Trip" = "/pics"
  /\ Path.dirname "Trip" = ""
  /\ Path.dirname "/Trip" = "/".
Proof. repeat split; reflexivity. Qed.

Example sanitize_ex :
  sanitize_folder_name "CON" = Ok "CON_"
  /\ sanitize_folder_name "con.txt" = Ok "con.txt_"
  /\ sanitize_folder_name "Console" = Ok "Console"
  /\ sanitize_folder_name "" = Ok "".
Proof. repeat split; vm_compute; reflexivity. Qed.

Example detect_folder_name_ex :
  detect_folder_name "name-set-123.jpg" = Ok (Some "Name-Set")
  /\ detect_folder_name "2024_report-01.pdf" = Ok (Some "2024_Report")
  /\ detect_folder_name "photo.jpg" = Ok None
  /\ detect_folder_name "shot12.png" = Ok None.
Proof. repeat split; vm_compute; reflexivity. Qed.

Example extract_img_tag_ex :
  extract_img_tag "img_5678.png" = Ok (Some "IMG")
  /\ extract_img_tag "DSCN0001.jpg" = Ok (Some "DSCN")
  /\ extract_img_tag "photo.jpg" = Ok None.
Proof. repeat split; vm_compute; reflexivity. Qed.

Example detect_sequential_pattern_ex :
  detect_sequential_pattern "031204-0022" = Ok (Some "031204")
  /\ detect_sequential_pattern "file001" = Ok (Some "File")
  /\ detect_sequential_pattern "vacation-001" = Ok (Some "Vacation")
  /\ detect_sequential_pattern "IMG_1234" = Ok (Some "IMG")
  /\ detect_sequential_pattern "file-1" = Ok None.
Proof. repeat split; vm_compute; reflexivity. Qed.

Example extract_signature_ex :
  extract_signature "vacation-001.jpg" = "TEXT-NNN"
  /\ extract_signature "IMG_1234.jpg" = "IMG_NNNN"
  /\ extract_signature "file001.pdf" = "TEXTNNN"
  /\ extract_signature "031204-0022.jpg" = "NNNNNN-NNNN"
  /\ extract_signature "trip-042" = "TEXT-NNN"
  /\ extract_signature "" = "".
Proof. repeat split; vm_compute; reflexivity. Qed.

Example detect_ex :
  detect ∅ "vacation-001.jpg" = Ok (Some "Vacation", 0.90%Q, "Sequential Pattern")
  /\ detect ∅ "name_set.txt" = Ok (Some "Name_Set", 0.80%Q, "Smart Pattern")
  /\ detect ∅ "readme" = Ok (None, 0.0%Q, "No Pattern").
Proof. repeat split; vm_compute; reflexivity. Qed.

Example detect_file_patterns_ex :
  (ps ← detect_file_patterns (Some ["IMG_001_final.jpg"; "IMG_003_final.jpg"; "x.txt"; "7.png"]);
   Ok (map_to_list ps))
  = Ok [("IMG__NUM__final_.jpg",
         PatternData [("IMG_001_final.jpg", 1); ("IMG_003_final.jpg", 3)]
           "IMG_" "_final" 3 ".jpg" false)].
Proof. vm_compute. reflexivity. Qed.

(** the four rows of the table, a nested collision and the exhaustion of
    the counter, on concrete file systems; "/in/a.jpg" is moved to
    "/out/Trip", which already has an "a.jpg" *)
Example move_file_rows :
  let incoming size mtime := ("/in/a.jpg", (size, mtime)) in
  let present := ("/out/Trip/a.jpg", (100, 7000000)) in
  let run fs := move_file fs true "/in/a.jpg" "/out/Trip" "a.jpg" in
  run (fs_of [incoming 100 7999999; present]) = Ok (Some "/out/!Dupes/a[d].jpg")
  /\ run (fs_of [incoming 250 7000000; present]) = Ok (Some "/out/!Dupes Size/a{d}.jpg")
  /\ run (fs_of [incoming 100 8000000; present]) = Ok (Some "/out/Trip/a[d].jpg")
  /\ run (fs_of [incoming 250 9000000; present]) = Ok (Some "/out/Trip/a{d}.jpg")
  /\ run (fs_of [incoming 100 7000000; present; ("/out/!Dupes/a[d].jpg", (100, 1))])
     = Ok (Some "/out/!Dupes/a[d]2.jpg")
  /\ run (fs_of [incoming 100 7000000]) = Ok (Some "/out/Trip/a.jpg")
  /\ run (fs_of [present]) = Ok None.
Proof. repeat split; vm_compute; reflexivity. Qed.

(** the assertions of the unit tests of the repository on these functions
    ([tests/test_core_functions.py], [tests/test_missing_files.py]) *)
Example test_windows_reserved_names :
  Forall (fun name => exists r, sanitize_folder_name name = Ok r
                                /\ r <> name /\ endswith r "_" = true)
    ["CON"; "PRN"; "AUX"; "NUL"; "COM1"; "LPT1"].
Proof. repeat constructor; eexists; (split; [vm_compute; reflexivity | split; [discriminate | reflexivity]]). Qed.

Example test_normal_names_unchanged :
  Forall (fun name => sanitize_folder_name name = Ok name)
    ["Documents"; "My Files"; "Photos_2024"; "My-Files"; "Project123"; "test"; ""].
Proof. repeat constructor; vm_compute; reflexivity. Qed.

Example test_extract_img_tag :
  extract_img_tag "IMG_1234.jpg" = Ok (Some "IMG")
  /\ extract_img_tag "img_5678.png" = Ok (Some "IMG")
  /\ extract_img_tag "DSC_9999.jpg" = Ok (Some "DSC")
  /\ extract_img_tag "dsc_0001.jpg" = Ok (Some "DSC")
  /\ Forall (fun filename => extract_img_tag filename = Ok None)
       ["photo.jpg"; "vacation.png"; "document.pdf"].
Proof. repeat split; repeat constructor; vm_compute; reflexivity. Qed.

Example test_detect_sequential_pattern :
  detect_sequential_pattern "file001.txt" = Ok (Some "File")
  /\ detect_sequential_pattern "photo-123.jpg" = Ok (Some "Photo")
  /\ detect_sequential_pattern "vacation_042.png" = Ok (Some "Vacation")
  /\ Forall (fun filename => detect_sequential_pattern filename = Ok None)
       ["document.pdf"; "photo.jpg"; "readme.md"].
Proof. repeat split; repeat constructor; vm_compute; reflexivity. Qed.

Example test_smart_title :
  smart_title "hello_world" = "Hello_World"
  /\ smart_title "test_file_name" = "Test_File_Name".
Proof. split; vm_compute; reflexivity. Qed.

Example test_pattern_detection :
  let groups files := ps ← detect_file_patterns (Some files); Ok (map_to_list ps) in
  groups ["001.jpg"; "002.jpg"; "005.jpg"; "010.jpg"]
  = Ok [("PURE_NUMERIC_.jpg",
         PatternData [("001.jpg", 1); ("002.jpg", 2); ("005.jpg", 5); ("010.jpg", 10)]
           "" "" 3 ".jpg" true)]
  /\ groups ["IMG_001.jpg"; "IMG_003.jpg"; "IMG_007.jpg"]
     = Ok [("IMG__.jpg",
            PatternData [("IMG_001.jpg", 1); ("IMG_003.jpg", 3); ("IMG_007.jpg", 7)]
              "IMG_" "" 3 ".jpg" false)]
  /\ groups ["file_1.jpg"; "file_2.jpg"; "file_20.jpg"]
     = Ok [("file__.jpg",
            PatternData [("file_1.jpg", 1); ("file_2.jpg", 2); ("file_20.jpg", 20)]
              "file_" "" 2 ".jpg" false)]
  /\ (gs ← groups ["IMG_001.jpg"; "IMG_003.jpg"; "SCAN_010.pdf"; "SCAN_015.pdf";
                    "001.png"; "005.png"]; Ok (length gs)) = Ok 3%nat
  /\ (gs ← groups ["001.jpg"; "002.jpg"; "001.pdf"; "002.pdf"]; Ok (length gs)) = Ok 2%nat
  /\ groups ["001.jpg"] = Ok [].
Proof. repeat split; vm_compute; reflexivity. Qed.

Example test_gap_detection :
  let missing files :=
    ps ← detect_file_patterns (Some files);
    kv ← index (map_to_list ps) 0;
    find_missing_files kv.2 in
  missing ["010.jpg"; "015.jpg"; "020.jpg"]
  = Ok [1; 2; 3; 4; 5; 6; 7; 8; 9; 11; 12; 13; 14; 16; 17; 18; 19]
  /\ missing ["IMG_010.jpg"; "IMG_015.jpg"; "IMG_020.jpg"]
     = Ok [11; 12; 13; 14; 16; 17; 18; 19]
  /\ missing ["001.jpg"; "002.jpg"; "005.jpg"] = Ok [3; 4]
  /\ missing ["001.jpg"; "002.jpg"; "003.jpg"; "004.jpg"] = Ok []
  /\ (ns ← missing ["001.jpg"; "100.jpg"]; Ok (length ns)) = Ok 98%nat.
Proof. repeat split; vm_compute; reflexivity. Qed.

Example strip_ex :
  strip "  a b " = "a b" /\ strip "   " = "" /\ zfill "7" 3 = "007"
  /\ zfill "-7" 4 = "-007" /\ zfill "1234" 3 = "1234"
  /\ str_of_Z 0 = "0" /\ str_of_Z (-12) = "-12"
  /\ is_infix "sort" "Unsorted" = true /\ is_infix "ab" "a" = false
  /\ repr_c "000" = "'\x00'" /\ repr_c "\" = "'\\'" /\ repr_c "<" = "'<'".
Proof. repeat split; vm_compute; reflexivity. Qed.

Example parse_folder_hierarchy_ex :
  parse_folder_hierarchy "TMC-Aileron-LH" = ["TMC"; "Aileron"; "LH"]
  /\ parse_folder_hierarchy " TMC - - LH-" = ["TMC"; "LH"]
  /\ parse_folder_hierarchy "" = [].
Proof. repeat split; vm_compute; reflexivity. Qed.

Example validate_folder_hierarchy_ex :
  validate_folder_hierarchy "TMC-Aileron-LH" = (true, "Valid hierarchy")
  /\ validate_folder_hierarchy " - " = (false, "No valid folder names found")
  /\ validate_folder_hierarchy "  " = (false, "Hierarchy cannot be empty")
  /\ validate_folder_hierarchy "a-b/c:d" = (false, "Invalid characters in 'b/c:d': ':', '/'")
  /\ validate_folder_hierarchy "a-b-c-d-e-f-g-h-i-j-k-l-m-n-o-p"
     = (false, "Too many nesting levels (16). Maximum: 15").
Proof. repeat split; vm_compute; reflexivity. Qed.

Example generate_numbered_folder_names_ex :
  generate_numbered_folder_names 5 = ["001"; "002"; "003"; "004"; "005"]
  /\ generate_numbered_folder_names 0 = []
  /\ generate_numbered_folder_names (-3) = []
  /\ last (generate_numbered_folder_names 1000) = Some "1000"
  /\ head (generate_numbered_folder_names 1000) = Some "0001".
Proof. repeat split; vm_compute; reflexivity. Qed.

Example logic_functions_ex :
  by_extension "photo.jpg" = Ok "JPG" /\ by_extension "README" = Ok "_NOEXT"
  /\ by_extension "a." = Ok "_NOEXT" /\ by_extension "x.con" = Ok "CON_"
  /\ by_alphabet "apple.txt" = Ok "A" /\ by_alphabet "7up" = Ok "0-9"
  /\ by_alphabet "_x" = Ok "!@#$" /\ by_alphabet "" = Raise IndexError
  /\ by_numeric_simple "  zeta" = "Z" /\ by_numeric_simple "42.txt" = "4"
  /\ by_numeric_simple "?x" = "!@#$" /\ by_numeric_simple "_x" = "_"
  /\ by_numeric_simple "   " = "!@#$".
Proof. repeat split; vm_compute; reflexivity. Qed.

Example make_key_ex :
  make_key "Vacation_001.jpg" = "vacation_" /\ make_key "vacation_002.png" = "vacation_"
  /\ make_key "Report (2).pdf" = "report" /\ make_key " Notes .txt" = "notes".
Proof. repeat split; vm_compute; reflexivity. Qed.

Example megabytes_ex :
  PrimFloat.eqb (megabytes 1048576) (PrimFloat.of_uint63 (Uint63.of_Z 1)) = true
  /\ PrimFloat.eqb (megabytes 524288)
       (PrimFloat.div (PrimFloat.of_uint63 (Uint63.of_Z 1)) (PrimFloat.of_uint63 (Uint63.of_Z 2)))
     = true
  /\ PrimFloat.eqb (megabytes (-1))
       (PrimFloat.opp (PrimFloat.div (PrimFloat.of_uint63 (Uint63.of_Z 1))
                         (PrimFloat.of_uint63 (Uint63.of_Z 1048576))))
     = true.
Proof. repeat split; vm_compute; reflexivity. Qed.

(* ##################################################################### *)
(** * Part IV. Properties *)
(* ##################################################################### *)

(* ===================================================================== *)
(** ** Facts about the matcher *)
(* ===================================================================== *)

Lemma captured_cons n m span caps :
  captured n ((m, span) :: caps) <-> n = m \/ captured n caps.
Proof.
  unfold captured. simpl. destruct (Nat.eqb_spec n m) as [->|Hne].
  - split; [auto | intros _; eexists; reflexivity].
  - split; [auto | intros [?|?]; [contradiction | assumption]].
Qed.

Section RunFacts.

Variable txt : list ascii.

(** a successful [run] has called its continuation, with at least the
    groups that the expression sets *)
Lemma run_continues r :
  forall i caps k res,
    run txt r i caps k = Some res ->
    exists j caps', k j caps' = Some res /\ extends r caps caps'.
Proof.
  induction r as [ | p | r1 IH1 r2 IH2 | r1 IH1 r2 IH2 | r1 IH1 | r1 IH1
                 | g r1 IH1 | | | r1 IH1 | p ]; intros i caps k res H; simpl in H.
  - exists i, caps. split; [assumption|]. intros n [Hs|Hc]; [discriminate|assumption].
  - destruct (nth_error txt i) as [c|]; [|discriminate].
    destruct (p c); [|discriminate].
    exists (S i), caps. split; [assumption|]. intros n [Hs|Hc]; [discriminate|assumption].
  - apply IH1 in H as (j1 & c1 & H & E1).
    apply IH2 in H as (j2 & c2 & H & E2).
    exists j2, c2. split; [assumption|].
    intros n [Hs|Hc].
    + simpl in Hs. apply orb_true_iff in Hs as [Hs|Hs].
      * apply E2. right. apply E1. left. assumption.
      * apply E2. left. assumption.
    + apply E2. right. apply E1. right. assumption.
  - destruct (run txt r1 i caps k) as [res1|] eqn:H1.
    + apply IH1 in H1 as (j & c & H1 & E). exists j, c.
      split; [congruence|].
      intros n [Hs|Hc]; apply E; [left|right; assumption].
      simpl in Hs. apply andb_true_iff in Hs. tauto.
    + apply IH2 in H as (j & c & H & E). exists j, c.
      split; [assumption|].
      intros n [Hs|Hc]; apply E; [left|right; assumption].
      simpl in Hs. apply andb_true_iff in Hs. tauto.
  - revert H. generalize (length txt - i)%nat as n. intros n. revert i caps.
    induction n as [|n IHn]; intros i caps H; cbn [star_loop] in H.
    + exists i, caps. split; [assumption|]. intros m [Hs|Hc]; [discriminate|assumption].
    + match type of H with
      | match ?scrut with _ => _ end = _ => destruct scrut as [res1|] eqn:H1
      end.
      * injection H as Heq. subst res1.
        apply IH1 in H1 as (j & c & H1 & E).
        destruct (Nat.ltb i j); [|discriminate].
        apply IHn in H1 as (j' & c' & H1 & E').
        exists j', c'. split; [assumption|].
        intros m [Hs|Hc]; [discriminate|].
        apply E'. right. apply E. right. assumption.
      * exists i, caps. split; [assumption|].
        intros m [Hs|Hc]; [discriminate|assumption].
  - revert H. generalize (length txt - i)%nat as n. intros n. revert i caps.
    induction n as [|n IHn]; intros i caps H; cbn [lazy_loop] in H.
    + destruct (k i caps) as [res1|] eqn:Hk; [|discriminate].
      exists i, caps. split; [congruence|]. intros m [Hs|Hc]; [discriminate|assumption].
    + destruct (k i caps) as [res1|] eqn:Hk.
      * exists i, caps. split; [congruence|].
        intros m [Hs|Hc]; [discriminate|assumption].
      * apply IH1 in H as (j & c & H & E).
        destruct (Nat.ltb i j); [|discriminate].
        apply IHn in H as (j' & c' & H & E').
        exists j', c'. split; [assumption|].
        intros m [Hs|Hc]; [discriminate|].
        apply E'. right. apply E. right. assumption.
  - apply IH1 in H as (j & c & H & E).
    exists j, ((g, (i, j)) :: c). split; [assumption|].
    intros n [Hs|Hc]; apply captured_cons.
    + simpl in Hs. apply orb_true_iff in Hs as [Hs|Hs].
      * left. apply Nat.eqb_eq. assumption.
      * right. apply E. left. assumption.
    + right. apply E. right. assumption.
  - destruct (Nat.eqb i 0); [|discriminate].
    exists i, caps. split; [assumption|]. intros n [Hs|Hc]; [discriminate|assumption].
  - destruct (at_end txt i); [|discriminate].
    exists i, caps. split; [assumption|]. intros n [Hs|Hc]; [discriminate|assumption].
  - destruct (run txt r1 i caps (fun j c => Some (j, c))) as [[j c]|] eqn:H1; [|discriminate].
    apply IH1 in H1 as (j' & c' & H1 & E). injection H1 as -> ->.
    exists i, c. split; [assumption|].
    intros n [Hs|Hc]; apply E; [left|right]; assumption.
  - destruct i as [|i']; [discriminate|].
    destruct (nth_error txt i') as [c|]; [|discriminate].
    destruct (p c); [|discriminate].
    exists (S i'), caps. split; [assumption|]. intros n [Hs|Hc]; [discriminate|assumption].
Qed.

Lemma match_at_captured r i j caps n :
  match_at txt r i = Some (j, caps) -> sets n r = true -> captured n caps.
Proof.
  unfold match_at. intros H Hs.
  apply run_continues in H as (j' & c' & H & E).
  injection H as -> ->. apply E. left. assumption.
Qed.

Lemma scan_captured r n fuel :
  forall i a b caps,
    scan txt r fuel i = Some (a, (b, caps)) -> sets n r = true -> captured n caps.
Proof.
  induction fuel as [|fuel IH]; intros i a b caps H Hs; simpl in H.
  - destruct (match_at txt r i) as [[j c]|] eqn:Hm; [|discriminate].
    injection H as _ -> ->. eapply match_at_captured; eassumption.
  - destruct (match_at txt r i) as [[j c]|] eqn:Hm.
    + injection H as _ -> ->. eapply match_at_captured; eassumption.
    + eapply IH; eassumption.
Qed.

End RunFacts.

(** a group that the pattern always sets is a string in the match object *)
Lemma rmatch_group r s m n :
  rmatch r s = Some m -> sets n r = true -> exists g, group m n = Some g.
Proof.
  unfold rmatch. intros H Hs.
  destruct (match_at (list_ascii_of_string s) r 0) as [[j c]|] eqn:Hm; [|discriminate].
  injection H as <-. unfold group. simpl.
  destruct (match_at_captured _ _ _ _ _ n Hm Hs) as [[a b] Hc].
  rewrite Hc. eexists; reflexivity.
Qed.

Lemma search_group r s m n :
  search r s = Some m -> sets n r = true -> exists g, group m n = Some g.
Proof.
  unfold search. intros H Hs.
  destruct (scan _ r _ 0) as [[a [b c]]|] eqn:Hm; [|discriminate].
  injection H as <-. unfold group. simpl.
  destruct (scan_captured _ _ n _ _ _ _ _ Hm Hs) as [[x y] Hc].
  rewrite Hc. eexists; reflexivity.
Qed.

Lemma rmatch_group_str r s m n :
  rmatch r s = Some m -> sets n r = true -> exists g, group_str m n = Ok g.
Proof.
  intros H Hs. destruct (rmatch_group _ _ _ _ H Hs) as [g Hg].
  exists g. unfold group_str. rewrite Hg. reflexivity.
Qed.

Lemma search_group_str r s m n :
  search r s = Some m -> sets n r = true -> exists g, group_str m n = Ok g.
Proof.
  intros H Hs. destruct (search_group _ _ _ _ H Hs) as [g Hg].
  exists g. unfold group_str. rewrite Hg. reflexivity.
Qed.

(* ===================================================================== *)
(** ** Facts about strings *)
(* ===================================================================== *)

Lemma upper_c_dot c : eqb_c "." (upper_c c) = eqb_c "." c.
Proof. each_char c. Qed.

Lemma upper_app a b : upper (a +:+ b) = upper a +:+ upper b.
Proof. induction a as [|c a IH]; simpl; [reflexivity|]. unfold upper in *. simpl. rewrite IH. reflexivity. Qed.

Lemma contains_app c a b : contains c (a +:+ b) = contains c a || contains c b.
Proof.
  unfold contains. induction a as [|d a IH]; simpl; [reflexivity|].
  rewrite IH. rewrite orb_assoc. reflexivity.
Qed.

Lemma contains_upper_dot s : contains "." (upper s) = contains "." s.
Proof.
  unfold contains, upper. induction s as [|c s IH]; cbn [smap sany]; [reflexivity|].
  rewrite IH, upper_c_dot. reflexivity.
Qed.

Lemma split_nonempty sep s : exists w ws, split sep s = w :: ws.
Proof.
  destruct s as [|c s]; simpl; [eauto|].
  destruct (eqb_c c sep); [eauto|].
  destruct (split sep s); eauto.
Qed.

Lemma split_absent sep s : contains sep s = false -> split sep s = [s].
Proof.
  unfold contains. induction s as [|c s IH]; simpl; [reflexivity|].
  intros H. apply orb_false_iff in H as [Hc Hs].
  unfold eqb_c in *. rewrite Ascii.eqb_sym, Hc. rewrite (IH Hs). reflexivity.
Qed.

(* ===================================================================== *)
(** ** Reserved device names *)
(* ===================================================================== *)

Lemma reserved_names_shape :
  Forall (fun d => upper d = d /\ contains "." d = false /\ contains "_" d = false)
    reserved_names.
Proof. repeat constructor. Qed.

Lemma reserved_iff s : reserved s <-> upper s ∈ reserved_names.
Proof.
  pose proof reserved_names_shape as F. rewrite Forall_forall in F.
  split.
  - intros (d & Hd & E). unfold eq_ignore_case in E. rewrite E.
    destruct (F d Hd) as (-> & _). assumption.
  - intros H. exists (upper s). split; [assumption|].
    unfold eq_ignore_case. destruct (F _ H) as (-> & _). reflexivity.
Qed.

Lemma sanitize_folder_name_cases folder_name :
  (sanitize_folder_name folder_name = Ok folder_name /\ ~ reserved folder_name)
  \/ (sanitize_folder_name folder_name = Ok (folder_name +:+ "_")
      /\ exists first rest, split "." folder_name = first :: rest
                            /\ upper first ∈ reserved_names).
Proof.
  pose proof reserved_names_shape as F. rewrite Forall_forall in F.
  unfold sanitize_folder_name.
  destruct (String.eqb_spec folder_name "") as [->|Hne].
  - left. split; [reflexivity|]. rewrite reserved_iff. vm_compute.
    intros H. repeat (apply elem_of_cons in H as [H|H]; [discriminate|]).
    inversion H.
  - destruct (split_nonempty "." folder_name) as (first & rest & Hs).
    rewrite Hs. simpl. case_bool_decide as Hin.
    + right. split; [reflexivity|]. eauto.
    + left. split; [reflexivity|]. rewrite reserved_iff. intros Hr.
      destruct (F _ Hr) as (_ & Hdot & _).
      rewrite contains_upper_dot in Hdot.
      rewrite (split_absent _ _ Hdot) in Hs. injection Hs as <- _.
      contradiction.
Qed.

Lemma underscore_not_reserved s : ~ reserved (s +:+ "_").
Proof.
  pose proof reserved_names_shape as F. rewrite Forall_forall in F.
  rewrite reserved_iff. intros Hr.
  destruct (F _ Hr) as (_ & _ & Hus).
  rewrite upper_app, contains_app in Hus. simpl in Hus.
  rewrite orb_true_r in Hus. discriminate.
Qed.

Lemma sanitize_folder_name_safe folder_name :
  exists r, sanitize_folder_name folder_name = Ok r /\ ~ reserved r.
Proof.
  destruct (sanitize_folder_name_cases folder_name) as [[-> H]|[-> _]].
  - eauto.
  - eexists. split; [reflexivity|]. apply underscore_not_reserved.
Qed.

Lemma sanitize_folder_name_reserved folder_name :
  reserved folder_name -> sanitize_folder_name folder_name = Ok (folder_name +:+ "_").
Proof.
  intros Hr. destruct (sanitize_folder_name_cases folder_name) as [[_ H]|[-> _]].
  - contradiction.
  - reflexivity.
Qed.

(* ===================================================================== *)
(** ** The detectors return, and return sanitized names *)
(* ===================================================================== *)

Lemma bind_ok {A B : Type} (a : A) (k : A -> result B) : (x ← Ok a; k x) = k a.
Proof. reflexivity. Qed.

Lemma sanitized_bind candidate :
  sanitized_output (r ← sanitize_folder_name candidate; Ok (Some r)).
Proof.
  destruct (sanitize_folder_name_safe candidate) as (r & Hr & Hn).
  rewrite Hr, bind_ok. simpl. split; [eauto | assumption].
Qed.

Lemma extract_img_tag_sanitized filename : sanitized_output (extract_img_tag filename).
Proof.
  unfold extract_img_tag.
  destruct (search re_img_tag filename) as [m|] eqn:Hm; [|exact I].
  destruct (search_group_str _ _ _ 1%nat Hm eq_refl) as [g ->].
  rewrite bind_ok. apply sanitized_bind.
Qed.

Lemma detect_sequential_pattern_sanitized filename :
  sanitized_output (detect_sequential_pattern filename).
Proof.
  unfold detect_sequential_pattern.
  set (base := clean_stem _).
  destruct (rmatch re_seq_sep base) as [m|] eqn:H1.
  { destruct (rmatch_group_str _ _ _ 1%nat H1 eq_refl) as [g ->].
    rewrite bind_ok. apply sanitized_bind. }
  destruct (rmatch re_seq_nosep base) as [m|] eqn:H2.
  { destruct (rmatch_group_str _ _ _ 1%nat H2 eq_refl) as [g ->].
    rewrite bind_ok. apply sanitized_bind. }
  destruct (rmatch re_seq_numeric base) as [m|] eqn:H3; [|exact I].
  destruct (group m 1) as [g|]; [|exact I].
  apply sanitized_bind.
Qed.

Lemma detect_folder_name_sanitized filename :
  sanitized_output (detect_folder_name filename).
Proof.
  unfold detect_folder_name.
  set (base := rstrip " _-." _).
  destruct (match search re_tail_number base with
            | Some m => _ | None => _ end) as [pre delim].
  unfold folder_of_parts.
  assert (Hfinal : forall folder : option string,
             sanitized_output
               match truthy folder with
               | Some f => r ← sanitize_folder_name (rstrip " ." f); Ok (Some r)
               | None => Ok None
               end).
  { intros folder. destruct (truthy folder); [apply sanitized_bind | exact I]. }
  destruct (contains "_" pre && negb (contains "-" pre)); [rewrite bind_ok; apply Hfinal|].
  destruct (contains "-" pre && negb (contains "_" pre)); [rewrite bind_ok; apply Hfinal|].
  destruct (contains "-" pre && contains "_" pre); [rewrite bind_ok; apply Hfinal|].
  destruct (rmatch re_simple pre) as [m|] eqn:Hm; [|rewrite bind_ok; apply Hfinal].
  destruct (rmatch_group_str _ _ _ 1%nat Hm eq_refl) as [g ->].
  rewrite !bind_ok. apply Hfinal.
Qed.

Lemma sanitized_output_returns res : sanitized_output res -> returns res.
Proof. destruct res as [[r|]|e]; simpl; [eexists; reflexivity..|contradiction]. Qed.

Lemma dict_get_has {V : Type} (d : gmap string V) k :
  dict_has d k = true -> exists v, dict_get d k = Ok v /\ d !! k = Some v.
Proof.
  unfold dict_has, dict_get. intros H. apply bool_decide_eq_true in H as [v Hv].
  rewrite Hv. eauto.
Qed.

Lemma dict_has_false {V : Type} (d : gmap string V) k :
  dict_has d k = false -> d !! k = None.
Proof.
  unfold dict_has. intros H. apply bool_decide_eq_false in H.
  destruct (d !! k) eqn:E; [|reflexivity]. exfalso. apply H. eauto.
Qed.

Lemma predict_returns patterns filename :
  predict patterns filename =
    Ok (match patterns !! extract_signature filename with
        | Some pattern => Some (p_folder pattern, learned_confidence (p_count pattern))
        | None => None
        end).
Proof.
  unfold predict. destruct (dict_has patterns _) eqn:H.
  - apply dict_get_has in H as (v & -> & ->). reflexivity.
  - apply dict_has_false in H as ->. reflexivity.
Qed.

Lemma detect_returns patterns filename : returns (detect patterns filename).
Proof.
  unfold detect. rewrite predict_returns, bind_ok.
  destruct (patterns !! _) as [pattern|]; [eexists; reflexivity|].
  pose proof (extract_img_tag_sanitized filename) as H1.
  destruct (extract_img_tag filename) as [tag|]; [|contradiction]. rewrite bind_ok.
  destruct (truthy tag); [eexists; reflexivity|].
  pose proof (detect_sequential_pattern_sanitized filename) as H2.
  destruct (detect_sequential_pattern filename) as [sq|]; [|contradiction]. rewrite bind_ok.
  destruct (truthy sq); [eexists; reflexivity|].
  pose proof (detect_folder_name_sanitized filename) as H3.
  destruct (detect_folder_name filename) as [sm|]; [|contradiction]. rewrite bind_ok.
  destruct (truthy sm); eexists; reflexivity.
Qed.

(* ===================================================================== *)
(** ** Reserved-name sanitization *)
(* ===================================================================== *)

(** C3. [sanitize_folder_name] returns for every input, and never a name
    equal to a reserved device name up to case; a reserved candidate gets
    one trailing underscore; a folder returned by [detect_folder_name],
    [detect_sequential_pattern] or [extract_img_tag] is the result of
    [sanitize_folder_name] and so is not reserved either. *)
Theorem sanitize_reserved_name_invariant (s : string) :
  (exists r, sanitize_folder_name s = Ok r /\ ~ reserved r)
  /\ (reserved s -> sanitize_folder_name s = Ok (s +:+ "_"))
  /\ sanitized_output (detect_folder_name s)
  /\ sanitized_output (detect_sequential_pattern s)
  /\ sanitized_output (extract_img_tag s).
Proof.
  split; [apply sanitize_folder_name_safe|].
  split; [apply sanitize_folder_name_reserved|].
  split; [apply detect_folder_name_sanitized|].
  split; [apply detect_sequential_pattern_sanitized|].
  apply extract_img_tag_sanitized.
Qed.

Lemma sanitize_reserved_name_invariant_witness :
  reserved "con" /\ sanitize_folder_name "con" = Ok "con_".
Proof.
  assert (H : reserved "con").
  { exists "CON". split; [left | reflexivity]. }
  split; [exact H|].
  exact (proj1 (proj2 (sanitize_reserved_name_invariant "con")) H).
Defined.

(* ===================================================================== *)
(** ** Detection priority *)
(* ===================================================================== *)

(** C2. [detect] takes the first hit in the order learned pattern, camera
    tag (0.95), sequential pattern (0.90), smart pattern (0.80), and
    otherwise answers no folder, 0.0, "No Pattern"; "IMG_1234.jpg" without
    a learned pattern for its signature gives "IMG", 0.95, "Camera Tag",
    although the sequence detector matches it too. *)
Theorem detect_priority (patterns : gmap string learned_pattern) (filename : string) :
  (forall folder confidence,
      predict patterns filename = Ok (Some (folder, confidence)) ->
      detect patterns filename = Ok (Some folder, confidence, "Learned Pattern"))
  /\ (forall tag,
      predict patterns filename = Ok None ->
      hit (extract_img_tag filename) tag ->
      detect patterns filename = Ok (Some tag, 0.95%Q, "Camera Tag"))
  /\ (forall folder,
      predict patterns filename = Ok None ->
      miss (extract_img_tag filename) ->
      hit (detect_sequential_pattern filename) folder ->
      detect patterns filename = Ok (Some folder, 0.90%Q, "Sequential Pattern"))
  /\ (forall folder,
      predict patterns filename = Ok None ->
      miss (extract_img_tag filename) ->
      miss (detect_sequential_pattern filename) ->
      hit (detect_folder_name filename) folder ->
      detect patterns filename = Ok (Some folder, 0.80%Q, "Smart Pattern"))
  /\ (predict patterns filename = Ok None ->
      miss (extract_img_tag filename) ->
      miss (detect_sequential_pattern filename) ->
      miss (detect_folder_name filename) ->
      detect patterns filename = Ok (None, 0.0%Q, "No Pattern"))
  /\ (patterns !! extract_signature "IMG_1234.jpg" = None ->
      detect patterns "IMG_1234.jpg" = Ok (Some "IMG", 0.95%Q, "Camera Tag")
      /\ hit (detect_sequential_pattern "IMG_1234.jpg") "IMG").
Proof.
  unfold hit, miss, detect.
  split. { intros folder confidence ->. reflexivity. }
  split. { intros tag -> (o & -> & Ht). rewrite !bind_ok, Ht. reflexivity. }
  split.
  { intros folder -> (o1 & -> & H1) (o2 & -> & H2). rewrite !bind_ok, H1, H2. reflexivity. }
  split.
  { intros folder -> (o1 & -> & H1) (o2 & -> & H2) (o3 & -> & H3).
    rewrite !bind_ok, H1, H2, H3. reflexivity. }
  split.
  { intros -> (o1 & -> & H1) (o2 & -> & H2) (o3 & -> & H3).
    rewrite !bind_ok, H1, H2, H3. reflexivity. }
  intros H. split.
  - rewrite predict_returns, H, bind_ok.
    replace (extract_img_tag "IMG_1234.jpg") with (@Ok (option string) (Some "IMG"))
      by (vm_compute; reflexivity).
    reflexivity.
  - exists (Some "IMG"). split; vm_compute; reflexivity.
Qed.

Lemma detect_priority_witness :
  detect ∅ "IMG_1234.jpg" = Ok (Some "IMG", 0.95%Q, "Camera Tag")
  /\ detect ∅ "vacation-001.jpg" = Ok (Some "Vacation", 0.90%Q, "Sequential Pattern")
  /\ detect ∅ "name_set.txt" = Ok (Some "Name_Set", 0.80%Q, "Smart Pattern")
  /\ detect ∅ "readme" = Ok (None, 0.0%Q, "No Pattern")
  /\ detect {[ "IMG_NNNN" := Pattern "Phone" 2 None ]} "IMG_1234.jpg"
     = Ok (Some "Phone", learned_confidence 2, "Learned Pattern").
Proof.
  assert (Hnone : forall f, predict ∅ f = Ok None).
  { intros f. rewrite predict_returns, lookup_empty. reflexivity. }
  split; [|split; [|split; [|split]]].
  - apply (proj1 (proj2 (proj2 (proj2 (proj2 (proj2 (detect_priority ∅ "")))))
                   (lookup_empty _))).
  - apply (proj1 (proj2 (proj2 (detect_priority ∅ "vacation-001.jpg")))).
    + apply Hnone.
    + exists None. split; vm_compute; reflexivity.
    + exists (Some "Vacation"). split; vm_compute; reflexivity.
  - apply (proj1 (proj2 (proj2 (proj2 (detect_priority ∅ "name_set.txt"))))).
    + apply Hnone.
    + exists None. split; vm_compute; reflexivity.
    + exists None. split; vm_compute; reflexivity.
    + exists (Some "Name_Set"). split; vm_compute; reflexivity.
  - apply (proj1 (proj2 (proj2 (proj2 (proj2 (detect_priority ∅ "readme")))))).
    + apply Hnone.
    + exists None. split; vm_compute; reflexivity.
    + exists None. split; vm_compute; reflexivity.
    + exists None. split; vm_compute; reflexivity.
  - apply (proj1 (detect_priority _ "IMG_1234.jpg")).
    rewrite predict_returns.
    replace (extract_signature "IMG_1234.jpg") with "IMG_NNNN" by (vm_compute; reflexivity).
    rewrite lookup_singleton_eq. reflexivity.
Defined.

(* ===================================================================== *)
(** ** Learning and prediction *)
(* ===================================================================== *)

Lemma app_length_s a b : String.length (a +:+ b) = (String.length a + String.length b)%nat.
Proof. induction a as [|c a IH]; simpl; [reflexivity|]. rewrite IH. reflexivity. Qed.

Lemma alt_signature_fresh signature : signature +:+ "_ALT" <> signature.
Proof.
  intros H. apply (f_equal String.length) in H.
  rewrite app_length_s in H. simpl in H. lia.
Qed.

Lemma learn_new patterns filename folder :
  patterns !! extract_signature filename = None ->
  learn patterns filename folder
  = Ok (<[extract_signature filename := Pattern folder 1 (Some [filename])]> patterns).
Proof.
  intros H. unfold learn, dict_has. rewrite H.
  rewrite bool_decide_eq_false_2 by (intros [x Hx]; discriminate). reflexivity.
Qed.

Lemma learn_known patterns filename folder p :
  patterns !! extract_signature filename = Some p ->
  learn patterns filename folder
  = Ok (let signature := extract_signature filename in
        let examples := Some (last5 (default [] (p_examples p) ++ [filename])%list) in
        if String.eqb (p_folder p) folder then
          <[signature := Pattern (p_folder p) (p_count p + 1) examples]> patterns
        else if 3 <? p_count p then
          <[signature := Pattern (p_folder p) (p_count p) examples]>
            (<[signature +:+ "_ALT" := Pattern folder 1 (Some [filename])]> patterns)
        else <[signature := Pattern folder 1 examples]> patterns).
Proof.
  intros H. unfold learn, dict_has, dict_get. rewrite H.
  rewrite bool_decide_eq_true_2 by eauto. cbn [negb]. rewrite bind_ok.
  destruct (String.eqb (p_folder p) folder); [reflexivity|].
  destruct (3 <? p_count p); reflexivity.
Qed.

(** C5. [learn] creates an entry with count 1 for an unknown signature;
    increments the count when the folder agrees; on a different folder it
    adds an entry under signature+"_ALT" with count 1 and keeps folder and
    count of the original when the stored count exceeds 3, and otherwise
    overwrites the folder and resets the count to 1. *)
Theorem learn_update_rule (patterns : gmap string learned_pattern) (filename folder : string) :
  let signature := extract_signature filename in
  (patterns !! signature = None ->
     learn patterns filename folder
     = Ok (<[signature := Pattern folder 1 (Some [filename])]> patterns))
  /\ (forall p, patterns !! signature = Some p ->
      let examples := Some (last5 (default [] (p_examples p) ++ [filename])%list) in
      (p_folder p = folder ->
         learn patterns filename folder
         = Ok (<[signature := Pattern folder (p_count p + 1) examples]> patterns))
      /\ (p_folder p <> folder -> 3 < p_count p ->
          exists patterns',
            learn patterns filename folder = Ok patterns'
            /\ patterns' !! (signature +:+ "_ALT") = Some (Pattern folder 1 (Some [filename]))
            /\ patterns' !! signature = Some (Pattern (p_folder p) (p_count p) examples)
            /\ forall k, k <> signature -> k <> signature +:+ "_ALT" ->
                 patterns' !! k = patterns !! k)
      /\ (p_folder p <> folder -> p_count p <= 3 ->
          learn patterns filename folder
          = Ok (<[signature := Pattern folder 1 examples]> patterns))).
Proof.
  intros signature. split; [apply learn_new|].
  intros p Hp examples. rewrite (learn_known _ _ _ _ Hp). fold signature. fold examples.
  cbv zeta. split; [|split].
  - intros <-. rewrite String.eqb_refl. reflexivity.
  - intros Hne Hc. apply String.eqb_neq in Hne. rewrite Hne.
    apply Z.ltb_lt in Hc. rewrite Hc.
    eexists. split; [reflexivity|]. split; [|split].
    + rewrite lookup_insert_ne by (apply not_eq_sym, alt_signature_fresh).
      apply lookup_insert_eq.
    + apply lookup_insert_eq.
    + intros k H1 H2. rewrite !lookup_insert_ne by congruence. reflexivity.
  - intros Hne Hc. apply String.eqb_neq in Hne. rewrite Hne.
    apply Z.ltb_ge in Hc. rewrite Hc. reflexivity.
Qed.

Lemma learn_update_rule_witness :
  learn ∅ "vacation-001.jpg" "Trips"
  = Ok {[ "TEXT-NNN" := Pattern "Trips" 1 (Some ["vacation-001.jpg"]) ]}
  /\ learn {[ "TEXT-NNN" := Pattern "Trips" 1 (Some ["vacation-001.jpg"]) ]}
       "vacation-002.jpg" "Trips"
     = Ok (<[ "TEXT-NNN" := Pattern "Trips" 2 (Some ["vacation-001.jpg"; "vacation-002.jpg"]) ]>
             {[ "TEXT-NNN" := Pattern "Trips" 1 (Some ["vacation-001.jpg"]) ]})
  /\ (exists patterns',
        learn {[ "TEXT-NNN" := Pattern "Trips" 4 None ]} "photos-007.jpg" "Family" = Ok patterns'
        /\ patterns' !! "TEXT-NNN_ALT" = Some (Pattern "Family" 1 (Some ["photos-007.jpg"]))
        /\ patterns' !! "TEXT-NNN" = Some (Pattern "Trips" 4 (Some ["photos-007.jpg"])))
  /\ learn {[ "TEXT-NNN" := Pattern "Trips" 3 None ]} "photos-007.jpg" "Family"
     = Ok (<[ "TEXT-NNN" := Pattern "Family" 1 (Some ["photos-007.jpg"]) ]>
             {[ "TEXT-NNN" := Pattern "Trips" 3 None ]}).
Proof.
  split; [|split; [|split]].
  - exact (proj1 (learn_update_rule ∅ "vacation-001.jpg" "Trips") (lookup_empty _)).
  - assert (Hl : ({[ "TEXT-NNN" := Pattern "Trips" 1 (Some ["vacation-001.jpg"]) ]}
                   : gmap string learned_pattern) !! extract_signature "vacation-002.jpg"
                 = Some (Pattern "Trips" 1 (Some ["vacation-001.jpg"])))
      by (vm_compute; reflexivity).
    exact (proj1 (proj2 (learn_update_rule _ "vacation-002.jpg" "Trips") _ Hl) eq_refl).
  - assert (Hl : ({[ "TEXT-NNN" := Pattern "Trips" 4 None ]}
                   : gmap string learned_pattern) !! extract_signature "photos-007.jpg"
                 = Some (Pattern "Trips" 4 None))
      by (vm_compute; reflexivity).
    destruct (proj1 (proj2 (proj2 (learn_update_rule _ "photos-007.jpg" "Family") _ Hl)))
      as (patterns' & H1 & H2 & H3 & _).
    + discriminate.
    + reflexivity.
    + exists patterns'. split; [exact H1|]. split; [exact H2 | exact H3].
  - assert (Hl : ({[ "TEXT-NNN" := Pattern "Trips" 3 None ]}
                   : gmap string learned_pattern) !! extract_signature "photos-007.jpg"
                 = Some (Pattern "Trips" 3 None))
      by (vm_compute; reflexivity).
    refine (proj2 (proj2 (proj2 (learn_update_rule _ "photos-007.jpg" "Family") _ Hl)) _ _).
    + discriminate.
    + discriminate.
Defined.

Lemma learned_confidence_bounds count :
  (learned_confidence count <= 0.99)%Q
  /\ (1 <= count -> (0.83 <= learned_confidence count)%Q)
  /\ (7 <= count -> (learned_confidence count == 0.99)%Q).
Proof.
  unfold learned_confidence. split; [apply Q.le_min_l|]. split.
  - intros H. apply Q.min_glb; [lra|].
    assert (inject_Z 1 <= inject_Z count)%Q by (rewrite <- Zle_Qle; assumption).
    change (inject_Z 1) with 1%Q in *. lra.
  - intros H. apply Q.min_l.
    assert (inject_Z 7 <= inject_Z count)%Q by (rewrite <- Zle_Qle; assumption).
    change (inject_Z 7) with 7%Q in *. lra.
Qed.

Lemma learned_confidence_mono count count' :
  count <= count' -> (learned_confidence count <= learned_confidence count')%Q.
Proof.
  intros H. unfold learned_confidence. apply Q.min_le_compat_l.
  assert (inject_Z count <= inject_Z count')%Q by (rewrite <- Zle_Qle; assumption).
  lra.
Qed.

(** C8 (as the code has it). For a stored signature [predict] returns the
    confidence min(0.99, 0.80 + count * 0.03).  On the first use of a newly
    learned signature (count = 1) this is 0.83, above the 0.80 of the smart
    pattern heuristic; it does not decrease when the count grows, is 0.99
    from count 7 on, and so stays below 1.0. *)
Theorem predict_confidence (patterns : gmap string learned_pattern) (filename : string)
    (p : learned_pattern) :
  patterns !! extract_signature filename = Some p ->
  let confidence := Qmin 0.99 (0.80 + inject_Z (p_count p) * 0.03) in
  predict patterns filename = Ok (Some (p_folder p, confidence))
  /\ (p_count p = 1 -> (confidence == 0.83)%Q)
  /\ (1 <= p_count p -> (0.80 < confidence)%Q)
  /\ (forall count', p_count p <= count' ->
        (confidence <= Qmin 0.99 (0.80 + inject_Z count' * 0.03))%Q)
  /\ (7 <= p_count p -> (confidence == 0.99)%Q)
  /\ (confidence < 1)%Q.
Proof.
  intros Hp confidence.
  destruct (learned_confidence_bounds (p_count p)) as (Hmax & Hmin & Hcap).
  pose proof (learned_confidence_mono (p_count p)) as Hmono.
  unfold learned_confidence in Hmax, Hmin, Hcap, Hmono. fold confidence in Hmax, Hmin, Hcap, Hmono.
  split; [rewrite predict_returns, Hp; reflexivity|].
  split; [intros H1; unfold confidence; rewrite H1; vm_compute; reflexivity|].
  split; [intros H; specialize (Hmin H); lra|].
  split; [exact Hmono|].
  split; [exact Hcap|].
  lra.
Qed.

Lemma predict_confidence_witness :
  predict {[ "TEXT-NNN" := Pattern "Trips" 1 None ]} "vacation-001.jpg"
  = Ok (Some ("Trips", Qmin 0.99 (0.80 + inject_Z 1 * 0.03)))
  /\ (Qmin 0.99 (0.80 + inject_Z 1 * 0.03) == 0.83)%Q.
Proof.
  assert (Hl : ({[ "TEXT-NNN" := Pattern "Trips" 1 None ]}
                 : gmap string learned_pattern) !! extract_signature "vacation-001.jpg"
               = Some (Pattern "Trips" 1 None))
    by (vm_compute; reflexivity).
  destruct (predict_confidence _ "vacation-001.jpg" _ Hl) as (H1 & H2 & _).
  split; [exact H1 | exact (H2 eq_refl)].
Defined.

(** the binary64 values agree with the rational ones to the hundredth:
    0.83 at count 1, 0.98 at count 6, the cap 0.99 from count 7 on *)
Lemma learned_confidence64_values :
  let conf := Binary64.learned_confidence64 in
  PrimFloat.eqb (conf 1) (Binary64.hundredths 80) = false
  /\ Binary64.near (conf 1) (Binary64.hundredths 83) = true
  /\ Binary64.near (conf 6) (Binary64.hundredths 98) = true
  /\ PrimFloat.eqb (conf 7) (Binary64.hundredths 99) = true
  /\ PrimFloat.eqb (conf 1000) (Binary64.hundredths 99) = true.
Proof. repeat split; vm_compute; reflexivity. Qed.

(** C8, as stated, fails: after a single [learn] the stored count is 1 and
    the predicted confidence is 0.83, not 0.80. *)
Lemma first_use_confidence_counterexample :
  exists patterns p c,
    learn ∅ "vacation-001.jpg" "Trips" = Ok patterns
    /\ patterns !! extract_signature "vacation-001.jpg" = Some p
    /\ p_count p = 1
    /\ predict patterns "vacation-001.jpg" = Ok (Some ("Trips", c))
    /\ (c == 0.83)%Q
    /\ ~ (c == 0.80)%Q.
Proof.
  eexists. exists (Pattern "Trips" 1 (Some ["vacation-001.jpg"])). eexists.
  split; [apply learn_new, lookup_empty|].
  split; [apply lookup_insert_eq|].
  split; [reflexivity|].
  split; [rewrite predict_returns, lookup_insert_eq; reflexivity|].
  split; [reflexivity|].
  intros H. vm_compute in H. discriminate.
Qed.

(* ===================================================================== *)
(** ** Totality of the detectors *)
(* ===================================================================== *)

(** C9. Every detection function returns for every file name, without an
    exception: [detect], [detect_folder_name], [detect_sequential_pattern],
    [extract_img_tag], [extract_signature] and [predict]; this covers the
    empty name, names of punctuation only and names without extension. *)
Theorem detectors_total (patterns : gmap string learned_pattern) (filename : string) :
  returns (detect patterns filename)
  /\ returns (detect_folder_name filename)
  /\ returns (detect_sequential_pattern filename)
  /\ returns (extract_img_tag filename)
  /\ (exists signature, extract_signature filename = signature)
  /\ returns (predict patterns filename)
  /\ detect ∅ "" = Ok (None, 0.0%Q, "No Pattern")
  /\ detect ∅ "-_.()!" = Ok (None, 0.0%Q, "No Pattern")
  /\ detect ∅ "README" = Ok (None, 0.0%Q, "No Pattern")
  /\ extract_signature "" = "" /\ extract_signature "-_.()!" = "-_"
  /\ extract_signature "README" = "TEXT".
Proof.
  split; [apply detect_returns|].
  split; [apply sanitized_output_returns, detect_folder_name_sanitized|].
  split; [apply sanitized_output_returns, detect_sequential_pattern_sanitized|].
  split; [apply sanitized_output_returns, extract_img_tag_sanitized|].
  split; [eexists; reflexivity|].
  split; [rewrite predict_returns; eexists; reflexivity|].
  repeat split; vm_compute; reflexivity.
Qed.

(* ===================================================================== *)
(** ** Duplicate detection when the hash is not available *)
(* ===================================================================== *)

(** C10. When the file name already has rows in the table and the content
    of the file cannot be read, [compute_hash] gives [None] and
    [check_duplicate] answers (False, '') and leaves the table as it is. *)
Theorem check_duplicate_unreadable (read_file : string -> read_outcome)
    (md5_hexdigest : string -> string) (now : string)
    (db : list hash_row) (filename : string) (size : Z) (filepath : string) :
  select_size_hash db filename <> [] ->
  (forall bytes, read_file filepath <> Content bytes) ->
  compute_hash read_file md5_hexdigest filepath = None
  /\ check_duplicate read_file md5_hexdigest now db filename size filepath
     = ((false, ""), db).
Proof.
  intros Hrows Hread.
  assert (Hhash : compute_hash read_file md5_hexdigest filepath = None).
  { unfold compute_hash. destruct (read_file filepath) as [bytes| | |]; try reflexivity.
    exfalso. exact (Hread bytes eq_refl). }
  split; [assumption|].
  unfold check_duplicate. rewrite Hhash.
  destruct (select_size_hash db filename); [contradiction|reflexivity].
Qed.

Lemma check_duplicate_unreadable_witness :
  let db := [HashRow "photo.jpg" 2048 "9e107d9d372bb6826bd81d3542a419d6" "/in/photo.jpg" "t0"] in
  check_duplicate (fun _ => FileNotFound) (fun bytes => bytes) "t1" db
    "photo.jpg" 2048 "/in/sub/photo.jpg"
  = ((false, ""), db).
Proof.
  intros db.
  refine (proj2 (check_duplicate_unreadable (fun _ => FileNotFound) (fun bytes => bytes)
                   "t1" db "photo.jpg" 2048 "/in/sub/photo.jpg" _ _)).
  - discriminate.
  - discriminate.
Defined.

(* ===================================================================== *)
(** ** Gap detection *)
(* ===================================================================== *)

Lemma StronglySorted_seqZ m n : StronglySorted Z.lt (seqZ m n).
Proof.
  remember (Z.to_nat n) as k eqn:Hk. revert m n Hk.
  induction k as [|k IH]; intros m n Hk.
  - rewrite seqZ_nil by lia. constructor.
  - rewrite seqZ_cons by lia. constructor.
    + apply IH. lia.
    + apply Forall_seqZ. intros x Hx. lia.
Qed.

Lemma StronglySorted_filter_list {A} (R : relation A) (P : A -> Prop)
    `{forall x, Decision (P x)} (l : list A) :
  StronglySorted R l -> StronglySorted R (filter P l).
Proof.
  induction 1 as [|a l Hs IH Hall]; [constructor|].
  rewrite filter_cons. destruct (decide (P a)); [|assumption].
  constructor; [assumption|].
  apply Forall_forall. intros x Hx. apply list_elem_of_filter in Hx as [_ Hx].
  rewrite Forall_forall in Hall. apply Hall. assumption.
Qed.

(** the ends of a sorted list are its least and its greatest element *)
Lemma sorted_first (l : list Z) x :
  StronglySorted Z.le l -> index l 0 = Ok x -> x ∈ l /\ forall n, n ∈ l -> x <= n.
Proof.
  intros Hs Hi. destruct l as [|a l]; [discriminate|].
  injection Hi as ->. apply StronglySorted_inv in Hs as [_ Hall].
  rewrite Forall_forall in Hall.
  split; [left|]. intros n Hn. apply elem_of_cons in Hn as [->|Hn]; [lia|auto].
Qed.

Lemma sorted_last (l : list Z) x :
  StronglySorted Z.le l -> index_last l = Ok x -> x ∈ l /\ forall n, n ∈ l -> n <= x.
Proof.
  unfold index_last. intros Hs. revert x.
  induction Hs as [|a l Hs IH Hall]; intros x Hi; [discriminate|].
  rewrite Forall_forall in Hall. simpl in Hi.
  destruct (List.rev l) as [|y r] eqn:Hr.
  - assert (l = []) as -> by (apply (f_equal (@List.rev Z)) in Hr; rewrite rev_involutive in Hr; exact Hr).
    injection Hi as ->. split; [left|].
    intros n Hn. apply elem_of_cons in Hn as [->|Hn]; [lia|inversion Hn].
  - simpl in Hi. injection Hi as ->. destruct (IH x eq_refl) as [Hin Hmax].
    split; [right; assumption|].
    intros n Hn. apply elem_of_cons in Hn as [->|Hn]; [auto|auto].
Qed.

Lemma index_last_nonempty {A} (l : list A) : l <> [] -> exists x, index_last l = Ok x.
Proof.
  intros Hne. unfold index_last. destruct (List.rev l) as [|x r] eqn:Hr; [|eauto].
  exfalso. apply Hne. apply (f_equal (@List.rev A)) in Hr.
  rewrite rev_involutive in Hr. exact Hr.
Qed.

(** C4. For a non-empty group [find_missing_files] returns, in ascending
    order, exactly the integers of the expected range that no file of the
    group carries; the range starts at 1 for a pure-numeric group and at
    the smallest present number otherwise, and ends at the largest present
    number.  {001.jpg, 002.jpg, 005.jpg} gives [3; 4] and
    {IMG_010.jpg, IMG_015.jpg} gives [11; 12; 13; 14]. *)
Theorem find_missing_files_rule (pd : pattern_data) :
  (pd_files pd <> [] ->
   exists missing first_num last_num,
     find_missing_files pd = Ok missing
     /\ (first_num ∈ numbers_of pd /\ forall n, n ∈ numbers_of pd -> first_num <= n)
     /\ (last_num ∈ numbers_of pd /\ forall n, n ∈ numbers_of pd -> n <= last_num)
     /\ (forall n, n ∈ missing <->
           (if pd_is_pure_numeric pd then 1 else first_num) <= n <= last_num
           /\ n ∉ numbers_of pd)
     /\ StronglySorted Z.lt missing)
  /\ (patterns ← detect_file_patterns (Some ["001.jpg"; "002.jpg"; "005.jpg"]);
      group ← dict_get patterns "PURE_NUMERIC_.jpg";
      missing ← find_missing_files group;
      Ok (pd_is_pure_numeric group, missing)) = Ok (true, [3; 4])
  /\ (patterns ← detect_file_patterns (Some ["IMG_010.jpg"; "IMG_015.jpg"]);
      group ← dict_get patterns "IMG__.jpg";
      missing ← find_missing_files group;
      Ok (pd_is_pure_numeric group, missing)) = Ok (false, [11; 12; 13; 14]).
Proof.
  split; [|split; vm_compute; reflexivity].
  intros Hne. unfold find_missing_files, numbers_of.
  destruct (pd_files pd) as [|f fs] eqn:Hf; [contradiction|]. clear Hne.
  set (l := snd <$> f :: fs).
  set (numbers := merge_sort Z.le l).
  assert (Hperm : numbers ≡ₚ l) by apply merge_sort_Permutation.
  assert (Hsorted : StronglySorted Z.le numbers).
  { apply StronglySorted_merge_sort; [intros x y z; lia|intros x y; lia]. }
  assert (Hnumbers : numbers <> []).
  { intros E. rewrite E in Hperm. apply Permutation_nil_l in Hperm. discriminate. }
  destruct numbers as [|a numbers'] eqn:Hn; [contradiction|].
  rewrite <- Hn in *.
  assert (Hfirst : index numbers 0 = Ok a) by (rewrite Hn; reflexivity).
  destruct (index_last_nonempty numbers Hnumbers) as [b Hlast].
  rewrite Hfirst, Hlast, !bind_ok.
  destruct (sorted_first _ _ Hsorted Hfirst) as [Ha1 Ha2].
  destruct (sorted_last _ _ Hsorted Hlast) as [Hb1 Hb2].
  eexists. exists a, b. split; [reflexivity|].
  split. { split; [rewrite <- Hperm; assumption|]. intros n Hin. apply Ha2. rewrite Hperm. assumption. }
  split. { split; [rewrite <- Hperm; assumption|]. intros n Hin. apply Hb2. rewrite Hperm. assumption. }
  split.
  - intros n. rewrite list_elem_of_filter, elem_of_seqZ, elem_of_list_to_set, Hperm.
    split; intros [H1 H2]; (split; [|lia || assumption]); lia || assumption.
  - apply StronglySorted_filter_list, StronglySorted_seqZ.
Qed.

Lemma find_missing_files_rule_witness :
  let pd := PatternData [("001.jpg", 1); ("005.jpg", 5); ("002.jpg", 2)] "" "" 3 ".jpg" true in
  pd_files pd <> []
  /\ exists missing first_num last_num,
       find_missing_files pd = Ok missing
       /\ (first_num ∈ numbers_of pd /\ forall n, n ∈ numbers_of pd -> first_num <= n)
       /\ (last_num ∈ numbers_of pd /\ forall n, n ∈ numbers_of pd -> n <= last_num)
       /\ (forall n, n ∈ missing <-> 1 <= n <= last_num /\ n ∉ numbers_of pd)
       /\ StronglySorted Z.lt missing.
Proof.
  intros pd. split; [discriminate|].
  apply (proj1 (find_missing_files_rule pd)). discriminate.
Defined.

(* ===================================================================== *)
(** ** Casing *)
(* ===================================================================== *)

Lemma smart_title_words text : smart_title text = join "_" (word_case <$> split "_" text).
Proof. reflexivity. Qed.

Lemma upper_c_us c : eqb_c "_" (upper_c c) = eqb_c "_" c.
Proof. each_char c. Qed.

Lemma lower_c_us c : eqb_c "_" (lower_c c) = eqb_c "_" c.
Proof. each_char c. Qed.

Lemma contains_lower_us s : contains "_" (lower s) = contains "_" s.
Proof.
  unfold contains, lower. induction s as [|c s IH]; cbn [smap sany]; [reflexivity|].
  rewrite IH, lower_c_us. reflexivity.
Qed.

Lemma contains_word_case_us w : contains "_" (word_case w) = contains "_" w.
Proof.
  unfold word_case. destruct (isupper w); [reflexivity|].
  destruct w as [|c w]; [reflexivity|].
  unfold capitalize. unfold contains at 1 2. cbn [sany].
  rewrite upper_c_us. f_equal. apply contains_lower_us.
Qed.

Lemma split_words sep s : Forall (fun w => contains sep w = false) (split sep s).
Proof.
  induction s as [|c s IH]; simpl; [repeat constructor|].
  destruct (eqb_c c sep) eqn:E.
  - constructor; [reflexivity | assumption].
  - destruct (split sep s) as [|w ws]; [repeat constructor; unfold contains; simpl;
      unfold eqb_c in *; rewrite Ascii.eqb_sym, E; reflexivity|].
    inversion IH as [|? ? Hw Hws]; subst. constructor; [|assumption].
    unfold contains in *. simpl. unfold eqb_c in *. rewrite Ascii.eqb_sym, E, Hw. reflexivity.
Qed.

Lemma split_app_word sep w s :
  contains sep w = false ->
  split sep (w +:+ String sep s) = w :: split sep s.
Proof.
  unfold contains. induction w as [|c w IH]; intros H.
  - simpl. unfold eqb_c. rewrite Ascii.eqb_refl. reflexivity.
  - simpl in H. apply orb_false_iff in H as [Hc Hw].
    change (String c w +:+ String sep s) with (String c (w +:+ String sep s)).
    cbn [split]. unfold eqb_c in *. rewrite Ascii.eqb_sym, Hc.
    rewrite (IH Hw). reflexivity.
Qed.

Lemma split_join sep ws :
  ws <> [] -> Forall (fun w => contains sep w = false) ws ->
  split sep (join (String sep "") ws) = ws.
Proof.
  intros Hne H. induction H as [|w ws Hw Hws IH]; [contradiction|].
  destruct ws as [|w' ws'].
  - simpl. apply split_absent. assumption.
  - change (join (String sep "") (w :: w' :: ws'))
      with (w +:+ String sep (join (String sep "") (w' :: ws'))).
    rewrite split_app_word by assumption. f_equal. apply IH. discriminate.
Qed.

(** C7 (as the code has it). [smart_title] cases each underscore-separated
    word on its own, and the sequence detector cases the base it matched
    the same way: a word that is entirely uppercase is kept, and any other
    word has its first character uppercased and all the others lowercased.
    "DSLR" stays "DSLR", "film" becomes "Film", "fooBAR" becomes "Foobar". *)
Theorem casing_transform (text : string) :
  split "_" (smart_title text) = word_case <$> split "_" text
  /\ (forall w, isupper w = true -> word_case w = w)
  /\ (forall c w, isupper (String c w) = false ->
        word_case (String c w) = String (upper_c c) (lower w))
  /\ (forall m base_name,
        (rmatch re_seq_sep (clean_stem text) = Some m
         \/ rmatch re_seq_sep (clean_stem text) = None
            /\ rmatch re_seq_nosep (clean_stem text) = Some m) ->
        group m 1 = Some base_name ->
        detect_sequential_pattern text
        = (r ← sanitize_folder_name (word_case base_name); Ok (Some r)))
  /\ smart_title "DSLR" = "DSLR" /\ smart_title "film" = "Film"
  /\ smart_title "fooBAR" = "Foobar" /\ smart_title "fooBAR_DSLR_film" = "Foobar_DSLR_Film"
  /\ detect_sequential_pattern "DSLR_01.jpg" = Ok (Some "DSLR")
  /\ detect_sequential_pattern "film-01.jpg" = Ok (Some "Film")
  /\ detect_sequential_pattern "fooBAR01.jpg" = Ok (Some "Foobar").
Proof.
  split.
  { rewrite smart_title_words. apply split_join.
    - destruct (split_nonempty "_" text) as (w & ws & ->). discriminate.
    - apply Forall_fmap. eapply Forall_impl; [apply split_words|].
      intros w Hw. simpl. rewrite contains_word_case_us. exact Hw. }
  split. { intros w H. unfold word_case. rewrite H. reflexivity. }
  split. { intros c w H. unfold word_case. rewrite H. reflexivity. }
  split.
  { intros m base_name Hm Hg. unfold detect_sequential_pattern, group_str.
    destruct Hm as [->|[-> ->]]; rewrite Hg, bind_ok; reflexivity. }
  repeat split; vm_compute; reflexivity.
Qed.

Lemma casing_transform_witness :
  isupper "DSLR" = true /\ word_case "DSLR" = "DSLR"
  /\ isupper "fooBAR" = false /\ word_case "fooBAR" = "Foobar"
  /\ detect_sequential_pattern "fooBAR-12.jpg" = Ok (Some "Foobar").
Proof.
  pose proof (casing_transform "fooBAR-12.jpg") as (_ & Hup & Hmixed & Hseq & _).
  split; [reflexivity|]. split; [exact (Hup "DSLR" eq_refl)|].
  split; [reflexivity|]. split; [exact (Hmixed "f"%char "ooBAR" eq_refl)|].
  destruct (rmatch re_seq_sep (clean_stem "fooBAR-12.jpg")) as [m|] eqn:Hm;
    [|vm_compute in Hm; discriminate].
  rewrite (Hseq m "fooBAR" (or_introl eq_refl)).
  - vm_compute. reflexivity.
  - vm_compute in Hm. injection Hm as <-. vm_compute. reflexivity.
Defined.

(** C7, as stated, fails: the characters after the first are lowercased,
    so "fooBAR" becomes "Foobar" and not "FooBAR". *)
Lemma casing_rest_unchanged_counterexample :
  isupper "fooBAR" = false
  /\ smart_title "fooBAR" = "Foobar"
  /\ smart_title "fooBAR" <> "FooBAR"
  /\ detect_sequential_pattern "fooBAR-12.jpg" = Ok (Some "Foobar")
  /\ detect_sequential_pattern "fooBAR-12.jpg" <> Ok (Some "FooBAR").
Proof. repeat split; vm_compute; (reflexivity || discriminate). Qed.

(* ===================================================================== *)
(** ** Cross-delimiter tagging *)
(* ===================================================================== *)

Lemma los_app a b : los (a +:+ b) = (los a ++ los b)%list.
Proof. induction a as [|c a IH]; simpl; [reflexivity|]. rewrite IH. reflexivity. Qed.

Lemma los_length s : length (los s) = String.length s.
Proof. induction s as [|c s IH]; simpl; [reflexivity|]. rewrite IH. reflexivity. Qed.

Lemma all_ascii_complete c : In c all_ascii.
Proof.
  unfold all_ascii. rewrite <- (ascii_nat_embedding c).
  apply in_map, in_seq. pose proof (nat_ascii_bounded c). lia.
Qed.

Lemma subclass_spec q p c : subclass q p = true -> q c = true -> p c = true.
Proof.
  unfold subclass. rewrite forallb_forall. intros H Hq.
  specialize (H c (all_ascii_complete c)). rewrite Hq in H. exact H.
Qed.

Section Consumes.

Variable txt : list ascii.

Variable p : ascii -> bool.

Lemma run_consumes r :
  forall i caps k res,
    run txt r i caps k = Some res ->
    exists j caps', k j caps' = Some res /\ (i <= j)%nat
                    /\ (requires p r = true -> has_between txt p i j).
Proof.
  induction r as [ | q | r1 IH1 r2 IH2 | r1 IH1 r2 IH2 | r1 IH1 | r1 IH1
                 | g r1 IH1 | | | r1 IH1 | q ]; intros i caps k res H; cbn [run] in H.
  - exists i, caps. split; [assumption|]. split; [lia|discriminate].
  - destruct (nth_error txt i) as [c|] eqn:Hc; [|discriminate].
    destruct (q c) eqn:Hq; [|discriminate].
    exists (S i), caps. split; [assumption|]. split; [lia|].
    cbn [requires]. intros Hsub. exists i, c. split; [lia|]. split; [assumption|].
    eapply subclass_spec; eassumption.
  - apply IH1 in H as (j1 & c1 & H & L1 & R1).
    apply IH2 in H as (j2 & c2 & H & L2 & R2).
    exists j2, c2. split; [assumption|]. split; [lia|].
    cbn [requires]. intros Hr. apply orb_true_iff in Hr as [Hr|Hr].
    + destruct (R1 Hr) as (x & c & Hx & Hn & Hp). exists x, c. split; [lia|auto].
    + destruct (R2 Hr) as (x & c & Hx & Hn & Hp). exists x, c. split; [lia|auto].
  - cbn [requires].
    destruct (run txt r1 i caps k) as [res1|] eqn:H1.
    + injection H as ->. apply IH1 in H1 as (j & c & H1 & L & R).
      exists j, c. split; [assumption|]. split; [assumption|].
      intros Hr. apply andb_true_iff in Hr as [Hr _]. auto.
    + apply IH2 in H as (j & c & H & L & R).
      exists j, c. split; [assumption|]. split; [assumption|].
      intros Hr. apply andb_true_iff in Hr as [_ Hr]. auto.
  - revert H. generalize (length txt - i)%nat as n. intros n. revert i caps.
    induction n as [|n IHn]; intros i caps H; cbn [star_loop] in H.
    + exists i, caps. split; [assumption|]. split; [lia|discriminate].
    + match type of H with
      | match ?scrut with _ => _ end = _ => destruct scrut as [res1|] eqn:H1
      end.
      * injection H as ->. apply IH1 in H1 as (j & c & H1 & L & _).
        destruct (Nat.ltb i j); [|discriminate].
        apply IHn in H1 as (j' & c' & H1 & L' & _).
        exists j', c'. split; [assumption|]. split; [lia|discriminate].
      * exists i, caps. split; [assumption|]. split; [lia|discriminate].
  - revert H. generalize (length txt - i)%nat as n. intros n. revert i caps.
    induction n as [|n IHn]; intros i caps H; cbn [lazy_loop] in H.
    + destruct (k i caps) as [res1|] eqn:Hk; [|discriminate].
      exists i, caps. split; [congruence|]. split; [lia|discriminate].
    + destruct (k i caps) as [res1|] eqn:Hk.
      * exists i, caps. split; [congruence|]. split; [lia|discriminate].
      * apply IH1 in H as (j & c & H & L & _).
        destruct (Nat.ltb i j); [|discriminate].
        apply IHn in H as (j' & c' & H & L' & _).
        exists j', c'. split; [assumption|]. split; [lia|discriminate].
  - apply IH1 in H as (j & c & H & L & R).
    exists j, ((g, (i, j)) :: c). split; [assumption|]. split; [assumption|].
    cbn [requires]. exact R.
  - destruct (Nat.eqb i 0); [|discriminate].
    exists i, caps. split; [assumption|]. split; [lia|discriminate].
  - destruct (at_end txt i); [|discriminate].
    exists i, caps. split; [assumption|]. split; [lia|discriminate].
  - destruct (run txt r1 i caps (fun j c => Some (j, c))) as [[j c]|] eqn:H1; [|discriminate].
    exists i, c. split; [assumption|]. split; [lia|discriminate].
  - destruct i as [|i']; [discriminate|].
    destruct (nth_error txt i') as [c|]; [|discriminate].
    destruct (q c); [|discriminate].
    exists (S i'), caps. split; [assumption|]. split; [lia|discriminate].
Qed.

(** a text without any character of a class that [r] requires has no
    match of [r] *)
Lemma match_at_absent r i :
  Forall (fun c => p c = false) txt -> requires p r = true -> match_at txt r i = None.
Proof.
  intros Habs Hreq. unfold match_at.
  destruct (run txt r i [] (fun j c => Some (j, c))) as [res|] eqn:H; [|reflexivity].
  apply run_consumes in H as (j & c & _ & _ & R).
  destruct (R Hreq) as (x & d & _ & Hn & Hp).
  rewrite Forall_forall in Habs. apply nth_error_In in Hn.
  rewrite (Habs d) in Hp; [discriminate|]. apply list_elem_of_In. assumption.
Qed.

Lemma scan_none r fuel :
  forall i, (forall j, match_at txt r j = None) -> scan txt r fuel i = None.
Proof.
  induction fuel as [|fuel IH]; intros i H; cbn [scan]; rewrite H; [reflexivity|].
  apply IH. assumption.
Qed.

Lemma remove_all_none r fuel :
  (forall j, match_at txt r j = None) -> remove_all txt r fuel 0 = txt.
Proof.
  intros H. destruct fuel as [|fuel]; cbn [remove_all]; [reflexivity|].
  rewrite scan_none by assumption. reflexivity.
Qed.

(** the first match at or after [i], when the positions before it fail *)
Lemma scan_first r a res fuel :
  forall i, (i <= a)%nat -> (a - i <= fuel)%nat ->
    (forall j, (i <= j < a)%nat -> match_at txt r j = None) ->
    match_at txt r a = Some res ->
    scan txt r fuel i = Some (a, res).
Proof.
  induction fuel as [|fuel IH]; intros i Hia Hfuel Hnone Hmatch; cbn [scan].
  - assert (i = a) as -> by lia. rewrite Hmatch. reflexivity.
  - destruct (Nat.eq_dec i a) as [->|Hne].
    + rewrite Hmatch. reflexivity.
    + rewrite Hnone by lia. apply IH; [lia|lia| |assumption].
      intros j Hj. apply Hnone. lia.
Qed.

End Consumes.

Section Suffix.

Variable txt : list ascii.

(** a greedy loop over a class takes the whole rest of the text when all
    of it is in the class and the continuation accepts the end *)
Lemma star_chr_to_end p (k : cont) res caps n :
  forall i,
    (forall x, (i <= x < length txt)%nat -> exists c, nth_error txt x = Some c /\ p c = true) ->
    (i <= length txt)%nat -> (length txt - i <= n)%nat ->
    k (length txt) caps = Some res ->
    star_loop (run txt (Chr p)) k n i caps = Some res.
Proof.
  induction n as [|n IH]; intros i Hall Hi Hn Hk; cbn [star_loop].
  - assert (i = length txt) as -> by lia. assumption.
  - cbn [run]. destruct (Nat.eq_dec i (length txt)) as [->|Hne].
    + rewrite (proj2 (nth_error_None txt (length txt))) by lia. assumption.
    + destruct (Hall i) as (c & -> & ->); [lia|].
      rewrite (proj2 (Nat.ltb_lt i (S i))) by lia.
      rewrite IH; [reflexivity| |lia|lia|assumption].
      intros x Hx. apply Hall. lia.
Qed.

Lemma at_end_length : at_end txt (length txt) = true.
Proof. unfold at_end. rewrite Nat.eqb_refl. reflexivity. Qed.

Lemma seq_suffix_match a sep :
  nth_error txt a = Some sep -> dash_us sep = true ->
  (forall x, (S a <= x < length txt)%nat ->
     exists c, nth_error txt x = Some c /\ isdigit_c c = true) ->
  (S a < length txt)%nat ->
  match_at txt re_seq_suffix (S a) = Some (length txt, []).
Proof.
  intros Hsep Hd Hdigits Hlen.
  unfold match_at, re_seq_suffix, Plus, Opt, digit, letter. cbn [run].
  rewrite Hsep, Hd.
  destruct (Hdigits (S a)) as (c & -> & ->); [lia|].
  apply star_chr_to_end.
  - intros x Hx. apply Hdigits. lia.
  - lia.
  - lia.
  - cbn [run]. rewrite (proj2 (nth_error_None txt (length txt))) by lia.
    rewrite at_end_length. reflexivity.
Qed.

Lemma seq_suffix_nodigit i :
  (forall c, nth_error txt i = Some c -> isdigit_c c = false) ->
  match_at txt re_seq_suffix i = None.
Proof.
  intros H. unfold match_at, re_seq_suffix, Plus, Opt, digit, letter. cbn [run].
  destruct i as [|i']; [reflexivity|].
  destruct (nth_error txt i') as [b|]; [|reflexivity].
  destruct (dash_us b); [|reflexivity].
  destruct (nth_error txt (S i')) as [c|]; [|reflexivity].
  rewrite (H c eq_refl). reflexivity.
Qed.

Lemma seq_suffix_nobehind i c :
  nth_error txt i = Some c -> dash_us c = false ->
  match_at txt re_seq_suffix (S i) = None.
Proof.
  intros H Hc. unfold match_at, re_seq_suffix. cbn [run]. rewrite H, Hc. reflexivity.
Qed.

End Suffix.

Lemma dash_us_not_digit c : dash_us c = true -> isdigit_c c = false.
Proof. each_char c. Qed.

Lemma isdigit_not_dash_us c : isdigit_c c = true -> dash_us c = false.
Proof. each_char c. Qed.

Lemma remove_all_at_end txt r fuel :
  match_at txt r (length txt) = None -> remove_all txt r fuel (length txt) = [].
Proof.
  intros H. destruct fuel as [|fuel]; cbn [remove_all]; [apply drop_ge; lia|].
  rewrite Nat.sub_diag. cbn [scan]. rewrite H. apply drop_ge. lia.
Qed.

(** removing the sequence number from [front ++ sep :: ds] leaves
    [front ++ [sep]], when no match starts in [front] or at [sep] *)
Lemma seq_suffix_remove front sep ds :
  let txt := (front ++ sep :: ds)%list in
  (forall i, (i <= length front)%nat -> match_at txt re_seq_suffix i = None) ->
  dash_us sep = true -> ds <> [] -> Forall (fun c => isdigit_c c = true) ds ->
  remove_all txt re_seq_suffix (S (length txt)) 0 = (front ++ [sep])%list.
Proof.
  intros txt Hnone Hsep Hne Hds.
  assert (Hlen : length txt = (length front + S (length ds))%nat).
  { unfold txt. rewrite length_app. reflexivity. }
  assert (Hdl : (0 < length ds)%nat) by (destruct ds; [contradiction|simpl; lia]).
  assert (Hdigits : forall x, (S (length front) <= x < length txt)%nat ->
             exists c, nth_error txt x = Some c /\ isdigit_c c = true).
  { intros x Hx. unfold txt.
    rewrite nth_error_app2 by lia.
    replace (x - length front)%nat with (S (x - S (length front))) by lia.
    cbn [nth_error].
    destruct (nth_error ds (x - S (length front))) as [c|] eqn:Hc.
    - exists c. split; [reflexivity|]. rewrite Forall_forall in Hds.
      apply Hds. apply list_elem_of_In. eapply nth_error_In. eassumption.
    - apply nth_error_None in Hc. lia. }
  assert (Hm : match_at txt re_seq_suffix (S (length front)) = Some (length txt, [])).
  { apply (seq_suffix_match txt (length front) sep); [|assumption|assumption|lia].
    unfold txt. rewrite nth_error_app2 by lia. rewrite Nat.sub_diag. reflexivity. }
  cbn [remove_all].
  rewrite (scan_first txt re_seq_suffix (S (length front)) (length txt, []));
    [|lia|lia|intros j Hj; apply Hnone; lia|assumption].
  rewrite (proj2 (Nat.ltb_lt (S (length front)) (length txt))) by lia.
  rewrite remove_all_at_end.
  2: { apply seq_suffix_nodigit. intros c Hc.
       pose proof (proj2 (nth_error_None txt (length txt)) (le_n _)). congruence. }
  rewrite app_nil_r, drop_0, Nat.sub_0_r.
  unfold txt. change (S (length front)) with (1 + length front)%nat.
  rewrite Nat.add_comm, take_app_add. reflexivity.
Qed.

(* ------------------------------------------------------------------ *)
(* strings and classes *)
Lemma sall_los p s : sall p s = true <-> Forall (fun c => p c = true) (los s).
Proof.
  induction s as [|c s IH]; simpl.
  - split; [constructor|reflexivity].
  - rewrite andb_true_iff, Forall_cons, IH. reflexivity.
Qed.

Lemma sall_app p a b : sall p (a +:+ b) = sall p a && sall p b.
Proof. induction a as [|c a IH]; simpl; [reflexivity|]. rewrite IH, andb_assoc. reflexivity. Qed.

Lemma sany_app p a b : sany p (a +:+ b) = sany p a || sany p b.
Proof. induction a as [|c a IH]; simpl; [reflexivity|]. rewrite IH, orb_assoc. reflexivity. Qed.

Lemma sall_impl (p q : ascii -> bool) s :
  (forall c, p c = true -> q c = true) -> sall p s = true -> sall q s = true.
Proof.
  intros H. induction s as [|c s IH]; simpl; [reflexivity|].
  rewrite !andb_true_iff. intros [Hc Hs]. auto.
Qed.

Lemma sall_not_sany p q s :
  (forall c, p c = true -> q c = false) -> sall p s = true -> sany q s = false.
Proof.
  intros H. induction s as [|c s IH]; simpl; [reflexivity|].
  rewrite andb_true_iff. intros [Hc Hs]. rewrite (H c Hc), (IH Hs). reflexivity.
Qed.

Lemma sany_false_los q s : sany q s = false -> Forall (fun c => q c = false) (los s).
Proof.
  induction s as [|c s IH]; simpl; [constructor|].
  rewrite orb_false_iff. intros [Hc Hs]. constructor; auto.
Qed.

Lemma stem_char_plain c :
  stem_char c = true ->
  eqb_c "." c = false /\ eqb_c "(" c = false /\ mem_c c " ." = false.
Proof. each_char c. all: repeat split. Qed.

Lemma name_char_not_digit c : name_char c = true -> isdigit_c c = false.
Proof. each_char c. Qed.

Lemma isalpha_not_stripped c : isalpha_c c = true -> mem_c c " _-." = false.
Proof. each_char c. Qed.

Lemma name_char_upper c : name_char (upper_c c) = name_char c.
Proof. each_char c. Qed.

Lemma name_char_lower c : name_char (lower_c c) = name_char c.
Proof. each_char c. Qed.

Lemma dash_us_upper c : dash_us (upper_c c) = dash_us c.
Proof. each_char c. Qed.

(** [rfind] and [splitext] *)
Lemma rfind_from_absent c s i found : contains c s = false -> rfind_from c s i found = found.
Proof.
  unfold contains. revert i found. induction s as [|d s IH]; intros i found H; simpl; [reflexivity|].
  simpl in H. apply orb_false_iff in H as [Hd Hs].
  unfold eqb_c in *. rewrite Ascii.eqb_sym, Hd. apply IH. assumption.
Qed.

Lemma rfind_from_lower c s lo :
  forall i found, (lo <= found)%Z -> (lo <= i)%Z -> (lo <= rfind_from c s i found)%Z.
Proof.
  induction s as [|d s IH]; intros i found Hf Hi; simpl; [assumption|].
  apply IH; [destruct (eqb_c d c); assumption | lia].
Qed.

Lemma splitext_no_dot s : contains "." s = false -> Path.splitext s = (s, "").
Proof.
  intros H. unfold Path.splitext, rfind. rewrite (rfind_from_absent "." s 0 (-1) H).
  pose proof (rfind_from_lower "/" s (-1) 0 (-1) ltac:(lia) ltac:(lia)) as Hlow.
  destruct (rfind_from "/" s 0 (-1) <? -1)%Z eqn:E; [|reflexivity].
  apply Z.ltb_lt in E. lia.
Qed.

(** [rstrip] *)
Lemma rstrip_all chars s : sall (fun c => mem_c c chars) s = true -> rstrip chars s = "".
Proof.
  induction s as [|c s IH]; simpl; [reflexivity|].
  rewrite andb_true_iff. intros [Hc Hs]. rewrite (IH Hs), Hc. reflexivity.
Qed.

Lemma rstrip_app chars a b :
  sall (fun c => mem_c c chars) b = true -> rstrip chars (a +:+ b) = rstrip chars a.
Proof.
  intros H. induction a as [|c a IH]; simpl; [apply rstrip_all; assumption|].
  rewrite IH. reflexivity.
Qed.

Lemma rstrip_ends chars s :
  ends_with (fun c => negb (mem_c c chars)) s = true -> rstrip chars s = s.
Proof.
  induction s as [|c s IH]; [discriminate|].
  destruct s as [|d s'].
  - simpl. intros H. apply negb_true_iff in H. rewrite H. reflexivity.
  - intros H. change (ends_with (fun c => negb (mem_c c chars)) (String d s') = true) in H.
    specialize (IH H). cbn [rstrip] in *. rewrite IH. reflexivity.
Qed.

Lemma ends_with_impl (p q : ascii -> bool) s :
  (forall c, p c = true -> q c = true) -> ends_with p s = true -> ends_with q s = true.
Proof.
  intros H. induction s as [|c s IH]; [discriminate|].
  destruct s as [|d s']; simpl; auto.
Qed.

Lemma rstrip_none chars s :
  sall (fun c => negb (mem_c c chars)) s = true -> rstrip chars s = s.
Proof.
  induction s as [|c s IH]; simpl; [reflexivity|].
  rewrite andb_true_iff. intros [Hc Hs]. rewrite (IH Hs).
  apply negb_true_iff in Hc. rewrite Hc. destruct s; reflexivity.
Qed.

(** classes of the characters of a title *)
Lemma sall_smap p f s : (forall c, p (f c) = p c) -> sall p (smap f s) = sall p s.
Proof. intros H. induction s as [|c s IH]; simpl; [reflexivity|]. rewrite H, IH. reflexivity. Qed.

Lemma sany_smap p f s : (forall c, p (f c) = p c) -> sany p (smap f s) = sany p s.
Proof. intros H. induction s as [|c s IH]; simpl; [reflexivity|]. rewrite H, IH. reflexivity. Qed.

Lemma capitalize_name w : sall name_char (capitalize w) = sall name_char w.
Proof.
  destruct w as [|c w]; [reflexivity|]. simpl.
  rewrite name_char_upper. f_equal. apply sall_smap, name_char_lower.
Qed.

Lemma word_case_name w : sall name_char (word_case w) = sall name_char w.
Proof. unfold word_case. destruct (isupper w); [reflexivity|apply capitalize_name]. Qed.

Lemma split_class p sep s :
  sall p s = true -> Forall (fun w => sall p w = true) (split sep s).
Proof.
  induction s as [|c s IH]; simpl; [repeat constructor|].
  rewrite andb_true_iff. intros [Hc Hs]. specialize (IH Hs).
  destruct (eqb_c c sep); [constructor; [reflexivity|assumption]|].
  destruct (split sep s) as [|w ws]; [repeat constructor; simpl; rewrite Hc; reflexivity|].
  inversion IH as [|? ? Hw Hws]; subst. constructor; [|assumption].
  simpl. rewrite Hc, Hw. reflexivity.
Qed.

Lemma join_class p sep ws :
  sall p sep = true -> Forall (fun w => sall p w = true) ws -> sall p (join sep ws) = true.
Proof.
  intros Hsep H. induction H as [|w ws Hw Hws IH]; [reflexivity|].
  destruct ws as [|w' ws']; [exact Hw|].
  change (join sep (w :: w' :: ws')) with (w +:+ sep +:+ join sep (w' :: ws')).
  rewrite !sall_app, Hw, Hsep, IH. reflexivity.
Qed.

Lemma split_two sep s :
  contains sep s = true -> exists w w' ws, split sep s = w :: w' :: ws.
Proof.
  unfold contains. induction s as [|c s IH]; simpl; [discriminate|].
  unfold eqb_c in *. rewrite (Ascii.eqb_sym c sep).
  destruct (Ascii.eqb sep c); simpl.
  - intros _. destruct (split_nonempty sep s) as (w & ws & ->). eauto.
  - intros H. destruct (IH H) as (w & w' & ws & ->). eauto.
Qed.

Lemma join_two_sep p sep w w' ws :
  p sep = true -> sany p (join (String sep "") (w :: w' :: ws)) = true.
Proof.
  intros H.
  change (join (String sep "") (w :: w' :: ws))
    with (w +:+ String sep "" +:+ join (String sep "") (w' :: ws)).
  rewrite !sany_app. simpl. rewrite H. rewrite orb_true_r. reflexivity.
Qed.

(** a title built from words joined by [sep], cased by [f] *)
Lemma title_shape f sep pre :
  (forall w, sall name_char (f w) = sall name_char w) ->
  dash_us sep = true ->
  sall name_char pre = true -> contains sep pre = true ->
  let title := join (String sep "") (f <$> split sep pre) in
  sall name_char title = true /\ sany dash_us title = true.
Proof.
  intros Hf Hsep Hpre Hc title. split.
  - apply join_class.
    + simpl. unfold name_char. rewrite Hsep, orb_true_r. reflexivity.
    + apply Forall_fmap. eapply Forall_impl; [apply split_class; eassumption|].
      intros w Hw. simpl. rewrite Hf. exact Hw.
  - unfold title. destruct (split_two _ _ Hc) as (w & w' & ws & ->).
    simpl fmap. apply join_two_sep. assumption.
Qed.

Lemma dash_us_eqb c : dash_us c = eqb_c "-" c || eqb_c "_" c.
Proof. each_char c. Qed.

Lemma sany_dash_us s : sany dash_us s = contains "-" s || contains "_" s.
Proof.
  unfold contains. induction s as [|c s IH]; cbn [sany]; [reflexivity|].
  rewrite IH, dash_us_eqb.
  destruct (eqb_c "-" c), (eqb_c "_" c), (sany (eqb_c "-") s), (sany (eqb_c "_") s); reflexivity.
Qed.

Lemma untagged_title_shape pre :
  sall name_char pre = true -> sany dash_us pre = true ->
  sall name_char (untagged_title pre) = true /\ sany dash_us (untagged_title pre) = true.
Proof.
  intros Hpre Hd. rewrite sany_dash_us in Hd. unfold untagged_title.
  assert (Hs : contains "_" pre = true -> 
           sall name_char (smart_title pre) = true /\ sany dash_us (smart_title pre) = true).
  { intros H. apply (title_shape word_case "_"); auto using word_case_name. }
  assert (Hh : contains "-" pre = true -> 
           sall name_char (hyphen_title pre) = true /\ sany dash_us (hyphen_title pre) = true).
  { intros H. apply (title_shape capitalize "-"); auto using capitalize_name. }
  destruct (contains "_" pre), (contains "-" pre); simpl in *; try discriminate; auto.
  destruct (rfind pre "_" <? rfind pre "-")%Z; auto.
Qed.

Lemma reserved_names_plain : Forall (fun d => sany dash_us d = false) reserved_names.
Proof. repeat constructor. Qed.

(** a name with a hyphen or an underscore and without a dot is returned
    unchanged by [sanitize_folder_name] *)
Lemma sanitize_folder_name_delimited folder :
  sany dash_us folder = true -> contains "." folder = false ->
  sanitize_folder_name folder = Ok folder.
Proof.
  intros Hd Hdot.
  destruct (sanitize_folder_name_cases folder) as [[H _]|[_ (first & rest & Hs & Hin)]];
    [assumption|].
  exfalso. rewrite (split_absent _ _ Hdot) in Hs. injection Hs as <- _.
  pose proof reserved_names_plain as F. rewrite Forall_forall in F.
  specialize (F _ Hin). unfold upper in F.
  rewrite sany_smap in F by apply dash_us_upper. congruence.
Qed.

Lemma append_empty_r s : s +:+ "" = s.
Proof.
  induction s as [|c s IH]; [reflexivity|].
  change (String c s +:+ "") with (String c (s +:+ "")). rewrite IH. reflexivity.
Qed.

Lemma name_char_kept c : name_char c = true -> negb (mem_c c " .") = true /\ eqb_c "." c = false.
Proof. each_char c. all: split; reflexivity. Qed.

Lemma cross_tag_shape pre delim :
  sall (fun c => negb (mem_c c " .")) (cross_tag pre delim) = true
  /\ contains "." (cross_tag pre delim) = false.
Proof.
  unfold cross_tag.
  destruct (contains "_" pre && negb (contains "-" pre));
    [destruct (bool_decide _); split; reflexivity|].
  destruct (contains "-" pre && negb (contains "_" pre));
    [destruct (bool_decide _); split; reflexivity|].
  destruct (bool_decide (delim = Some "_")); [split; reflexivity|].
  destruct (bool_decide (delim = Some "-")); split; reflexivity.
Qed.

(** the folder of a word group: its title followed by the tag *)
Lemma folder_of_parts_named pre delim :
  sall name_char pre = true -> sany dash_us pre = true ->
  folder_of_parts pre delim = Ok (Some (untagged_title pre +:+ cross_tag pre delim)).
Proof.
  intros Hpre Hd.
  destruct (untagged_title_shape pre Hpre Hd) as [Hn Hs].
  destruct (cross_tag_shape pre delim) as [Ht1 Ht2].
  set (folder := untagged_title pre +:+ cross_tag pre delim).
  assert (Hkeep : sall (fun c => negb (mem_c c " .")) folder = true).
  { unfold folder. rewrite sall_app, Ht1, andb_true_r.
    eapply sall_impl; [|exact Hn]. intros c Hc. apply name_char_kept. assumption. }
  assert (Hdot : contains "." folder = false).
  { unfold folder. rewrite contains_app, Ht2, orb_false_r.
    eapply sall_not_sany; [|exact Hn]. intros c Hc. apply name_char_kept. assumption. }
  assert (Hdl : sany dash_us folder = true).
  { unfold folder. rewrite sany_app, Hs. reflexivity. }
  assert (Hne : truthy (Some folder) = Some folder).
  { destruct folder; [discriminate|reflexivity]. }
  assert (Hend : match truthy (Some folder) with
                 | Some f => r ← sanitize_folder_name (rstrip " ." f); Ok (Some r)
                 | None => Ok None
                 end = Ok (Some folder)).
  { rewrite Hne, (rstrip_none _ _ Hkeep), (sanitize_folder_name_delimited _ Hdl Hdot).
    reflexivity. }
  rewrite sany_dash_us in Hd.
  unfold folder_of_parts. subst folder. unfold untagged_title, cross_tag in *.
  destruct (contains "_" pre), (contains "-" pre); simpl in Hd; try discriminate;
    cbn [andb negb] in *; rewrite bind_ok.
  - destruct (bool_decide (delim = Some "_")); [exact Hend|].
    destruct (bool_decide (delim = Some "-")); [exact Hend|].
    cbv iota in Hend |- *. rewrite append_empty_r in Hend |- *. exact Hend.
  - destruct (bool_decide (delim = Some "-")); [exact Hend|].
    cbv iota in Hend |- *. rewrite append_empty_r in Hend |- *. exact Hend.
  - destruct (bool_decide (delim = Some "_")); [exact Hend|].
    cbv iota in Hend |- *. rewrite append_empty_r in Hend |- *. exact Hend.
Qed.

(* ------------------------------------------------------------------ *)
(* the stages of [detect_folder_name] on a numbered stem *)
Lemma sub_empty_absent p r s :
  requires p r = true -> sany p s = false -> sub_empty r s = s.
Proof.
  intros Hr Hs. unfold sub_empty.
  rewrite remove_all_none.
  - apply string_of_list_ascii_of_string.
  - intros j. apply (match_at_absent _ p); [|assumption].
    apply sany_false_los. assumption.
Qed.

Lemma search_absent p r s :
  requires p r = true -> sany p s = false -> search r s = None.
Proof.
  intros Hr Hs. unfold search. rewrite scan_none; [reflexivity|].
  intros j. apply (match_at_absent _ p); [|assumption].
  apply sany_false_los. assumption.
Qed.

Lemma clean_stem_plain s : sall stem_char s = true -> clean_stem s = s.
Proof.
  intros H. unfold clean_stem.
  rewrite splitext_no_dot.
  2: { eapply sall_not_sany; [|exact H]. intros c Hc. apply stem_char_plain. assumption. }
  cbn [fst].
  rewrite (sub_empty_absent (eqb_c "(")).
  - apply rstrip_none. eapply sall_impl; [|exact H].
    intros c Hc. apply negb_true_iff. apply stem_char_plain. assumption.
  - vm_compute. reflexivity.
  - eapply sall_not_sany; [|exact H]. intros c Hc. apply stem_char_plain. assumption.
Qed.

Lemma list_of_numbered pre sep digits :
  los (pre +:+ String sep digits) = (los pre ++ sep :: los digits)%list.
Proof. rewrite los_app. reflexivity. Qed.

Lemma string_of_front front sep :
  string_of_list_ascii (los front ++ [sep]) = front +:+ String sep "".
Proof.
  rewrite <- (string_of_list_ascii_of_string (front +:+ String sep "")).
  rewrite los_app. reflexivity.
Qed.

Lemma nth_error_los_class p s i c :
  sall p s = true -> nth_error (los s) i = Some c -> p c = true.
Proof.
  intros H Hn. apply sall_los in H. rewrite Forall_forall in H.
  apply H, list_elem_of_In. eapply nth_error_In. eassumption.
Qed.

Lemma los_nonempty s : s <> "" -> los s <> [].
Proof. destruct s; [contradiction|discriminate]. Qed.

(** the sequence number goes, its delimiter stays *)
Lemma sub_seq_suffix_numbered pre sep digits :
  sall name_char pre = true -> dash_us sep = true ->
  digits <> "" -> sall isdigit_c digits = true ->
  sub_empty re_seq_suffix (pre +:+ String sep digits) = pre +:+ String sep "".
Proof.
  intros Hpre Hsep Hne Hds. unfold sub_empty. rewrite list_of_numbered.
  rewrite seq_suffix_remove.
  - apply string_of_front.
  - intros i Hi. apply seq_suffix_nodigit. intros c Hc.
    destruct (Nat.eq_dec i (length (los pre))) as [->|Hlt].
    + rewrite nth_error_app2, Nat.sub_diag in Hc by lia. injection Hc as <-.
      apply dash_us_not_digit. assumption.
    + rewrite nth_error_app1 in Hc by lia.
      apply name_char_not_digit. eapply nth_error_los_class; eassumption.
  - assumption.
  - apply los_nonempty. assumption.
  - apply sall_los. assumption.
Qed.

Lemma dash_us_stripped c : dash_us c = true -> mem_c c " _-." = true.
Proof. each_char c. Qed.

Lemma digit_is_stem c : isdigit_c c = true -> stem_char c = true.
Proof. each_char c. Qed.

Lemma name_is_stem c : name_char c = true -> stem_char c = true.
Proof. unfold stem_char. intros ->. reflexivity. Qed.

Lemma dash_us_is_name c : dash_us c = true -> name_char c = true.
Proof. unfold name_char. intros ->. apply orb_true_r. Qed.

(** a word group followed by one delimiter and a number: the folder is the
    title of the group, whatever the delimiter *)
Lemma detect_folder_name_numbered pre sep digits :
  sall name_char pre = true -> ends_with isalpha_c pre = true ->
  sany dash_us pre = true ->
  dash_us sep = true ->
  digits <> "" -> sall isdigit_c digits = true ->
  detect_folder_name (pre +:+ String sep digits) = Ok (Some (untagged_title pre)).
Proof.
  intros Hpre Hend Hdl Hsep Hne Hds. unfold detect_folder_name.
  rewrite clean_stem_plain.
  2: { rewrite sall_app. cbn [sall].
       rewrite (sall_impl _ _ _ name_is_stem Hpre), (name_is_stem _ (dash_us_is_name _ Hsep)),
         (sall_impl _ _ _ digit_is_stem Hds). reflexivity. }
  rewrite sub_seq_suffix_numbered by assumption.
  rewrite rstrip_app by (cbn [sall]; rewrite (dash_us_stripped _ Hsep); reflexivity).
  rewrite rstrip_ends.
  2: { eapply ends_with_impl; [|exact Hend].
       intros c Hc. apply negb_true_iff, isalpha_not_stripped. assumption. }
  rewrite (search_absent isdigit_c).
  - rewrite folder_of_parts_named by assumption.
    replace (cross_tag pre (Some "")) with "".
    + rewrite append_empty_r. reflexivity.
    + unfold cross_tag. destruct (_ && _); [reflexivity|]. destruct (_ && _); reflexivity.
  - vm_compute. reflexivity.
  - eapply sall_not_sany; [|exact Hpre]. apply name_char_not_digit.
Qed.

(* ------------------------------------------------------------------ *)
(* a second number in front of the sequence number *)
Section Blocked.

Variable txt : list ascii.

(** a greedy loop fails when its continuation fails wherever the loop can
    stop *)
Lemma star_chr_fail p (k : cont) caps e n :
  forall i,
    (i <= e)%nat ->
    (forall j, (i <= j <= e)%nat -> k j caps = None) ->
    (forall c, nth_error txt e = Some c -> p c = false) ->
    star_loop (run txt (Chr p)) k n i caps = None.
Proof.
  induction n as [|n IH]; intros i Hie Hk He; cbn [star_loop].
  - apply Hk. lia.
  - cbn [run]. destruct (nth_error txt i) as [c|] eqn:Hc; [|apply Hk; lia].
    destruct (p c) eqn:Hp; [|apply Hk; lia].
    rewrite (proj2 (Nat.ltb_lt i (S i))) by lia.
    assert (i <> e) by (intros ->; rewrite (He c Hc) in Hp; discriminate).
    rewrite IH; [apply Hk; lia|lia| |assumption].
    intros j Hj. apply Hk. lia.
Qed.

Lemma at_end_inside i : (S i < length txt)%nat -> at_end txt i = false.
Proof.
  intros H. unfold at_end.
  rewrite (proj2 (Nat.eqb_neq i (length txt))) by lia.
  rewrite (proj2 (Nat.eqb_neq (S i) (length txt))) by lia. reflexivity.
Qed.

(** no match of the sequence-number pattern starts at a digit run that is
    followed by more text than a single letter *)
Lemma seq_suffix_blocked i e :
  (S i <= e)%nat -> (S e < length txt)%nat ->
  (forall j, (i <= j <= e)%nat -> exists x, nth_error txt j = Some x /\ isalpha_c x = false) ->
  (forall c, nth_error txt e = Some c -> isdigit_c c = false) ->
  match_at txt re_seq_suffix i = None.
Proof.
  intros Hie He Halpha Hstop.
  unfold match_at, re_seq_suffix, Plus, Opt, digit, letter. cbn [run].
  destruct i as [|i']; [reflexivity|].
  destruct (nth_error txt i') as [b|]; [|reflexivity].
  destruct (dash_us b); [|reflexivity].
  destruct (nth_error txt (S i')) as [c|]; [|reflexivity].
  destruct (isdigit_c c); [|reflexivity].
  apply (star_chr_fail _ _ _ e); [lia| |assumption].
  intros j Hj. cbn [run].
  destruct (Halpha j) as (x & -> & ->); [lia|].
  rewrite at_end_inside by lia. reflexivity.
Qed.

Lemma tail_number_fail i :
  (forall c, nth_error txt i = Some c -> isdigit_c c = false) ->
  (forall c, nth_error txt (S i) = Some c -> isdigit_c c = false) ->
  match_at txt re_tail_number i = None.
Proof.
  intros H0 H1. unfold match_at, re_tail_number, Plus, Opt, digit, sepr. cbn [run].
  destruct (nth_error txt i) as [c|] eqn:Hc; [|reflexivity].
  rewrite (H0 c eq_refl).
  destruct (dash_us c); [|reflexivity].
  destruct (nth_error txt (S i)) as [d|] eqn:Hd; [|reflexivity].
  rewrite (H1 d eq_refl). reflexivity.
Qed.

Lemma tail_number_match a sep :
  nth_error txt a = Some sep -> dash_us sep = true ->
  (forall x, (S a <= x < length txt)%nat ->
     exists c, nth_error txt x = Some c /\ isdigit_c c = true) ->
  (S a < length txt)%nat ->
  match_at txt re_tail_number a
  = Some (length txt, [(2%nat, (S a, length txt)); (1%nat, (a, S a))]).
Proof.
  intros Hsep Hd Hdigits Hlen.
  unfold match_at, re_tail_number, Plus, Opt, digit, sepr. cbn [run].
  rewrite Hsep, Hd.
  destruct (Hdigits (S a)) as (c & -> & ->); [lia|].
  rewrite (star_chr_to_end txt isdigit_c _ (length txt, [(2%nat, (S a, length txt)); (1%nat, (a, S a))]));
    [reflexivity| |lia|lia|].
  - intros x Hx. apply Hdigits. lia.
  - rewrite at_end_length. reflexivity.
Qed.

End Blocked.

Lemma digit_not_alpha c : isdigit_c c = true -> isalpha_c c = false.
Proof. each_char c. Qed.

Lemma dash_us_not_alpha c : dash_us c = true -> isalpha_c c = false.
Proof. each_char c. Qed.

(** the characters of [pre ++ sep :: ds] *)
Lemma nth_error_numbered (pre ds : list ascii) sep x c :
  nth_error (pre ++ sep :: ds) x = Some c ->
  ((x < length pre)%nat /\ nth_error pre x = Some c)
  \/ (x = length pre /\ c = sep)
  \/ ((length pre < x)%nat /\ nth_error ds (x - S (length pre)) = Some c).
Proof.
  intros H. destruct (Nat.lt_ge_cases x (length pre)) as [Hlt|Hge].
  - left. rewrite nth_error_app1 in H by assumption. auto.
  - rewrite nth_error_app2 in H by assumption.
    destruct (x - length pre)%nat as [|n] eqn:E.
    + right. left. injection H as <-. split; [lia|reflexivity].
    + right. right. split; [lia|]. replace (x - S (length pre))%nat with n by lia. exact H.
Qed.

Lemma nth_error_class (p : ascii -> bool) (l : list ascii) x c :
  Forall (fun c => p c = true) l -> nth_error l x = Some c -> p c = true.
Proof.
  rewrite Forall_forall. intros H Hn. apply H, list_elem_of_In.
  eapply nth_error_In. eassumption.
Qed.

Lemma nth_error_lt_some {A} (l : list A) x : (x < length l)%nat -> exists c, nth_error l x = Some c.
Proof.
  intros H. destruct (nth_error l x) eqn:E; [eauto|]. apply nth_error_None in E. lia.
Qed.

(** with a second number in front, only the last one goes *)
Lemma sub_seq_suffix_two pre sep1 digits1 sep2 digits2 :
  sall name_char pre = true -> dash_us sep1 = true ->
  digits1 <> "" -> sall isdigit_c digits1 = true ->
  dash_us sep2 = true ->
  digits2 <> "" -> sall isdigit_c digits2 = true ->
  sub_empty re_seq_suffix ((pre +:+ String sep1 digits1) +:+ String sep2 digits2)
  = (pre +:+ String sep1 digits1) +:+ String sep2 "".
Proof.
  intros Hpre Hsep1 Hne1 Hds1 Hsep2 Hne2 Hds2.
  unfold sub_empty. rewrite list_of_numbered.
  apply sall_los in Hpre. apply sall_los in Hds1. apply sall_los in Hds2.
  apply los_nonempty in Hne1. apply los_nonempty in Hne2.
  rewrite seq_suffix_remove; [apply string_of_front| |assumption|assumption|assumption].
  rewrite list_of_numbered.
  set (lp := los pre) in *. set (l1 := los digits1) in *. set (l2 := los digits2) in *.
  set (front := (lp ++ sep1 :: l1)%list).
  set (txt := (front ++ sep2 :: l2)%list).
  assert (Hfl : length front = (length lp + S (length l1))%nat)
    by (unfold front; rewrite length_app; reflexivity).
  assert (Htl : length txt = (length front + S (length l2))%nat)
    by (unfold txt; rewrite length_app; reflexivity).
  assert (H1 : (0 < length l1)%nat) by (destruct l1; [contradiction|simpl; lia]).
  assert (H2 : (0 < length l2)%nat) by (destruct l2; [contradiction|simpl; lia]).
  assert (Hfront : forall x c, (x < length front)%nat -> nth_error txt x = Some c ->
            ((x < length lp)%nat /\ name_char c = true)
            \/ (x = length lp /\ c = sep1)
            \/ ((length lp < x)%nat /\ isdigit_c c = true)).
  { intros x c Hx Hc. unfold txt in Hc. rewrite nth_error_app1 in Hc by assumption.
    unfold front in Hc. apply nth_error_numbered in Hc as [[Hl Hc]|[[Hl ->]|[Hl Hc]]].
    - left. split; [assumption|]. exact (nth_error_class name_char lp _ _ Hpre Hc).
    - right. left. auto.
    - right. right. split; [assumption|]. exact (nth_error_class isdigit_c l1 _ _ Hds1 Hc). }
  assert (Hsep : nth_error txt (length front) = Some sep2).
  { unfold txt. rewrite nth_error_app2, Nat.sub_diag by lia. reflexivity. }
  intros i Hi.
  destruct (Nat.le_gt_cases i (length lp)) as [Hle|Hgt].
  - (* in the word group or at the first delimiter *)
    apply seq_suffix_nodigit. intros c Hc.
    destruct (Hfront i c ltac:(lia) Hc) as [[_ Hn]|[[_ ->]|[Hl _]]].
    + apply name_char_not_digit. assumption.
    + apply dash_us_not_digit. assumption.
    + lia.
  - destruct (Nat.eq_dec i (S (length lp))) as [->|Hne].
    + (* at the first digit of the first number *)
      apply (seq_suffix_blocked txt _ (length front)); [lia|lia| |].
      * intros j Hj. destruct (Nat.eq_dec j (length front)) as [->|Hjf].
        -- exists sep2. split; [assumption|]. apply dash_us_not_alpha. assumption.
        -- destruct (nth_error_lt_some txt j ltac:(lia)) as [c Hc].
           exists c. split; [assumption|].
           destruct (Hfront j c ltac:(lia) Hc) as [[Hl _]|[[Hl _]|[_ Hd]]]; [lia|lia|].
           apply digit_not_alpha. assumption.
      * intros c Hc. rewrite Hsep in Hc. injection Hc as <-.
        apply dash_us_not_digit. assumption.
    + (* further inside the first number, or at the second delimiter *)
      destruct i as [|i']; [lia|].
      destruct (nth_error_lt_some txt i' ltac:(lia)) as [c Hc].
      apply (seq_suffix_nobehind txt i' c Hc).
      destruct (Hfront i' c ltac:(lia) Hc) as [[Hl _]|[[Hl _]|[_ Hd]]]; [lia|lia|].
      apply isdigit_not_dash_us. assumption.
Qed.

Lemma substring_prefix a b : String.substring 0 (String.length a) (a +:+ b) = a.
Proof.
  induction a as [|c a IH]; [destruct b; reflexivity|].
  change (String c a +:+ b) with (String c (a +:+ b)). cbn [String.length String.substring].
  rewrite IH. reflexivity.
Qed.

Lemma substring_at a c b :
  String.substring (String.length a) 1 (a +:+ String c b) = String c "".
Proof.
  induction a as [|d a IH]; [destruct b; reflexivity|].
  change (String d a +:+ String c b) with (String d (a +:+ String c b)).
  cbn [String.length String.substring]. exact IH.
Qed.

(** the trailing number of [pre + sep + digits] and its delimiter *)
Lemma search_tail_number_numbered pre sep digits :
  sall name_char pre = true -> dash_us sep = true ->
  digits <> "" -> sall isdigit_c digits = true ->
  exists m, search re_tail_number (pre +:+ String sep digits) = Some m
            /\ slice_to (pre +:+ String sep digits) (Z.of_nat (m_start m)) = pre
            /\ group m 1 = Some (String sep "").
Proof.
  intros Hpre Hsep Hne Hds. unfold search. rewrite list_of_numbered.
  apply sall_los in Hpre. apply sall_los in Hds. apply los_nonempty in Hne.
  pose proof (los_length pre) as Hlp.
  set (lp := los pre) in *. set (ld := los digits) in *.
  set (txt := (lp ++ sep :: ld)%list).
  assert (Htl : length txt = (length lp + S (length ld))%nat)
    by (unfold txt; rewrite length_app; reflexivity).
  assert (Hd : (0 < length ld)%nat) by (destruct ld; [contradiction|simpl; lia]).
  assert (Hchars : forall x c, nth_error txt x = Some c ->
            ((x < length lp)%nat /\ name_char c = true)
            \/ (x = length lp /\ c = sep)
            \/ ((length lp < x)%nat /\ isdigit_c c = true)).
  { intros x c Hc. unfold txt in Hc.
    apply nth_error_numbered in Hc as [[Hl Hc]|[[Hl ->]|[Hl Hc]]].
    - left. split; [assumption|]. exact (nth_error_class name_char lp _ _ Hpre Hc).
    - right. left. auto.
    - right. right. split; [assumption|]. exact (nth_error_class isdigit_c ld _ _ Hds Hc). }
  assert (Hnodigit : forall x c, (x <= length lp)%nat -> nth_error txt x = Some c ->
            isdigit_c c = false).
  { intros x c Hx Hc. destruct (Hchars x c Hc) as [[_ Hn]|[[_ ->]|[Hl _]]].
    - apply name_char_not_digit. assumption.
    - apply dash_us_not_digit. assumption.
    - lia. }
  rewrite (scan_first txt re_tail_number (length lp)
             (length txt, [(2%nat, (S (length lp), length txt)); (1%nat, (length lp, S (length lp)))]));
    [|lia|lia| |].
  - eexists. split; [reflexivity|]. cbn [m_start]. split.
    + unfold slice_to, slice. rewrite Z.sub_0_r, Nat2Z.id. change (Z.to_nat 0) with 0%nat.
      rewrite Hlp. apply substring_prefix.
    + unfold group. cbn [m_caps m_text cap_lookup Nat.eqb].
      replace (S (length lp) - length lp)%nat with 1%nat by lia.
      rewrite Hlp. rewrite substring_at. reflexivity.
  - intros j Hj. apply tail_number_fail; intros c Hc; eapply Hnodigit; try eassumption; lia.
  - apply (tail_number_match txt (length lp) sep); [|assumption| |lia].
    + unfold txt. rewrite nth_error_app2, Nat.sub_diag by lia. reflexivity.
    + intros x Hx. destruct (nth_error_lt_some txt x ltac:(lia)) as [c Hc].
      exists c. split; [assumption|].
      destruct (Hchars x c Hc) as [[Hl _]|[[Hl _]|[_ H]]]; [lia|lia|assumption].
Qed.

Lemma ends_with_cons p c t : t <> "" -> ends_with p (String c t) = ends_with p t.
Proof. destruct t; [contradiction|reflexivity]. Qed.

Lemma append_nonempty a b : b <> "" -> a +:+ b <> "".
Proof. destruct a; [intros H; exact H | discriminate]. Qed.

Lemma ends_with_app_ne p a b : b <> "" -> ends_with p (a +:+ b) = ends_with p b.
Proof.
  intros Hb. induction a as [|c a IH]; [reflexivity|].
  change (String c a +:+ b) with (String c (a +:+ b)).
  rewrite ends_with_cons by (apply append_nonempty; assumption). exact IH.
Qed.

Lemma ends_with_all p s : s <> "" -> sall p s = true -> ends_with p s = true.
Proof.
  induction s as [|c s IH]; [contradiction|]. intros _ H.
  simpl in H. apply andb_true_iff in H as [Hc Hs].
  destruct s as [|d s']; [exact Hc|]. apply IH; [discriminate|assumption].
Qed.

Lemma digit_not_stripped c : isdigit_c c = true -> negb (mem_c c " _-.") = true.
Proof. each_char c. Qed.

(** a word group followed by two numbers: the delimiter in front of the
    first number decides the tag *)
Lemma detect_folder_name_two_numbers pre sep1 digits1 sep2 digits2 :
  sall name_char pre = true -> sany dash_us pre = true ->
  dash_us sep1 = true -> digits1 <> "" -> sall isdigit_c digits1 = true ->
  dash_us sep2 = true -> digits2 <> "" -> sall isdigit_c digits2 = true ->
  detect_folder_name ((pre +:+ String sep1 digits1) +:+ String sep2 digits2)
  = Ok (Some (untagged_title pre +:+ cross_tag pre (Some (String sep1 "")))).
Proof.
  intros Hpre Hdl Hsep1 Hne1 Hds1 Hsep2 Hne2 Hds2. unfold detect_folder_name.
  rewrite clean_stem_plain.
  2: { rewrite !sall_app. cbn [sall].
       rewrite (sall_impl _ _ _ name_is_stem Hpre),
         (name_is_stem _ (dash_us_is_name _ Hsep1)), (sall_impl _ _ _ digit_is_stem Hds1),
         (name_is_stem _ (dash_us_is_name _ Hsep2)), (sall_impl _ _ _ digit_is_stem Hds2).
       reflexivity. }
  rewrite sub_seq_suffix_two by assumption.
  rewrite rstrip_app by (cbn [sall]; rewrite (dash_us_stripped _ Hsep2); reflexivity).
  rewrite rstrip_ends.
  2: { rewrite ends_with_app_ne by discriminate.
       destruct digits1 as [|d ds]; [contradiction|].
       change (ends_with (fun c => negb (mem_c c " _-.")) (String d ds) = true).
       apply ends_with_all; [discriminate|].
       eapply sall_impl; [|exact Hds1]. apply digit_not_stripped. }
  destruct (search_tail_number_numbered pre sep1 digits1 Hpre Hsep1 Hne1 Hds1)
    as (m & -> & -> & ->).
  apply folder_of_parts_named; assumption.
Qed.

(** C6 (as the code has it). [detect_folder_name] removes a trailing number
    that follows "-" or "_" before it looks for the delimiter of a trailing
    number, so the delimiter right before the number of a file does not
    reach the tagging step: a group of words followed by one number gets the
    same untagged folder whether the number follows "-" or "_"
    ("name_set_001" and "name_set-002" both give "Name_Set").  The tag
    appears when a second number stands in front of the final one, and is
    decided by the delimiter in front of that second number:
    "name_set-1-002" gives "Name_Set[-]". *)
Theorem cross_delimiter_tagging (pre digits1 digits2 : string) (sep : ascii) :
  sall name_char pre = true -> ends_with isalpha_c pre = true ->
  digits1 <> "" -> sall isdigit_c digits1 = true ->
  digits2 <> "" -> sall isdigit_c digits2 = true ->
  dash_us sep = true ->
  (contains "_" pre = true -> contains "-" pre = false ->
     detect_folder_name (pre +:+ String "_" digits1) = Ok (Some (smart_title pre))
     /\ detect_folder_name (pre +:+ String "-" digits1) = Ok (Some (smart_title pre))
     /\ detect_folder_name ((pre +:+ String "_" digits1) +:+ String sep digits2)
        = Ok (Some (smart_title pre))
     /\ detect_folder_name ((pre +:+ String "-" digits1) +:+ String sep digits2)
        = Ok (Some (smart_title pre +:+ "[-]")))
  /\ (contains "-" pre = true -> contains "_" pre = false ->
     detect_folder_name (pre +:+ String "-" digits1) = Ok (Some (hyphen_title pre))
     /\ detect_folder_name (pre +:+ String "_" digits1) = Ok (Some (hyphen_title pre))
     /\ detect_folder_name ((pre +:+ String "-" digits1) +:+ String sep digits2)
        = Ok (Some (hyphen_title pre))
     /\ detect_folder_name ((pre +:+ String "_" digits1) +:+ String sep digits2)
        = Ok (Some (hyphen_title pre +:+ "[_]")))
  /\ detect_folder_name "name_set_001" = Ok (Some "Name_Set")
  /\ detect_folder_name "name_set-002" = Ok (Some "Name_Set")
  /\ detect_folder_name "name_set-1-002" = Ok (Some "Name_Set[-]")
  /\ detect_folder_name "name-set_1_002" = Ok (Some "Name-Set[_]").
Proof.
  intros Hpre Hend Hne1 Hds1 Hne2 Hds2 Hsep.
  assert (Hone : forall s, dash_us s = true -> sany dash_us pre = true ->
            detect_folder_name (pre +:+ String s digits1) = Ok (Some (untagged_title pre))).
  { intros s Hs Hd. apply detect_folder_name_numbered; assumption. }
  assert (Htwo : forall s, dash_us s = true -> sany dash_us pre = true ->
            detect_folder_name ((pre +:+ String s digits1) +:+ String sep digits2)
            = Ok (Some (untagged_title pre +:+ cross_tag pre (Some (String s ""))))).
  { intros s Hs Hd. apply detect_folder_name_two_numbers; assumption. }
  split; [|split].
  - intros Hu Hh.
    assert (Hd : sany dash_us pre = true) by (rewrite sany_dash_us, Hu; apply orb_true_r).
    rewrite !Hone, !Htwo by (reflexivity || assumption).
    unfold untagged_title, cross_tag. rewrite Hu, Hh. cbn [andb negb].
    rewrite append_empty_r. repeat split; reflexivity.
  - intros Hh Hu.
    assert (Hd : sany dash_us pre = true) by (rewrite sany_dash_us, Hh; reflexivity).
    rewrite !Hone, !Htwo by (reflexivity || assumption).
    unfold untagged_title, cross_tag. rewrite Hu, Hh. cbn [andb negb].
    rewrite append_empty_r. repeat split; reflexivity.
  - repeat split; vm_compute; reflexivity.
Qed.

Lemma cross_delimiter_tagging_witness :
  detect_folder_name ("name_set" +:+ String "_" "001") = Ok (Some (smart_title "name_set"))
  /\ detect_folder_name ("name_set" +:+ String "-" "001") = Ok (Some (smart_title "name_set"))
  /\ detect_folder_name (("name_set" +:+ String "_" "001") +:+ String "-" "7")
     = Ok (Some (smart_title "name_set"))
  /\ detect_folder_name (("name_set" +:+ String "-" "001") +:+ String "-" "7")
     = Ok (Some (smart_title "name_set" +:+ "[-]")).
Proof.
  refine (proj1 (cross_delimiter_tagging "name_set" "001" "7" "-" _ _ _ _ _ _ _) _ _);
    first [reflexivity | discriminate].
Defined.

(** C6, as stated, fails: "name_set-002" is not tagged, and lands in the
    folder of "name_set_001". *)
Lemma cross_delimiter_counterexample :
  detect_folder_name "name_set_001" = Ok (Some "Name_Set")
  /\ detect_folder_name "name_set-002" = Ok (Some "Name_Set")
  /\ detect_folder_name "name_set-002" <> Ok (Some "Name_Set[-]").
Proof. repeat split; vm_compute; (reflexivity || discriminate). Qed.

(* ===================================================================== *)
(** ** Stripping *)
(* ===================================================================== *)

Lemma lstrip_cases chars s :
  lstrip chars s = "" \/ exists c t, lstrip chars s = String c t /\ mem_c c chars = false.
Proof.
  induction s as [|c s IH]; [left; reflexivity|].
  simpl. destruct (mem_c c chars) eqn:E; [exact IH|].
  right. exists c, s. split; [reflexivity|assumption].
Qed.

Lemma rstrip_head chars c t :
  mem_c c chars = false -> exists u, rstrip chars (String c t) = String c u.
Proof.
  intros H. cbn [rstrip]. destruct (rstrip chars t) eqn:E.
  - rewrite H. eexists. reflexivity.
  - eexists. reflexivity.
Qed.

Lemma rstrip_cases chars s :
  rstrip chars s = "" \/ ends_with (fun c => negb (mem_c c chars)) (rstrip chars s) = true.
Proof.
  induction s as [|c s IH]; [left; reflexivity|].
  cbn [rstrip]. destruct (rstrip chars s) as [|d u] eqn:E.
  - destruct (mem_c c chars) eqn:Ec; [left; reflexivity|].
    right. simpl. rewrite Ec. reflexivity.
  - right. destruct IH as [IH|IH]; [discriminate|]. exact IH.
Qed.

Lemma rstrip_idem chars s : rstrip chars (rstrip chars s) = rstrip chars s.
Proof.
  destruct (rstrip_cases chars s) as [H|H].
  - rewrite H. reflexivity.
  - apply rstrip_ends. exact H.
Qed.

Lemma lstrip_head chars c t : mem_c c chars = false -> lstrip chars (String c t) = String c t.
Proof. intros H. simpl. rewrite H. reflexivity. Qed.

(** a stripped text is empty, or begins and ends with a character that is
    no white space *)
Lemma strip_cases s :
  strip s = ""
  \/ exists c t, strip s = String c t /\ mem_c c whitespace = false
       /\ ends_with (fun c => negb (mem_c c whitespace)) (strip s) = true.
Proof.
  unfold strip. destruct (lstrip_cases whitespace s) as [H|(c & t & H & Hc)].
  - left. rewrite H. reflexivity.
  - right. rewrite H. destruct (rstrip_head whitespace c t Hc) as [u Hu].
    exists c, u. split; [exact Hu|]. split; [exact Hc|].
    destruct (rstrip_cases whitespace (String c t)) as [E|E]; [congruence|exact E].
Qed.

Lemma strip_idem s : strip (strip s) = strip s.
Proof.
  destruct (strip_cases s) as [H|(c & t & H & Hc & He)].
  - rewrite H. reflexivity.
  - unfold strip at 1. rewrite H in *. rewrite (lstrip_head _ _ _ Hc).
    apply rstrip_ends. exact He.
Qed.

Lemma contains_lstrip d chars s : contains d (lstrip chars s) = true -> contains d s = true.
Proof.
  induction s as [|c s IH]; [discriminate|].
  simpl. destruct (mem_c c chars).
  - intros H. unfold contains in *. simpl. rewrite (IH H). apply orb_true_r.
  - trivial.
Qed.

Lemma contains_rstrip d chars s : contains d (rstrip chars s) = true -> contains d s = true.
Proof.
  unfold contains. induction s as [|c s IH]; [discriminate|].
  cbn [rstrip]. destruct (rstrip chars s) as [|e u] eqn:E.
  - destruct (mem_c c chars); [discriminate|].
    cbn [sany]. rewrite orb_false_r. intros ->. reflexivity.
  - cbn [sany] in *. intros H. apply orb_true_iff in H as [H|H].
    + rewrite H. reflexivity.
    + rewrite (IH H). apply orb_true_r.
Qed.

Lemma contains_strip d s : contains d s = false -> contains d (strip s) = false.
Proof.
  intros H. destruct (contains d (strip s)) eqn:E; [|reflexivity].
  unfold strip in E. apply contains_rstrip, contains_lstrip in E. congruence.
Qed.

Lemma strip_plain s : sall (fun c => negb (mem_c c whitespace)) s = true -> strip s = s.
Proof.
  intros H. unfold strip.
  assert (Hl : lstrip whitespace s = s).
  { destruct s as [|c t]; [reflexivity|]. simpl in H. apply andb_true_iff in H as [Hc _].
    apply negb_true_iff in Hc. apply lstrip_head. exact Hc. }
  rewrite Hl. apply rstrip_none. exact H.
Qed.

(* ===================================================================== *)
(** ** Folder hierarchies *)
(* ===================================================================== *)

Lemma parse_folder_hierarchy_parts h : Forall clean_part (parse_folder_hierarchy h).
Proof.
  unfold parse_folder_hierarchy. destruct (String.eqb h ""); [constructor|].
  apply Forall_forall. intros f Hf.
  apply list_elem_of_In, filter_In in Hf as [Hf Hne].
  apply list_elem_of_In, list_elem_of_fmap in Hf as (w & -> & Hw).
  repeat split.
  - intros E. rewrite E in Hne. discriminate.
  - apply strip_idem.
  - apply contains_strip.
    pose proof (split_words "-" h) as Hs. rewrite Forall_forall in Hs. apply Hs. exact Hw.
Qed.

(** X1. Every folder name that [parse_folder_hierarchy] returns is not
    empty, has no white space around it and contains no hyphen. *)
Theorem parse_folder_hierarchy_clean (hierarchy_string : string) :
  Forall clean_part (parse_folder_hierarchy hierarchy_string).
Proof. apply parse_folder_hierarchy_parts. Qed.

Lemma join_nonempty sep w ws : w <> "" -> join sep (w :: ws) <> "".
Proof.
  intros Hw. destruct ws as [|w' ws']; [exact Hw|].
  change (join sep (w :: w' :: ws')) with (w +:+ sep +:+ join sep (w' :: ws')).
  destruct w; [contradiction|]. discriminate.
Qed.

(** X2. Joining clean folder names with hyphens and parsing the result
    gives the names back. *)
Theorem parse_folder_hierarchy_join (folders : list string) :
  Forall clean_part folders ->
  parse_folder_hierarchy (join "-" folders) = folders.
Proof.
  intros H. destruct folders as [|w ws]; [reflexivity|].
  unfold parse_folder_hierarchy.
  assert (Hne : join "-" (w :: ws) <> "").
  { apply join_nonempty. inversion H as [|? ? Hw _]; subst. apply Hw. }
  apply String.eqb_neq in Hne. rewrite Hne.
  rewrite split_join.
  - clear Hne. induction H as [|f fs (Hf & Hs & _) _ IH]; [reflexivity|].
    rewrite fmap_cons. cbn [List.filter]. rewrite Hs.
    apply String.eqb_neq in Hf. rewrite Hf. cbn [negb]. f_equal. exact IH.
  - discriminate.
  - eapply Forall_impl; [exact H|]. intros f (_ & _ & Hd). exact Hd.
Qed.

Lemma parse_folder_hierarchy_join_witness :
  Forall clean_part ["TMC"; "Aileron"; "LH"]
  /\ parse_folder_hierarchy (join "-" ["TMC"; "Aileron"; "LH"]) = ["TMC"; "Aileron"; "LH"].
Proof.
  assert (H : Forall clean_part ["TMC"; "Aileron"; "LH"]).
  { repeat constructor; try discriminate; reflexivity. }
  split; [exact H|]. apply (parse_folder_hierarchy_join _ H).
Defined.

Lemma lstrip_empty chars s :
  lstrip chars s = "" -> sall (fun c => mem_c c chars) s = true.
Proof.
  induction s as [|c s IH]; [reflexivity|].
  simpl. destruct (mem_c c chars); [exact IH|discriminate].
Qed.

Lemma strip_empty s : strip s = "" -> sall (fun c => mem_c c whitespace) s = true.
Proof.
  unfold strip. intros H.
  destruct (lstrip_cases whitespace s) as [E|(c & t & E & Hc)].
  - apply lstrip_empty. exact E.
  - rewrite E in H. destruct (rstrip_head whitespace c t Hc) as [u Hu]. congruence.
Qed.

Lemma parse_folder_hierarchy_blank h : strip h = "" -> parse_folder_hierarchy h = [].
Proof.
  intros H. unfold parse_folder_hierarchy. destruct (String.eqb h ""); [reflexivity|].
  rewrite split_absent.
  - simpl. rewrite H. reflexivity.
  - apply strip_empty in H. eapply sall_not_sany; [|exact H].
    intros c Hc. destruct (eqb_c "-" c) eqn:E; [|reflexivity].
    apply Ascii.eqb_eq in E. subst c. discriminate.
Qed.

Lemma sany_or p q s : sany (fun c => p c || q c) s = sany p s || sany q s.
Proof.
  induction s as [|c s IH]; [reflexivity|].
  simpl. rewrite IH. destruct (p c), (q c), (sany p s), (sany q s); reflexivity.
Qed.

Lemma sany_ext p q s : (forall c, p c = q c) -> sany p s = sany q s.
Proof. intros H. induction s as [|c s IH]; [reflexivity|]. simpl. rewrite H, IH. reflexivity. Qed.

Lemma eqb_c_sym a b : eqb_c a b = eqb_c b a.
Proof. unfold eqb_c. apply Ascii.eqb_sym. Qed.

Lemma filter_contains_nil chars part :
  List.filter (fun c => contains c part) (los chars) = []
  <-> sany (fun c => mem_c c chars) part = false.
Proof.
  induction chars as [|c chars IH].
  - simpl. split; [|reflexivity]. intros _. induction part; [reflexivity|assumption].
  - cbn [los list_ascii_of_string List.filter mem_c].
    rewrite sany_or, orb_false_iff, <- IH.
    rewrite (sany_ext (fun d => eqb_c d c) (eqb_c c)) by (intros; apply eqb_c_sym).
    fold (contains c part). destruct (contains c part); split.
    + discriminate.
    + intros [? _]. discriminate.
    + intros H. split; [reflexivity|exact H].
    + intros [_ H]. exact H.
Qed.

Lemma invalid_found_nil part :
  invalid_found part = [] <-> sany (fun c => mem_c c invalid_chars) part = false.
Proof. apply filter_contains_nil. Qed.

Lemma len_pos s : s <> "" -> 1 <= len s.
Proof. destruct s; [contradiction|]. unfold len. simpl. lia. Qed.

Lemma check_parts_none parts :
  Forall (fun part => part <> "") parts ->
  (check_parts parts = None
   <-> Forall (fun part => len part <= 255
                           /\ sany (fun c => mem_c c invalid_chars) part = false) parts).
Proof.
  induction 1 as [|part parts Hne _ IH]; [split; [constructor|reflexivity]|].
  cbn [check_parts]. apply len_pos in Hne.
  destruct (255 <? len part) eqn:E1.
  { apply Z.ltb_lt in E1. split; [discriminate|]. intros H. inversion H; subst. lia. }
  apply Z.ltb_ge in E1.
  destruct (len part <? 1) eqn:E2; [apply Z.ltb_lt in E2; lia|].
  destruct (invalid_found part) as [|c l] eqn:E3.
  - apply invalid_found_nil in E3. rewrite IH. split.
    + intros H. constructor; [split; assumption|exact H].
    + intros H. inversion H; subst. assumption.
  - split; [discriminate|]. intros H. inversion H as [|? ? [_ Hi] _]; subst.
    apply invalid_found_nil in Hi. congruence.
Qed.

Lemma check_parts_message parts :
  Forall (fun part => part <> "") parts ->
  check_parts parts <> Some "Empty folder name in hierarchy".
Proof.
  induction 1 as [|part parts Hne _ IH]; [discriminate|].
  cbn [check_parts]. apply len_pos in Hne.
  destruct (255 <? len part); [discriminate|].
  destruct (len part <? 1) eqn:E2; [apply Z.ltb_lt in E2; lia|].
  destruct (invalid_found part); [exact IH|discriminate].
Qed.

(** X3. [validate_folder_hierarchy] accepts a text exactly when its folder
    names are at least one and at most 15, each of at most 255 characters
    and without an invalid character, and their path has at most 190
    characters; nothing else is checked, and the message for an empty folder
    name is never returned. *)
Theorem validate_folder_hierarchy_accepts (hierarchy : string) :
  (validate_folder_hierarchy hierarchy = (true, "Valid hierarchy")
   <-> acceptable (parse_folder_hierarchy hierarchy))
  /\ ((validate_folder_hierarchy hierarchy).1 = false
      <-> ~ acceptable (parse_folder_hierarchy hierarchy))
  /\ (validate_folder_hierarchy hierarchy).2 <> "Empty folder name in hierarchy".
Proof.
  pose proof (parse_folder_hierarchy_parts hierarchy) as Hclean.
  assert (Hne : Forall (fun part => part <> "") (parse_folder_hierarchy hierarchy)).
  { eapply Forall_impl; [exact Hclean|]. intros f (Hf & _). exact Hf. }
  pose proof (check_parts_none _ Hne) as Hnone.
  pose proof (check_parts_message _ Hne) as Hmsg.
  assert (Hblank : String.eqb hierarchy "" || String.eqb (strip hierarchy) "" = true ->
                   parse_folder_hierarchy hierarchy = []).
  { intros E0. apply orb_true_iff in E0 as [E0|E0]; apply String.eqb_eq in E0.
    - subst. reflexivity.
    - apply parse_folder_hierarchy_blank. exact E0. }
  unfold validate_folder_hierarchy.
  set (parts := parse_folder_hierarchy hierarchy) in *.
  assert (Hreject : forall message,
            ~ acceptable parts -> message <> "Empty folder name in hierarchy" ->
            ((false, message) = (true, "Valid hierarchy") <-> acceptable parts)
            /\ ((false, message).1 = false <-> ~ acceptable parts)
            /\ (false, message).2 <> "Empty folder name in hierarchy").
  { intros message Hn Hm. split; [split; [discriminate|intros Ha; destruct (Hn Ha)]|].
    split; [split; [intros _; exact Hn|reflexivity]|exact Hm]. }
  destruct (String.eqb hierarchy "" || String.eqb (strip hierarchy) "") eqn:E0.
  { apply Hreject; [|discriminate]. rewrite (Hblank eq_refl). intros (H & _). apply H. reflexivity. }
  destruct parts as [|f fs] eqn:Ep.
  { apply Hreject; [|discriminate]. intros (H & _). apply H. reflexivity. }
  destruct (15 <? length (f :: fs))%nat eqn:E1.
  { apply Nat.ltb_lt in E1. apply Hreject; [|discriminate]. intros (_ & H & _). lia. }
  apply Nat.ltb_ge in E1.
  destruct (check_parts (f :: fs)) as [message|] eqn:E2.
  { apply Hreject; [|congruence]. intros (_ & _ & H & _). apply Hnone in H. discriminate. }
  assert (Hall := proj1 Hnone eq_refl).
  cbv zeta. destruct (240 <? len (join "/" (f :: fs)) + 50) eqn:E3.
  - apply Z.ltb_lt in E3. apply Hreject; [|discriminate]. intros (_ & _ & _ & H). lia.
  - apply Z.ltb_ge in E3.
    assert (Hacc : acceptable (f :: fs)).
    { repeat split; [discriminate|exact E1|exact Hall|lia]. }
    split; [split; [intros _; exact Hacc|reflexivity]|].
    split; [split; [discriminate|intros Hn; destruct (Hn Hacc)]|discriminate].
Qed.

(* ===================================================================== *)
(** ** Decimal numerals *)
(* ===================================================================== *)

Lemma len_cons c s : len (String c s) = 1 + len s.
Proof. unfold len. simpl. lia. Qed.

Lemma len_nonneg s : 0 <= len s.
Proof. unfold len. lia. Qed.

Lemma len_app a b : len (a +:+ b) = len a + len b.
Proof. unfold len. rewrite app_length_s. lia. Qed.

Lemma digit_val_range c : isdigit_c c = true -> 0 <= digit_val c <= 9.
Proof.
  unfold isdigit_c, in_range, digit_val. intros H.
  apply andb_true_iff in H as [H1 H2]. apply Z.leb_le in H1, H2. lia.
Qed.

(** the value of a numeral with an accumulator *)
Lemma int_acc_shift s : forall acc, int_acc s acc = acc * 10 ^ len s + int_acc s 0.
Proof.
  induction s as [|c s IH]; intros acc.
  - simpl. change (len "") with 0. lia.
  - cbn [int_acc]. rewrite (IH (10 * acc + digit_val c)), (IH (10 * 0 + digit_val c)).
    rewrite len_cons, Z.pow_add_r by (pose proof (len_nonneg s); lia).
    lia.
Qed.

Lemma int_of_bounds s : sall isdigit_c s = true -> 0 <= int_of s < 10 ^ len s.
Proof.
  unfold int_of. induction s as [|c s IH]; intros H.
  - simpl. change (len "") with 0. lia.
  - simpl in H. apply andb_true_iff in H as [Hc Hs]. specialize (IH Hs).
    apply digit_val_range in Hc.
    cbn [int_acc]. rewrite int_acc_shift, len_cons.
    rewrite Z.pow_add_r by (pose proof (len_nonneg s); lia).
    change (10 ^ 1) with 10. set (P := 10 ^ len s) in *.
    assert (0 <= digit_val c * P <= 9 * P) by nia. lia.
Qed.

Lemma int_of_lower c s :
  isdigit_c c = true -> eqb_c c "0" = false -> sall isdigit_c s = true ->
  10 ^ len s <= int_of (String c s).
Proof.
  intros Hc H0 Hs. unfold int_of. cbn [int_acc]. rewrite int_acc_shift.
  pose proof (int_of_bounds s Hs) as Hb. unfold int_of in Hb.
  assert (1 <= digit_val c).
  { pose proof (digit_val_range c Hc). destruct (Z.eq_dec (digit_val c) 0) as [E|]; [|lia].
    exfalso. unfold digit_val in E. assert (Hcode : code c = code "0") by (change (code "0") with 48; lia).
    unfold code in Hcode. apply (f_equal Z.to_N) in Hcode. rewrite !N2Z.id in Hcode.
    apply (f_equal ascii_of_N) in Hcode. rewrite !ascii_N_embedding in Hcode.
    subst c. discriminate. }
  nia.
Qed.

Lemma string_of_uint_digits d : sall isdigit_c (NilEmpty.string_of_uint d) = true.
Proof. induction d; simpl; try reflexivity; exact IHd. Qed.

Lemma int_acc_of_uint_acc d :
  forall acc, int_acc (NilEmpty.string_of_uint d) (Z.pos acc) = Z.pos (Pos.of_uint_acc d acc).
Proof.
  induction d; intros acc; cbn [NilEmpty.string_of_uint int_acc Pos.of_uint_acc];
    try reflexivity;
    match goal with
    | |- int_acc _ ?z = Z.pos (Pos.of_uint_acc _ ?p) =>
        replace z with (Z.pos p) by (vm_compute digit_val; lia)
    end; apply IHd.
Qed.

Lemma int_of_string_of_uint d : int_of (NilEmpty.string_of_uint d) = Z.of_uint d.
Proof.
  unfold int_of, Z.of_uint.
  induction d; cbn [NilEmpty.string_of_uint int_acc Pos.of_uint]; try reflexivity;
    try (match goal with
         | |- int_acc _ ?z = Z.of_N (N.pos (Pos.of_uint_acc _ ?p)) =>
             replace z with (Z.pos p) by (vm_compute digit_val; lia)
         end; apply int_acc_of_uint_acc).
  exact IHd.
Qed.

(** [int(str(n)) == n] *)
Lemma int_of_str n : 0 <= n -> int_of (str_of_Z n) = n.
Proof.
  intros Hn. unfold str_of_Z. pose proof (DecimalZ.of_to n) as H.
  destruct n as [|p|p]; [reflexivity| |lia].
  cbn [Z.to_int NilEmpty.string_of_int] in *. rewrite int_of_string_of_uint. exact H.
Qed.

Lemma str_of_Z_digits n : 0 <= n -> sall isdigit_c (str_of_Z n) = true.
Proof.
  intros Hn. unfold str_of_Z. destruct n as [|p|p]; [reflexivity| |lia].
  apply string_of_uint_digits.
Qed.

Lemma nzhead_head d : forall u, Decimal.nzhead d <> Decimal.D0 u.
Proof. induction d; intros u; simpl; try discriminate. apply IHd. Qed.

(** the numeral of a positive number does not begin with a zero *)
Lemma str_of_pos_head p :
  exists c s, str_of_Z (Z.pos p) = String c s /\ isdigit_c c = true /\ eqb_c c "0" = false
              /\ sall isdigit_c s = true.
Proof.
  unfold str_of_Z. cbn [Z.to_int NilEmpty.string_of_int].
  assert (Hnorm : Decimal.unorm (Pos.to_uint p) = Pos.to_uint p).
  { pose proof (DecimalPos.Unsigned.to_of (Pos.to_uint p)) as H.
    rewrite DecimalPos.Unsigned.of_to in H. symmetry. exact H. }
  pose proof (DecimalPos.Unsigned.to_uint_nonzero p) as Hnz.
  pose proof (string_of_uint_digits (Pos.to_uint p)) as Hd.
  destruct (Pos.to_uint p) as [|u|u|u|u|u|u|u|u|u|u] eqn:E;
    try (cbn [NilEmpty.string_of_uint] in *; eexists _, _; split; [reflexivity|];
         split; [reflexivity|]; split; [reflexivity|]; exact Hd).
  - exfalso. unfold Decimal.unorm in Hnorm. simpl in Hnorm. discriminate.
  - exfalso. unfold Decimal.unorm in Hnorm. cbn [Decimal.nzhead] in Hnorm.
    destruct (Decimal.nzhead u) eqn:En; try discriminate.
    + injection Hnorm as <-. apply Hnz. reflexivity.
    + exact (nzhead_head u _ En).
Qed.

(** the number of digits of a positive number *)
Lemma str_of_Z_len n :
  0 < n -> 1 <= len (str_of_Z n) /\ 10 ^ (len (str_of_Z n) - 1) <= n < 10 ^ len (str_of_Z n).
Proof.
  intros Hn. destruct n as [|p|p]; try lia.
  destruct (str_of_pos_head p) as (c & s & E & Hc & H0 & Hs).
  pose proof (int_of_str (Z.pos p) ltac:(lia)) as Hv.
  pose proof (str_of_Z_digits (Z.pos p) ltac:(lia)) as Hd.
  pose proof (int_of_bounds _ Hd) as Hb. rewrite Hv in Hb.
  rewrite E in *. pose proof (int_of_lower c s Hc H0 Hs) as Hl. rewrite Hv in Hl.
  rewrite len_cons in *. pose proof (len_nonneg s).
  replace (1 + len s - 1) with (len s) by lia. lia.
Qed.

Lemma str_of_Z_len_mono i j : 0 < i <= j -> len (str_of_Z i) <= len (str_of_Z j).
Proof.
  intros [Hi Hij].
  destruct (str_of_Z_len i Hi) as (Hi1 & Hil & _).
  destruct (str_of_Z_len j ltac:(lia)) as (Hj1 & _ & Hju).
  destruct (Z_le_gt_dec (len (str_of_Z i)) (len (str_of_Z j))) as [|Hgt]; [assumption|].
  exfalso.
  assert (10 ^ len (str_of_Z j) <= 10 ^ (len (str_of_Z i) - 1))
    by (apply Z.pow_le_mono_r; lia).
  lia.
Qed.

(* ===================================================================== *)
(** ** Zero padding *)
(* ===================================================================== *)

Lemma repeat_c_S c n : repeat_c c (S n) = String c (repeat_c c n).
Proof. reflexivity. Qed.

Lemma repeat_c_len c n : len (repeat_c c n) = Z.of_nat n.
Proof.
  induction n as [|n IH]; [reflexivity|].
  rewrite repeat_c_S, len_cons, IH. lia.
Qed.

Lemma repeat_c_class (p : ascii -> bool) c n : p c = true -> sall p (repeat_c c n) = true.
Proof.
  intros Hc. induction n as [|n IH]; [reflexivity|].
  rewrite repeat_c_S. simpl. rewrite Hc. exact IH.
Qed.

Lemma int_of_zeros n s : int_of (repeat_c "0" n +:+ s) = int_of s.
Proof.
  unfold int_of. induction n as [|n IH]; [reflexivity|].
  rewrite repeat_c_S. change (String "0" (repeat_c "0" n) +:+ s)
    with (String "0" (repeat_c "0" n +:+ s)).
  cbn [int_acc]. exact IH.
Qed.

(** padding a numeral without sign *)
Lemma zfill_digits s width :
  s <> "" -> sall isdigit_c s = true ->
  zfill s width = repeat_c "0" (Z.to_nat (width - len s)) +:+ s.
Proof.
  intros Hne Hs. destruct s as [|c s]; [contradiction|].
  unfold zfill. simpl in Hs. apply andb_true_iff in Hs as [Hc _].
  assert (E : eqb_c c "+" || eqb_c c "-" = false).
  { destruct (eqb_c c "+") eqn:E1; [apply Ascii.eqb_eq in E1; subst; discriminate|].
    destruct (eqb_c c "-") eqn:E2; [apply Ascii.eqb_eq in E2; subst; discriminate|].
    reflexivity. }
  rewrite E. reflexivity.
Qed.

Lemma str_of_Z_nonempty n : str_of_Z n <> "".
Proof.
  unfold str_of_Z. destruct n as [|p|p]; cbn [Z.to_int NilEmpty.string_of_int];
    try discriminate.
  destruct (str_of_pos_head p) as (c & s & E & _). unfold str_of_Z in E.
  cbn [Z.to_int NilEmpty.string_of_int] in E. rewrite E. discriminate.
Qed.

(** the zero-padded numeral of a natural number: its length, its
    characters and its value *)
Lemma zfill_str n width :
  0 <= n ->
  len (zfill (str_of_Z n) width) = Z.max width (len (str_of_Z n))
  /\ sall isdigit_c (zfill (str_of_Z n) width) = true
  /\ int_of (zfill (str_of_Z n) width) = n.
Proof.
  intros Hn. rewrite zfill_digits by (apply str_of_Z_nonempty || apply str_of_Z_digits; exact Hn).
  split; [|split].
  - rewrite len_app, repeat_c_len. pose proof (len_nonneg (str_of_Z n)). lia.
  - rewrite sall_app, repeat_c_class by reflexivity. apply str_of_Z_digits. exact Hn.
  - rewrite int_of_zeros. apply int_of_str. exact Hn.
Qed.

(** X4. [generate_numbered_folder_names count] gives [count] names; the
    name at index [i] is the numeral of [i + 1] padded with zeros, and all
    the names have the same length, the number of digits of [count] and at
    least 3; no name occurs twice. *)
Theorem generate_numbered_folder_names_spec (count : Z) :
  let names := generate_numbered_folder_names count in
  let width := Z.max 3 (len (str_of_Z count)) in
  length names = Z.to_nat count
  /\ (forall (i : nat) name, names !! i = Some name ->
        len name = width /\ sall isdigit_c name = true /\ int_of name = Z.of_nat i + 1)
  /\ NoDup names.
Proof.
  cbv zeta.
  assert (Hnames : forall (i : nat) name,
            generate_numbered_folder_names count !! i = Some name ->
            len name = Z.max 3 (len (str_of_Z count))
            /\ sall isdigit_c name = true /\ int_of name = Z.of_nat i + 1).
  { unfold generate_numbered_folder_names. intros i name.
    destruct (count <=? 0) eqn:E0; [discriminate|]. apply Z.leb_gt in E0.
    rewrite list_lookup_fmap. intros H.
    destruct (seqZ 1 count !! i) as [n|] eqn:En; [|discriminate].
    apply lookup_seqZ in En as [-> Hi]. injection H as <-.
    set (width := if len (str_of_Z count) <? 3 then 3 else len (str_of_Z count)).
    assert (Hw : width = Z.max 3 (len (str_of_Z count))).
    { unfold width. destruct (len (str_of_Z count) <? 3) eqn:E; [apply Z.ltb_lt in E|apply Z.ltb_ge in E]; lia. }
    destruct (zfill_str (1 + Z.of_nat i) width ltac:(lia)) as (Hl & Hd & Hv).
    pose proof (str_of_Z_len_mono (1 + Z.of_nat i) count ltac:(lia)).
    split; [lia|]. split; [exact Hd|lia]. }
  split; [|split].
  - unfold generate_numbered_folder_names. destruct (count <=? 0) eqn:E0.
    + apply Z.leb_le in E0. simpl. lia.
    + rewrite length_fmap, length_seqZ. reflexivity.
  - exact Hnames.
  - apply NoDup_alt. intros i j name Hi Hj.
    apply Hnames in Hi as (_ & _ & Hi). apply Hnames in Hj as (_ & _ & Hj). lia.
Qed.

(* ===================================================================== *)
(** ** Creating a hierarchy *)
(* ===================================================================== *)

Section HierarchyFacts.

Context {world : Type}.

Variable path_exists : world -> string -> bool.

Variable makedirs : world -> string -> world * option string.

(** [os.path.isdir] *)
Variable isdir : world -> string -> bool.

(** a directory that was created exists; creating directories removes
    nothing, adds nothing but directories, and leaves a directory a
    directory *)
Hypothesis makedirs_creates :
  forall w path w', makedirs w path = (w', None) -> path_exists w' path = true.

Hypothesis makedirs_keeps :
  forall w path w' r q,
    makedirs w path = (w', r) -> path_exists w q = true -> path_exists w' q = true.

Hypothesis makedirs_adds_directories :
  forall w path w' r q,
    makedirs w path = (w', r) ->
    path_exists w q = false -> path_exists w' q = true -> isdir w' q = true.

Hypothesis makedirs_keeps_directories :
  forall w path w' r q,
    makedirs w path = (w', r) -> isdir w q = true -> isdir w' q = true.

Let keeps (w w' : world) : Prop :=
  (forall q, path_exists w q = true -> path_exists w' q = true)
  /\ (forall q, isdir w q = true -> isdir w' q = true)
  /\ (forall q, path_exists w q = false -> path_exists w' q = true -> isdir w' q = true).

Lemma keeps_refl w : keeps w w.
Proof.
  split; [auto|]. split; [auto|]. intros q H1 H2. rewrite H1 in H2. discriminate.
Qed.

Lemma keeps_trans w1 w2 w3 : keeps w1 w2 -> keeps w2 w3 -> keeps w1 w3.
Proof.
  intros (He1 & Hd1 & Hn1) (He2 & Hd2 & Hn2).
  split; [auto|]. split; [auto|].
  intros q H1 H3. destruct (path_exists w2 q) eqn:E2.
  - apply Hd2, Hn1; assumption.
  - apply Hn2; assumption.
Qed.

Lemma ensure_dir_done w path w' :
  ensure_dir path_exists makedirs w path = (w', None) ->
  path_exists w' path = true /\ keeps w w'.
Proof.
  unfold ensure_dir. destruct (path_exists w path) eqn:E; intros H.
  - injection H as <-. split; [exact E|apply keeps_refl].
  - split; [eapply makedirs_creates; exact H|].
    split; [intros q Hq; eapply makedirs_keeps; eassumption|].
    split; [intros q Hq; eapply makedirs_keeps_directories; eassumption|].
    intros q Hq Hq'. eapply makedirs_adds_directories; eassumption.
Qed.

Lemma ensure_dir_again w path :
  path_exists w path = true -> ensure_dir path_exists makedirs w path = (w, None).
Proof. unfold ensure_dir. intros ->. reflexivity. Qed.

Lemma create_nested_done folders :
  forall w current_path w' leaf,
    create_nested path_exists makedirs w current_path folders = (w', inl leaf) ->
    keeps w w'
    /\ leaf = nested_path current_path folders
    /\ (folders <> [] -> path_exists w' leaf = true)
    /\ forall w2, keeps w' w2 ->
          create_nested path_exists makedirs w2 current_path folders = (w2, inl leaf).
Proof.
  induction folders as [|folder folders IH]; intros w current_path w' leaf H.
  - simpl in H. injection H as <- <-.
    repeat split; try (intros q Hq; exact Hq); try contradiction.
    intros q H1 H2. rewrite H1 in H2. discriminate.
  - cbn [create_nested] in *. unfold nested_path, safe_name. cbn [foldl].
    destruct (sanitize_folder_name folder) as [safe_folder|e]; [|discriminate].
    destruct (ensure_dir path_exists makedirs w (Path.join current_path safe_folder))
      as [w1 [e|]] eqn:E1; [discriminate|].
    apply ensure_dir_done in E1 as [Hex Hk1].
    apply IH in H as (Hk & Hleaf & Hlast & Hagain).
    split; [exact (keeps_trans _ _ _ Hk1 Hk)|].
    split; [exact Hleaf|].
    split.
    + intros _. destruct folders as [|f fs].
      * simpl in Hleaf. subst leaf. apply (proj1 Hk), Hex.
      * apply Hlast. discriminate.
    + intros w2 Hk2. rewrite ensure_dir_again by (apply (proj1 Hk2), (proj1 Hk), Hex).
      apply Hagain. exact Hk2.
Qed.

Lemma create_numbered_done numbered_folders :
  forall w current_path w',
    create_numbered path_exists makedirs w current_path numbered_folders = (w', None) ->
    keeps w w'
    /\ Forall (fun numbered => path_exists w' (Path.join current_path numbered) = true)
         numbered_folders
    /\ forall w2, keeps w' w2 ->
          create_numbered path_exists makedirs w2 current_path numbered_folders = (w2, None).
Proof.
  induction numbered_folders as [|numbered rest IH]; intros w current_path w' H.
  - simpl in H. injection H as <-. split; [apply keeps_refl|]. split; [constructor|].
    intros w2 _. reflexivity.
  - cbn [create_numbered] in *.
    destruct (ensure_dir path_exists makedirs w (Path.join current_path numbered))
      as [w1 [e|]] eqn:E1; [discriminate|].
    apply ensure_dir_done in E1 as [Hex Hk1].
    apply IH in H as (Hk & Hall & Hagain).
    split; [exact (keeps_trans _ _ _ Hk1 Hk)|].
    split; [constructor; [apply (proj1 Hk), Hex|exact Hall]|].
    intros w2 Hk2. rewrite ensure_dir_again by (apply (proj1 Hk2), (proj1 Hk), Hex).
    apply Hagain. exact Hk2.
Qed.

(** X5. When [create_custom_hierarchy] reports success, the path of the
    innermost folder of the hierarchy and the path of every numbered
    folder in it exist.  Every path that the call has added is a
    directory; a path that existed before is left as it was, directory or
    not, since the code only asks whether it exists.  Nothing that existed
    is gone, and a second call with the same arguments changes nothing and
    reports the same success. *)
Theorem create_custom_hierarchy_idempotent (w : world) (base_path hierarchy : string)
    (num_folders : Z) (w' : world) (message : string) :
  create_custom_hierarchy path_exists makedirs w base_path hierarchy num_folders
  = (w', (true, message)) ->
  let leaf := nested_path base_path (parse_folder_hierarchy hierarchy) in
  path_exists w' leaf = true
  /\ (forall numbered, numbered ∈ generate_numbered_folder_names num_folders ->
        path_exists w' (Path.join leaf numbered) = true)
  /\ (forall q, path_exists w q = false -> path_exists w' q = true -> isdir w' q = true)
  /\ (forall q, path_exists w q = true -> path_exists w' q = true)
  /\ create_custom_hierarchy path_exists makedirs w' base_path hierarchy num_folders
     = (w', (true, message)).
Proof.
  unfold create_custom_hierarchy.
  destruct (parse_folder_hierarchy hierarchy) as [|f fs] eqn:Ep; [discriminate|].
  destruct (create_nested path_exists makedirs w base_path (f :: fs)) as [w1 [leaf|e]] eqn:E1;
    [|discriminate].
  apply create_nested_done in E1 as (Hk1 & Hleaf & Hlast & Hagain1).
  specialize (Hlast ltac:(discriminate)). subst leaf.
  destruct (0 <? num_folders) eqn:En.
  - destruct (create_numbered path_exists makedirs w1 (nested_path base_path (f :: fs))
                (generate_numbered_folder_names num_folders)) as [w2 [e|]] eqn:E2;
      [discriminate|].
    intros H. injection H as <- <-.
    apply create_numbered_done in E2 as (Hk2 & Hall & Hagain2).
    pose proof (keeps_trans _ _ _ Hk1 Hk2) as (He & _ & Hn).
    cbv zeta. split; [apply (proj1 Hk2), Hlast|].
    split; [rewrite Forall_forall in Hall; exact Hall|].
    split; [exact Hn|]. split; [exact He|].
    rewrite (Hagain1 w2 Hk2), (Hagain2 w2) by apply keeps_refl. reflexivity.
  - intros H. injection H as <- <-. cbv zeta. split; [exact Hlast|].
    split.
    { unfold generate_numbered_folder_names. apply Z.ltb_ge in En.
      destruct (num_folders <=? 0) eqn:E0; [|apply Z.leb_gt in E0; lia].
      intros numbered Hn. inversion Hn. }
    destruct Hk1 as (He & Hd & Hn).
    split; [exact Hn|]. split; [exact He|].
    rewrite (Hagain1 w1) by apply keeps_refl. reflexivity.
Qed.

End HierarchyFacts.

Lemma create_custom_hierarchy_idempotent_witness :
  let w' := ["/data/TMC/con_/002"; "/data/TMC/con_/001"; "/data/TMC/con_"; "/data/TMC";
             "/data"] in
  create_custom_hierarchy dirs_exists dirs_makedirs ["/data"] "/data" "TMC - con" 2
  = (w', (true, "Successfully created hierarchy:" +:+ String "010"
                  "TMC → con (with 2 numbered folders)"))
  /\ dirs_exists w' "/data/TMC/con_" = true
  /\ create_custom_hierarchy dirs_exists dirs_makedirs w' "/data" "TMC - con" 2
     = (w', (true, "Successfully created hierarchy:" +:+ String "010"
                     "TMC → con (with 2 numbered folders)")).
Proof.
  assert (H : create_custom_hierarchy dirs_exists dirs_makedirs ["/data"] "/data" "TMC - con" 2
              = (["/data/TMC/con_/002"; "/data/TMC/con_/001"; "/data/TMC/con_"; "/data/TMC";
                  "/data"],
                 (true, "Successfully created hierarchy:" +:+ String "010"
                          "TMC → con (with 2 numbered folders)")))
    by (vm_compute; reflexivity).
  split; [exact H|].
  pose proof (create_custom_hierarchy_idempotent dirs_exists dirs_makedirs dirs_exists) as T.
  specialize (T ltac:(unfold dirs_makedirs, dirs_exists; intros w path w' E; injection E as <-;
                      simpl; rewrite String.eqb_refl; reflexivity)).
  specialize (T ltac:(unfold dirs_makedirs, dirs_exists; intros w path w' r q E Hq;
                      injection E as <- <-; simpl; rewrite Hq; apply orb_true_r)).
  specialize (T ltac:(intros w path w' r q E _ Hq; exact Hq)).
  specialize (T ltac:(unfold dirs_makedirs, dirs_exists; intros w path w' r q E Hq;
                      injection E as <- <-; simpl; rewrite Hq; apply orb_true_r)).
  destruct (T _ _ _ _ _ _ H) as (Hleaf & _ & _ & _ & Hagain).
  split; [exact Hleaf|exact Hagain].
Defined.

(* ===================================================================== *)
(** ** Placeholder files *)
(* ===================================================================== *)

Lemma create_placeholders_from_outcome {world : Type}
    (open_w : world -> string -> world * option string) directory pattern_data missing_numbers :
  forall w created_files,
    let paths := placeholder_path directory pattern_data <$> missing_numbers in
    let names := placeholder_name pattern_data <$> missing_numbers in
    exists k : nat,
      (k <= length missing_numbers)%nat
      /\ (forall i path, (i < k)%nat -> paths !! i = Some path ->
            (open_w (opened open_w w (take i paths)) path).2 = None)
      /\ (k = length missing_numbers
          /\ create_placeholders_from open_w w directory pattern_data missing_numbers
               created_files
             = (opened open_w w paths,
                (true,
                 "Created " +:+ str_of_nat (length created_files + length missing_numbers)
                 +:+ " placeholder files",
                 (created_files ++ names)%list))
          \/ exists path e,
               paths !! k = Some path
               /\ (open_w (opened open_w w (take k paths)) path).2 = Some e
               /\ create_placeholders_from open_w w directory pattern_data missing_numbers
                    created_files
                  = ((open_w (opened open_w w (take k paths)) path).1,
                     (false, "Error creating placeholders: " +:+ e,
                      (created_files ++ take k names)%list))).
Proof.
  induction missing_numbers as [|num rest IH]; intros w created_files; cbv zeta.
  - exists 0%nat. split; [reflexivity|]. split; [intros i path Hi; lia|].
    left. split; [reflexivity|]. cbn. rewrite app_nil_r, Nat.add_0_r. reflexivity.
  - cbn [create_placeholders_from fmap list_fmap].
    fold (placeholder_path directory pattern_data num).
    destruct (open_w w (placeholder_path directory pattern_data num)) as [w1 [e|]] eqn:E.
    + exists 0%nat. split; [cbn; lia|]. split; [intros i path Hi; lia|].
      right. exists (placeholder_path directory pattern_data num), e.
      cbn [take opened foldl lookup list_lookup]. rewrite E. cbn [fst snd].
      rewrite app_nil_r. repeat split; reflexivity.
    + destruct (IH w1 (created_files ++ [placeholder_name pattern_data num])%list)
        as (k & Hk & Hbefore & Hend).
      cbv zeta in Hbefore, Hend.
      assert (Hstep : forall paths,
                 opened open_w w (placeholder_path directory pattern_data num :: paths)
                 = opened open_w w1 paths).
      { intros paths. unfold opened. cbn [foldl]. rewrite E. reflexivity. }
      exists (S k). split; [cbn; lia|]. split.
      * intros [|i] path Hi Hpath.
        -- cbn in Hpath. injection Hpath as <-. cbn [take]. unfold opened. cbn [foldl].
           rewrite E. reflexivity.
        -- cbn [take]. rewrite Hstep. apply Hbefore; [lia|exact Hpath].
      * destruct Hend as [[-> Hrun]|(path & e & Hpath & He & Hrun)].
        -- left. split; [reflexivity|]. rewrite Hrun, Hstep.
           rewrite length_app, <- app_assoc. cbn [length app].
           replace (length created_files + 1 + length rest)%nat
             with (length created_files + S (length rest))%nat by lia.
           reflexivity.
        -- right. exists path, e. cbn [take lookup list_lookup]. rewrite Hstep.
           split; [exact Hpath|]. split; [exact He|].
           rewrite Hrun, <- app_assoc. reflexivity.
Qed.

(** X6. [create_placeholder_files] creates the files of the missing
    numbers in order and stops at the first that cannot be created.
    There is a number [k] of files created, each one in the state that the
    files before it left.  Either [k] is the number of all the files: then
    the call reports success, with that number in the message, returns all
    the names and leaves the state in which all the files are created.  Or
    creating the next file raises: then the call reports the failure with
    the text of the exception, returns the names of the [k] files created
    before, and leaves the state of the failed attempt. *)
Theorem create_placeholder_files_outcome {world : Type}
    (open_w : world -> string -> world * option string) (w : world) (directory : string)
    (pattern_data : pattern_data) (missing_numbers : list Z) :
  let paths := placeholder_path directory pattern_data <$> missing_numbers in
  let names := placeholder_name pattern_data <$> missing_numbers in
  exists k : nat,
    (k <= length missing_numbers)%nat
    /\ (forall i path, (i < k)%nat -> paths !! i = Some path ->
          (open_w (opened open_w w (take i paths)) path).2 = None)
    /\ (k = length missing_numbers
        /\ create_placeholder_files open_w w directory pattern_data missing_numbers
           = (opened open_w w paths,
              (true,
               "Created " +:+ str_of_nat (length missing_numbers) +:+ " placeholder files",
               names))
        \/ exists path e,
             paths !! k = Some path
             /\ (open_w (opened open_w w (take k paths)) path).2 = Some e
             /\ create_placeholder_files open_w w directory pattern_data missing_numbers
                = ((open_w (opened open_w w (take k paths)) path).1,
                   (false, "Error creating placeholders: " +:+ e, take k names))).
Proof.
  cbv zeta. unfold create_placeholder_files.
  destruct (create_placeholders_from_outcome open_w directory pattern_data missing_numbers w [])
    as (k & Hk & Hbefore & Hend).
  exists k. split; [exact Hk|]. split; [exact Hbefore|]. exact Hend.
Qed.

(* ===================================================================== *)
(** ** Extensions *)
(* ===================================================================== *)

Lemma append_cons c a b : String c a +:+ b = String c (a +:+ b).
Proof. reflexivity. Qed.

Lemma append_assoc_s a b c : (a +:+ b) +:+ c = a +:+ (b +:+ c).
Proof. induction a as [|x a IH]; [reflexivity|]. rewrite !append_cons, IH. reflexivity. Qed.

Lemma substring_suffix a b :
  String.substring (String.length a) (String.length b) (a +:+ b) = b.
Proof.
  induction a as [|c a IH].
  - change ("" +:+ b) with b. cbn [String.length].
    induction b as [|d b IHb]; [reflexivity|].
    cbn [String.length String.substring]. rewrite IHb. reflexivity.
  - rewrite append_cons. cbn [String.length String.substring]. exact IH.
Qed.

Lemma slice_to_app a b : slice_to (a +:+ b) (len a) = a.
Proof.
  unfold slice_to, slice, len. rewrite Z.sub_0_r, Nat2Z.id. apply substring_prefix.
Qed.

Lemma slice_from_app a b : slice_from (a +:+ b) (len a) = b.
Proof.
  unfold slice_from, slice, len. rewrite Nat2Z.id, app_length_s.
  replace (Z.to_nat (Z.of_nat (String.length a + String.length b) - Z.of_nat (String.length a)))
    with (String.length b) by lia.
  apply substring_suffix.
Qed.

Lemma rfind_from_app c a s :
  forall i found,
    rfind_from c (a +:+ s) i found = rfind_from c s (i + len a) (rfind_from c a i found).
Proof.
  induction a as [|d a IH]; intros i found.
  - simpl. change (len "") with 0. rewrite Z.add_0_r. reflexivity.
  - rewrite append_cons. cbn [rfind_from]. rewrite IH. unfold len. cbn [String.length].
    f_equal. lia.
Qed.

Lemma rfind_from_upper c s :
  forall i found, found < i -> rfind_from c s i found < i + len s.
Proof.
  induction s as [|d s IH]; intros i found H.
  - simpl. change (len "") with 0. lia.
  - cbn [rfind_from]. unfold len in *. cbn [String.length].
    specialize (IH (i + 1) (if eqb_c d c then i else found)).
    destruct (eqb_c d c); lia.
Qed.

(** where the last occurrence of a character is *)
Lemma rfind_from_cases c s :
  forall i found,
    (rfind_from c s i found = found /\ contains c s = false)
    \/ exists a b, s = a +:+ String c b /\ rfind_from c s i found = i + len a
                   /\ contains c b = false.
Proof.
  induction s as [|d s IH]; intros i found.
  - left. split; reflexivity.
  - cbn [rfind_from].
    destruct (IH (i + 1) (if eqb_c d c then i else found)) as [[Hr Hc]|(a & b & -> & Hr & Hb)].
    + destruct (eqb_c d c) eqn:E.
      * right. apply Ascii.eqb_eq in E. subst d. exists "", s.
        split; [reflexivity|]. split; [|exact Hc]. change (len "") with 0. lia.
      * left. split; [exact Hr|]. unfold contains in *. simpl.
        unfold eqb_c in *. rewrite Ascii.eqb_sym, E. exact Hc.
    + right. exists (String d a), b. split; [reflexivity|]. split; [|exact Hb].
      rewrite Hr. unfold len. cbn [String.length]. lia.
Qed.

(** [os.path.splitext] cuts the path in two; the extension is empty, or a
    dot followed by characters that are neither dots nor slashes *)
Lemma splitext_cases p :
  exists root ext,
    Path.splitext p = (root, ext) /\ p = root +:+ ext /\ extension ext.
Proof.
  unfold Path.splitext, rfind.
  destruct ((rfind_from "/" p 0 (-1) <? rfind_from "." p 0 (-1))
            && sany (fun c => negb (eqb_c c ".")) (slice p (rfind_from "/" p 0 (-1) + 1)
                                                     (rfind_from "." p 0 (-1)))) eqn:E.
  - apply andb_true_iff in E as [E _]. apply Z.ltb_lt in E.
    pose proof (rfind_from_lower "/" p (-1) 0 (-1) ltac:(lia) ltac:(lia)) as Hlow.
    destruct (rfind_from_cases "." p 0 (-1)) as [[Hr _]|(a & b & -> & Hr & Hb)]; [lia|].
    rewrite Hr in *. rewrite Z.add_0_l in *.
    exists a, (String "." b). rewrite slice_to_app, slice_from_app.
    split; [reflexivity|]. split; [reflexivity|]. right. exists b.
    split; [reflexivity|]. split; [exact Hb|].
    rewrite rfind_from_app in E. cbn [rfind_from] in E.
    change (eqb_c "." "/") with false in E. cbv iota in E.
    destruct (rfind_from_cases "/" b (0 + len a + 1) (rfind_from "/" a 0 (-1)))
      as [[_ Hc]|(a' & b' & _ & Hr' & _)]; [exact Hc|].
    rewrite Hr' in E. unfold len in *. lia.
  - exists p, "". split; [reflexivity|]. split; [symmetry; apply append_empty_r|].
    left. reflexivity.
Qed.

Lemma slice_from_tail c s : slice_from (String c s) 1 = s.
Proof.
  unfold slice_from, slice, len. cbn [String.length].
  replace (Z.to_nat (Z.of_nat (S (String.length s)) - 1)) with (String.length s) by lia.
  change (Z.to_nat 1) with 1%nat. cbn [String.substring].
  apply (substring_suffix "" s).
Qed.

Lemma upper_c_idem c : upper_c (upper_c c) = upper_c c.
Proof. each_char c. Qed.

Lemma upper_idem s : upper (upper s) = upper s.
Proof.
  unfold upper. induction s as [|c s IH]; [reflexivity|].
  simpl. rewrite upper_c_idem, IH. reflexivity.
Qed.

Lemma upper_c_slash c : eqb_c "/" (upper_c c) = eqb_c "/" c.
Proof. each_char c. Qed.

Lemma contains_upper_slash s : contains "/" (upper s) = contains "/" s.
Proof. unfold contains, upper. apply sany_smap. apply upper_c_slash. Qed.

Lemma upper_nonempty s : s <> "" -> upper s <> "".
Proof. destruct s; [contradiction|discriminate]. Qed.

(** X7. For a file name of ASCII characters, [by_extension] never raises,
    and the folder it names is not empty, is no reserved device name, and
    has no lowercase letter, no dot and no slash; a file without extension
    goes to "_NOEXT". *)
Theorem by_extension_folder (filename : string) :
  ascii_only filename = true ->
  exists folder,
    by_extension filename = Ok folder
    /\ folder <> "" /\ ~ reserved folder /\ upper folder = folder
    /\ contains "." folder = false /\ contains "/" folder = false
    /\ (slice_from (Path.splitext filename).2 1 = "" -> folder = "_NOEXT").
Proof.
  intros _. unfold by_extension.
  destruct (splitext_cases filename) as (root & ext & -> & _ & Hext). cbn [snd].
  assert (Hnoext : exists folder,
            sanitize_folder_name "_NOEXT" = Ok folder
            /\ folder <> "" /\ ~ reserved folder /\ upper folder = folder
            /\ contains "." folder = false /\ contains "/" folder = false
            /\ folder = "_NOEXT").
  { exists "_NOEXT". split; [vm_compute; reflexivity|].
    split; [discriminate|]. split.
    - rewrite reserved_iff. vm_compute. intros H.
      repeat (apply elem_of_cons in H as [H|H]; [discriminate|]). inversion H.
    - repeat split; reflexivity. }
  destruct Hext as [->|(b & -> & Hdot & Hslash)].
  - change (slice_from "" 1) with "". cbn [String.eqb negb].
    destruct Hnoext as (folder & H1 & H2 & H3 & H4 & H5 & H6 & H7).
    exists folder. repeat split; try assumption. intros _. assumption.
  - rewrite slice_from_tail. destruct b as [|c b].
    + cbn [String.eqb negb].
      destruct Hnoext as (folder & H1 & H2 & H3 & H4 & H5 & H6 & H7).
      exists folder. repeat split; try assumption. intros _. assumption.
    + change (negb (String.eqb (String c b) "")) with true. cbv iota.
      set (ext := String c b) in *.
      assert (Hne : upper ext <> "") by (apply upper_nonempty; discriminate).
      assert (Hd : contains "." (upper ext) = false) by (rewrite contains_upper_dot; exact Hdot).
      assert (Hs : contains "/" (upper ext) = false) by (rewrite contains_upper_slash; exact Hslash).
      destruct (sanitize_folder_name_cases (upper ext)) as [[-> Hr]|[-> _]].
      * exists (upper ext). repeat split; try assumption; try apply upper_idem.
        intros H. discriminate.
      * exists (upper ext +:+ "_"). split; [reflexivity|].
        split; [apply append_nonempty; discriminate|].
        split; [apply underscore_not_reserved|].
        split; [rewrite upper_app, upper_idem; reflexivity|].
        split; [rewrite contains_app, Hd; reflexivity|].
        split; [rewrite contains_app, Hs; reflexivity|].
        intros H. discriminate.
Qed.

Lemma by_extension_folder_witness :
  ascii_only "holiday.jpeg" = true
  /\ exists folder,
       by_extension "holiday.jpeg" = Ok folder
       /\ folder <> "" /\ ~ reserved folder /\ upper folder = folder
       /\ contains "." folder = false /\ contains "/" folder = false
       /\ (slice_from (Path.splitext "holiday.jpeg").2 1 = "" -> folder = "_NOEXT").
Proof. split; [reflexivity|]. apply (by_extension_folder "holiday.jpeg"). reflexivity. Defined.

(** X8. For a file name of ASCII characters, [by_alphabet] raises
    [IndexError] on the empty name and only there; otherwise the folder is
    one uppercase letter, "0-9" or "!@#$", and the case of the first letter
    does not matter. *)
Theorem by_alphabet_folder (filename : string) :
  ascii_only filename = true ->
  (by_alphabet filename = Raise IndexError <-> filename = "")
  /\ (forall folder, by_alphabet filename = Ok folder ->
        folder = "0-9" \/ folder = "!@#$"
        \/ exists c, folder = String c "" /\ isupper_c c = true)
  /\ by_alphabet (lower filename) = by_alphabet filename
  /\ by_alphabet (upper filename) = by_alphabet filename.
Proof.
  intros _. destruct filename as [|c s].
  - repeat split; try reflexivity. intros folder H. discriminate.
  - unfold by_alphabet, lower, upper. cbn [smap].
    assert (Hu : isalpha_c (upper_c c) = true -> isupper_c (upper_c c) = true)
      by (each_char c).
    assert (Hl : upper_c (lower_c c) = upper_c c) by (each_char c).
    rewrite Hl, upper_c_idem.
    split; [split; [|discriminate]|].
    { destruct (isalpha_c (upper_c c)); [discriminate|].
      destruct (isdigit_c (upper_c c)); discriminate. }
    split; [|split; reflexivity].
    intros folder. destruct (isalpha_c (upper_c c)) eqn:Ea.
    + intros H. injection H as <-. right. right. exists (upper_c c).
      split; [reflexivity|apply Hu; reflexivity].
    + destruct (isdigit_c (upper_c c)); intros H; injection H as <-; tauto.
Qed.

Lemma by_alphabet_folder_witness :
  ascii_only "apple.txt" = true
  /\ (by_alphabet "apple.txt" = Raise IndexError <-> "apple.txt" = "")
  /\ (forall folder, by_alphabet "apple.txt" = Ok folder ->
        folder = "0-9" \/ folder = "!@#$"
        \/ exists c, folder = String c "" /\ isupper_c c = true)
  /\ by_alphabet (lower "apple.txt") = by_alphabet "apple.txt"
  /\ by_alphabet (upper "apple.txt") = by_alphabet "apple.txt".
Proof. split; [reflexivity|]. apply (by_alphabet_folder "apple.txt"). reflexivity. Defined.

(** X9. For a file name of ASCII characters, [by_numeric_simple] names
    "!@#$" or a folder of one character; that character is no white space,
    none of the characters that Windows forbids in a name, and no lowercase
    letter. *)
Theorem by_numeric_simple_folder (filename : string) :
  ascii_only filename = true ->
  by_numeric_simple filename = "!@#$"
  \/ exists c, by_numeric_simple filename = String c ""
       /\ mem_c c whitespace = false /\ mem_c c forbidden_first = false
       /\ islower_c c = false.
Proof.
  intros _. unfold by_numeric_simple.
  destruct (lstrip_cases whitespace filename) as [->|(c & t & -> & Hc)]; [left; reflexivity|].
  destruct (mem_c c forbidden_first) eqn:Ef; [left; reflexivity|].
  right. destruct (isdigit_c c) eqn:Ed.
  - exists c. repeat split; try assumption. revert Ed. clear. each_char c.
  - destruct (isalpha_c c) eqn:Ea.
    + exists (upper_c c). split; [reflexivity|]. revert Ea Hc Ef. clear.
      destruct c as [[] [] [] [] [] [] [] []]; vm_compute; intros; repeat split; congruence.
    + exists c. repeat split; try assumption. revert Ea. clear. each_char c.
Qed.

Lemma by_numeric_simple_folder_witness :
  ascii_only "  zeta.txt" = true
  /\ (by_numeric_simple "  zeta.txt" = "!@#$"
      \/ exists c, by_numeric_simple "  zeta.txt" = String c ""
           /\ mem_c c whitespace = false /\ mem_c c forbidden_first = false
           /\ islower_c c = false).
Proof.
  split; [reflexivity|]. apply (by_numeric_simple_folder "  zeta.txt"). reflexivity.
Defined.

(* ===================================================================== *)
(** ** Splitting a numbered name *)
(* ===================================================================== *)

Lemma ends_with_split q s :
  ends_with q s = true -> exists a d, s = a +:+ String d "" /\ q d = true.
Proof.
  induction s as [|c s IH]; [discriminate|].
  destruct s as [|c' s'].
  - simpl. intros H. exists "", c. split; [reflexivity|exact H].
  - intros H. change (ends_with q (String c' s') = true) in H.
    destruct (IH H) as (a & d & E & Hd). exists (String c a), d.
    rewrite append_cons, <- E. split; [reflexivity|exact Hd].
Qed.

Lemma substring_hit q a :
  forall k m d b,
    q d = true -> (k <= String.length a < k + m)%nat ->
    sany q (String.substring k m (a +:+ String d b)) = true.
Proof.
  induction a as [|c a IH]; intros k m d b Hd Hk.
  - change ("" +:+ String d b) with (String d b). cbn [String.length] in Hk.
    destruct k; [|lia]. destruct m; [lia|].
    cbn [String.substring sany]. rewrite Hd. reflexivity.
  - rewrite append_cons. cbn [String.length] in Hk. destruct k as [|k].
    + destruct m as [|m]; [lia|]. cbn [String.substring sany].
      rewrite (IH 0%nat m) by (assumption || lia). apply orb_true_r.
    + cbn [String.substring]. apply IH; [assumption|lia].
Qed.

(** a stem that ends with a character other than a dot and a slash, and an
    extension, are what [os.path.splitext] finds in their concatenation *)
Lemma splitext_stem stem ext :
  ends_with plain_char stem = true ->
  (ext = "" -> contains "." stem = false) ->
  extension ext ->
  Path.splitext (stem +:+ ext) = (stem, ext).
Proof.
  intros Hend Hplain [->|(b & -> & Hdot & Hslash)].
  - rewrite append_empty_r. apply splitext_no_dot. apply Hplain. reflexivity.
  - destruct (ends_with_split _ _ Hend) as (a & d & -> & Hd).
    unfold plain_char in Hd. apply andb_true_iff in Hd as [Hd1 Hd2].
    apply negb_true_iff in Hd1, Hd2.
    unfold Path.splitext, rfind.
    assert (Edot : rfind_from "." ((a +:+ String d "") +:+ String "." b) 0 (-1)
                   = len (a +:+ String d "")).
    { rewrite rfind_from_app. cbn [rfind_from]. change (eqb_c "." ".") with true. cbv iota.
      rewrite rfind_from_absent by exact Hdot. lia. }
    assert (Esep : rfind_from "/" ((a +:+ String d "") +:+ String "." b) 0 (-1)
                   = rfind_from "/" a 0 (-1)).
    { rewrite rfind_from_app. cbn [rfind_from]. change (eqb_c "." "/") with false. cbv iota.
      rewrite rfind_from_absent by exact Hslash.
      rewrite rfind_from_app. cbn [rfind_from]. rewrite Hd2. reflexivity. }
    rewrite Edot, Esep.
    pose proof (rfind_from_upper "/" a 0 (-1) ltac:(lia)) as Hup.
    pose proof (rfind_from_lower "/" a (-1) 0 (-1) ltac:(lia) ltac:(lia)) as Hlow.
    rewrite len_app in *. change (len (String d "")) with 1 in *.
    rewrite (proj2 (Z.ltb_lt _ _)) by lia.
    assert (Hany : sany (fun c => negb (eqb_c c "."))
                     (slice ((a +:+ String d "") +:+ String "." b)
                        (rfind_from "/" a 0 (-1) + 1) (len a + 1)) = true).
    { unfold slice. rewrite append_assoc_s. rewrite append_cons.
      apply substring_hit; [rewrite Hd1; reflexivity|]. unfold len in *. lia. }
    rewrite Hany. cbn [andb].
    replace (len a + 1) with (len (a +:+ String d "")) by (rewrite len_app; reflexivity).
    rewrite slice_to_app, slice_from_app. reflexivity.
Qed.

(* ===================================================================== *)
(** ** Keys of the user mappings *)
(* ===================================================================== *)

Lemma stem_char_not_space c : stem_char c = true -> negb (mem_c c whitespace) = true.
Proof. each_char c. Qed.

Lemma stem_char_is_plain c : stem_char c = true -> plain_char c = true.
Proof. each_char c. Qed.

Lemma sub_dup_marker_plain s : sall stem_char s = true -> sub_empty re_dup_marker s = s.
Proof.
  intros H. apply (sub_empty_absent (eqb_c "(")); [vm_compute; reflexivity|].
  eapply sall_not_sany; [|exact H]. intros c Hc. apply stem_char_plain. exact Hc.
Qed.

Lemma numbered_stem pre sep digits :
  sall name_char pre = true -> dash_us sep = true ->
  digits <> "" -> sall isdigit_c digits = true ->
  sall stem_char (pre +:+ String sep digits) = true
  /\ ends_with plain_char (pre +:+ String sep digits) = true.
Proof.
  intros Hpre Hsep Hne Hds.
  assert (Hstem : sall stem_char (pre +:+ String sep digits) = true).
  { rewrite sall_app. cbn [sall].
    rewrite (sall_impl name_char stem_char pre name_is_stem Hpre).
    rewrite (name_is_stem sep (dash_us_is_name sep Hsep)).
    rewrite (sall_impl isdigit_c stem_char digits digit_is_stem Hds). reflexivity. }
  split; [exact Hstem|].
  apply ends_with_all.
  - apply append_nonempty. discriminate.
  - eapply sall_impl; [|exact Hstem]. apply stem_char_is_plain.
Qed.

(** X10. [make_key] ignores the sequence number and the extension of a
    numbered name: for words of letters, hyphens and underscores followed by
    a hyphen or underscore and a number, the key is the words and that
    delimiter in lowercase. *)
Theorem make_key_numbered (pre digits ext : string) (sep : ascii) :
  sall name_char pre = true -> dash_us sep = true ->
  digits <> "" -> sall isdigit_c digits = true ->
  extension ext ->
  make_key ((pre +:+ String sep digits) +:+ ext) = lower (pre +:+ String sep "").
Proof.
  intros Hpre Hsep Hne Hds Hext.
  destruct (numbered_stem pre sep digits Hpre Hsep Hne Hds) as [Hstem Hend].
  unfold make_key. rewrite splitext_stem; [|exact Hend| |exact Hext].
  2: { intros _. eapply sall_not_sany; [|exact Hstem].
       intros c Hc. apply stem_char_plain. exact Hc. }
  cbn [fst]. rewrite sub_dup_marker_plain by exact Hstem.
  rewrite sub_seq_suffix_numbered by assumption.
  rewrite strip_plain; [reflexivity|].
  rewrite sall_app. cbn [sall].
  rewrite (sall_impl name_char _ pre (fun c Hc => stem_char_not_space c (name_is_stem c Hc)) Hpre).
  rewrite (stem_char_not_space sep (name_is_stem sep (dash_us_is_name sep Hsep))). reflexivity.
Qed.

Lemma make_key_numbered_witness :
  make_key "Summer_Trip-001.jpg" = "summer_trip-"
  /\ make_key "Summer_Trip-2024.png" = make_key "Summer_Trip-001.jpg".
Proof.
  assert (Hjpg : extension ".jpg") by (right; exists "jpg"; repeat split; reflexivity).
  assert (Hpng : extension ".png") by (right; exists "png"; repeat split; reflexivity).
  pose proof (make_key_numbered "Summer_Trip" "001" ".jpg" "-" eq_refl eq_refl
                ltac:(discriminate) eq_refl Hjpg) as H1.
  pose proof (make_key_numbered "Summer_Trip" "2024" ".png" "-" eq_refl eq_refl
                ltac:(discriminate) eq_refl Hpng) as H2.
  split; [exact H1|].
  transitivity (lower ("Summer_Trip" +:+ String "-" "")); [exact H2|symmetry; exact H1].
Defined.

(** X11. An answer typed into the dialog of [by_detected_or_prompt] is
    stored, stripped, under the key of the file name, before the mappings
    are saved: the call returns the stored folder when [save_mappings]
    returns, and lets the exception pass when it raises.  Either way, from
    then on every file name with the same key gets that folder: the dialog
    is not opened, the detector is not consulted, nothing is saved and the
    mappings do not change. *)
Theorem by_detected_or_prompt_remembers (askstring : string -> option string)
    (save_mappings : gmap string string -> bool)
    (user_map : gmap string string) (filename answer : string) :
  user_map !! make_key filename = None ->
  miss (detect_folder_name filename) ->
  askstring filename = Some answer -> answer <> "" ->
  let user_map' := <[make_key filename := strip answer]> user_map in
  by_detected_or_prompt askstring save_mappings user_map filename true
  = (if save_mappings user_map' then Ok (Some (strip answer)) else Raise Exception,
     user_map')
  /\ forall askstring' save_mappings' other allow_prompt,
       make_key other = make_key filename ->
       by_detected_or_prompt askstring' save_mappings' user_map' other allow_prompt
       = (Ok (Some (strip answer)), user_map').
Proof.
  intros Hnew (o & Hdet & Ho) Hask Hne. cbv zeta. split.
  - unfold by_detected_or_prompt, dict_has, dict_get.
    rewrite Hnew. rewrite bool_decide_eq_false_2 by (intros [x Hx]; discriminate).
    rewrite Hdet, Ho, Hask.
    destruct answer; [contradiction|]. cbn [truthy].
    rewrite lookup_insert_eq. destruct (save_mappings _); reflexivity.
  - intros askstring' save_mappings' other allow_prompt Hkey.
    unfold by_detected_or_prompt, dict_has, dict_get. rewrite Hkey.
    rewrite lookup_insert_eq. rewrite bool_decide_eq_true_2 by (eexists; reflexivity).
    reflexivity.
Qed.

Lemma by_detected_or_prompt_remembers_witness :
  let askstring := fun _ : string => Some " Holiday " in
  by_detected_or_prompt askstring (fun _ => true) ∅ "beach.jpg" true
  = (Ok (Some "Holiday"), {[ "beach" := "Holiday" ]})
  /\ by_detected_or_prompt askstring (fun _ => false) ∅ "beach.jpg" true
     = (Raise Exception, {[ "beach" := "Holiday" ]})
  /\ by_detected_or_prompt (fun _ => None) (fun _ => false) {[ "beach" := "Holiday" ]}
       "Beach (2).png" false
     = (Ok (Some "Holiday"), {[ "beach" := "Holiday" ]}).
Proof.
  assert (Hmiss : miss (detect_folder_name "beach.jpg")).
  { exists None. split; vm_compute; reflexivity. }
  destruct (by_detected_or_prompt_remembers (fun _ => Some " Holiday ") (fun _ => true) ∅
              "beach.jpg" " Holiday "
              (lookup_empty _) Hmiss eq_refl ltac:(discriminate)) as [H1 H2].
  destruct (by_detected_or_prompt_remembers (fun _ => Some " Holiday ") (fun _ => false) ∅
              "beach.jpg" " Holiday "
              (lookup_empty _) Hmiss eq_refl ltac:(discriminate)) as [H3 _].
  split; [exact H1|]. split; [exact H3|].
  apply (H2 (fun _ => None) (fun _ => false) "Beach (2).png" false). vm_compute. reflexivity.
Defined.

(* ===================================================================== *)
(** ** Reading a numbered name back *)
(* ===================================================================== *)

Section Numbered.

Variable txt : list ascii.

(** a lazy loop over a class stops at the first position where its
    continuation succeeds *)
Lemma lazy_chr_first p (k : cont) caps res a n :
  forall i,
    (i <= a)%nat -> (a - i <= n)%nat ->
    (forall j, (i <= j < a)%nat ->
       k j caps = None /\ exists c, nth_error txt j = Some c /\ p c = true) ->
    k a caps = Some res ->
    lazy_loop (run txt (Chr p)) k n i caps = Some res.
Proof.
  induction n as [|n IH]; intros i Hia Hn Hbefore Hk.
  - assert (i = a) as -> by lia. cbn [lazy_loop]. rewrite Hk. reflexivity.
  - cbn [lazy_loop]. destruct (Nat.eq_dec i a) as [->|Hne]; [rewrite Hk; reflexivity|].
    destruct (Hbefore i) as (Hki & c & Hc & Hp); [lia|].
    rewrite Hki. cbn [run]. rewrite Hc, Hp.
    rewrite (proj2 (Nat.ltb_lt i (S i))) by lia.
    apply IH; [lia|lia| |exact Hk].
    intros j Hj. apply Hbefore. lia.
Qed.

Variable P : nat.

Hypothesis digits_after :
  forall x, (P <= x < length txt)%nat -> exists c, nth_error txt x = Some c /\ isdigit_c c = true.

Hypothesis digits_nonempty : (P < length txt)%nat.

Lemma pure_numeric_match :
  P = 0%nat ->
  match_at txt re_pure_numeric 0 = Some (length txt, [(1%nat, (0%nat, length txt))]).
Proof.
  intros HP. subst P. unfold match_at, re_pure_numeric, Plus, digit. cbn [run Nat.eqb].
  destruct (digits_after 0%nat) as (c & -> & ->); [lia|].
  rewrite (star_chr_to_end txt isdigit_c _ (length txt, [(1%nat, (0%nat, length txt))]));
    [reflexivity| |lia|lia|].
  - intros x Hx. apply digits_after. lia.
  - cbn [run]. rewrite at_end_length. reflexivity.
Qed.

Hypothesis prefix_last :
  exists e c, P = S e /\ nth_error txt e = Some c /\ isdigit_c c = false.

Hypothesis prefix_dots :
  forall x, (x < P)%nat -> exists c, nth_error txt x = Some c /\ eqb_c c "010" = false.

(** a run of digits that starts inside the prefix does not reach the end *)
Lemma digits_blocked (k : cont) caps j :
  (j < P)%nat ->
  (forall j', (j' < P)%nat -> k j' caps = None) ->
  run txt (Plus digit) j caps k = None.
Proof.
  intros Hj Hk. destruct prefix_last as (e & c & -> & Hc & Hd).
  unfold Plus, digit. cbn [run].
  destruct (nth_error txt j) as [d|] eqn:Ed; [|reflexivity].
  destruct (isdigit_c d) eqn:Edd; [|reflexivity].
  assert (j <> e) by (intros ->; congruence).
  apply (star_chr_fail txt isdigit_c _ _ e); [lia| |].
  - intros j' Hj'. apply Hk. lia.
  - intros c' Hc'. congruence.
Qed.

Lemma pure_numeric_fail : match_at txt re_pure_numeric 0 = None.
Proof.
  unfold match_at, re_pure_numeric. cbn [run Nat.eqb].
  destruct prefix_last as (e & c & HP & Hc & Hd).
  apply digits_blocked; [lia|].
  intros j' Hj'. cbn [run]. rewrite at_end_inside by lia. reflexivity.
Qed.

Lemma prefix_number_match :
  match_at txt re_prefix_number 0
  = Some (length txt, [(2%nat, (P, length txt)); (1%nat, (0%nat, P))]).
Proof.
  unfold match_at, re_prefix_number, LazyPlus, dot. cbn [run Nat.eqb].
  destruct prefix_last as (e & c & HP & Hc & Hd).
  destruct (prefix_dots 0%nat) as (c0 & -> & H0); [lia|]. rewrite H0. cbn [negb].
  apply (lazy_chr_first _ _ _ _ P); [lia|lia| |].
  - intros j Hj. split.
    + apply digits_blocked; [lia|].
      intros j' Hj'. cbn [run]. rewrite at_end_inside by lia. reflexivity.
    + destruct (prefix_dots j) as (cj & -> & Hcj); [lia|].
      exists cj. rewrite Hcj. split; reflexivity.
  - unfold Plus, digit. cbn [run].
    destruct (digits_after P) as (d & -> & ->); [lia|].
    rewrite (star_chr_to_end txt isdigit_c _
               (length txt, [(2%nat, (P, length txt)); (1%nat, (0%nat, P))]));
      [reflexivity| |lia|lia|].
    + intros x Hx. apply digits_after. lia.
    + cbn [run]. rewrite at_end_length. reflexivity.
Qed.

End Numbered.

Lemma nth_error_los_app1 a b x :
  (x < String.length a)%nat -> nth_error (los (a +:+ b)) x = nth_error (los a) x.
Proof. intros H. rewrite los_app. apply nth_error_app1. rewrite los_length. exact H. Qed.

Lemma nth_error_los_app2 a b x :
  (String.length a <= x)%nat ->
  nth_error (los (a +:+ b)) x = nth_error (los b) (x - String.length a).
Proof.
  intros H. rewrite los_app, nth_error_app2 by (rewrite los_length; exact H).
  rewrite los_length. reflexivity.
Qed.

Lemma nth_error_los_some p s x :
  sall p s = true -> (x < String.length s)%nat ->
  exists c, nth_error (los s) x = Some c /\ p c = true.
Proof.
  intros Hs Hx. destruct (nth_error_lt_some (los s) x) as [c Hc]; [rewrite los_length; exact Hx|].
  exists c. split; [exact Hc|]. eapply nth_error_los_class; eassumption.
Qed.

Lemma string_length_nonempty s : s <> "" -> (0 < String.length s)%nat.
Proof. destruct s; [contradiction|simpl; lia]. Qed.

(** the digits at the end of a name are what the pure-numeric pattern and
    the prefix pattern read *)
Lemma rmatch_pure_numeric digits :
  digits <> "" -> sall isdigit_c digits = true ->
  exists m, rmatch re_pure_numeric digits = Some m /\ group_str m 1 = Ok digits.
Proof.
  intros Hne Hds. unfold rmatch.
  rewrite (pure_numeric_match (los digits) 0).
  - eexists. split; [reflexivity|]. unfold group_str, group. cbn.
    rewrite los_length, Nat.sub_0_r. exact (f_equal Ok (substring_suffix "" digits)).
  - intros x Hx. rewrite los_length in Hx. apply nth_error_los_some; [exact Hds|lia].
  - rewrite los_length. apply string_length_nonempty. exact Hne.
  - reflexivity.
Qed.

Lemma rmatch_prefix_number prefix digits :
  ends_with (fun c => negb (isdigit_c c)) prefix = true ->
  sall (fun c => negb (eqb_c c "010")) prefix = true ->
  digits <> "" -> sall isdigit_c digits = true ->
  rmatch re_pure_numeric (prefix +:+ digits) = None
  /\ exists m, rmatch re_prefix_number (prefix +:+ digits) = Some m
               /\ group_str m 1 = Ok prefix /\ group_str m 2 = Ok digits.
Proof.
  intros Hend Hdots Hne Hds.
  pose proof (string_length_nonempty digits Hne) as Hlen.
  assert (Hafter : forall x, (String.length prefix <= x < length (los (prefix +:+ digits)))%nat ->
            exists c, nth_error (los (prefix +:+ digits)) x = Some c /\ isdigit_c c = true).
  { intros x Hx. rewrite los_length, app_length_s in Hx.
    rewrite nth_error_los_app2 by lia. apply nth_error_los_some; [exact Hds|lia]. }
  assert (Hsize : (String.length prefix < length (los (prefix +:+ digits)))%nat)
    by (rewrite los_length, app_length_s; lia).
  assert (Hlast : exists e c, String.length prefix = S e
            /\ nth_error (los (prefix +:+ digits)) e = Some c /\ isdigit_c c = false).
  { destruct (ends_with_split _ _ Hend) as (a & d & -> & Hd). apply negb_true_iff in Hd.
    exists (String.length a), d. rewrite app_length_s. cbn [String.length].
    split; [lia|]. split; [|exact Hd].
    rewrite append_assoc_s, nth_error_los_app2, Nat.sub_diag by lia. reflexivity. }
  assert (Hpre : forall x, (x < String.length prefix)%nat ->
            exists c, nth_error (los (prefix +:+ digits)) x = Some c /\ eqb_c c "010" = false).
  { intros x Hx. rewrite nth_error_los_app1 by exact Hx.
    destruct (nth_error_los_some _ _ x Hdots Hx) as (c & Hc & Hn).
    exists c. split; [exact Hc|]. apply negb_true_iff. exact Hn. }
  unfold rmatch. split.
  - rewrite (pure_numeric_fail _ (String.length prefix)); [reflexivity|assumption..].
  - rewrite (prefix_number_match _ (String.length prefix)) by assumption.
    eexists. split; [reflexivity|]. unfold group_str, group. cbn.
    rewrite Nat.sub_0_r, substring_prefix. split; [reflexivity|].
    rewrite los_length, app_length_s.
    replace (String.length prefix + String.length digits - String.length prefix)%nat
      with (String.length digits) by lia.
    rewrite substring_suffix. reflexivity.
Qed.

Lemma digit_is_plain c : isdigit_c c = true -> plain_char c = true.
Proof. each_char c. Qed.

Lemma digit_not_dot c : isdigit_c c = true -> eqb_c "." c = false.
Proof. each_char c. Qed.

(** X12. The placeholder that [create_placeholder_files] names for a number
    is read back by the scanner as that number, in the group it was made
    for: a pure-numeric group when the prefix is empty, and the group of
    the prefix when the prefix ends with a character that is no digit.  The
    padding recorded is the length of the zero-padded numeral. *)
Theorem placeholder_read_back (patterns : gmap string pattern_data) (pd : pattern_data)
    (num : Z) :
  let name := placeholder_name pd num in
  let digits := zfill (str_of_Z num) (pd_padding pd) in
  pd_suffix pd = "" -> extension (pd_extension pd) -> 0 <= num ->
  (pd_extension pd = "" -> contains "." (pd_prefix pd) = false) ->
  (pd_prefix pd = "" ->
     classify_file patterns name
     = Ok (record_file patterns ("PURE_NUMERIC_" +:+ pd_extension pd) name num "" ""
             (len digits) (pd_extension pd) true))
  /\ (ends_with (fun c => negb (isdigit_c c)) (pd_prefix pd) = true ->
      sall (fun c => negb (eqb_c c "010")) (pd_prefix pd) = true ->
      classify_file patterns name
      = Ok (record_file patterns (pd_prefix pd +:+ "_" +:+ pd_extension pd) name num
              (pd_prefix pd) "" (len digits) (pd_extension pd) false))
  /\ len digits = Z.max (pd_padding pd) (len (str_of_Z num))
  /\ int_of digits = num.
Proof.
  intros name digits Hsuffix Hext Hnum Hnodot.
  destruct (zfill_str num (pd_padding pd) Hnum) as (Hlen & Hds & Hval).
  fold digits in Hlen, Hds, Hval.
  assert (Hne : digits <> "").
  { intros E. rewrite E in Hlen. change (len "") with 0 in Hlen.
    pose proof (str_of_Z_nonempty num) as Hs. apply len_pos in Hs. lia. }
  assert (Hname : name = (pd_prefix pd +:+ digits) +:+ pd_extension pd).
  { unfold name, placeholder_name. fold digits. rewrite Hsuffix.
    change ("" +:+ pd_extension pd) with (pd_extension pd).
    rewrite append_assoc_s. reflexivity. }
  assert (Hsplit : Path.splitext name = (pd_prefix pd +:+ digits, pd_extension pd)).
  { rewrite Hname. apply splitext_stem; [| |exact Hext].
    - rewrite ends_with_app_ne by exact Hne. apply ends_with_all; [exact Hne|].
      eapply sall_impl; [|exact Hds]. apply digit_is_plain.
    - intros E. rewrite contains_app, (Hnodot E).
      eapply sall_not_sany; [|exact Hds]. apply digit_not_dot. }
  split; [|split; [|split; [exact Hlen|exact Hval]]].
  - intros Hprefix. unfold classify_file. rewrite Hsplit, Hprefix.
    change ("" +:+ digits) with digits.
    destruct (rmatch_pure_numeric digits Hne Hds) as (m & -> & Hg).
    rewrite Hg. cbn [mbind result_bind]. rewrite Hval. reflexivity.
  - intros Hend Hdots. unfold classify_file. rewrite Hsplit.
    destruct (rmatch_prefix_number (pd_prefix pd) digits Hend Hdots Hne Hds)
      as (-> & m & -> & Hg1 & Hg2).
    rewrite Hg1, Hg2. cbn [mbind result_bind]. rewrite Hval. reflexivity.
Qed.

Lemma placeholder_read_back_witness :
  let pd := PatternData [("IMG_001.jpg", 1); ("IMG_004.jpg", 4)] "IMG_" "" 3 ".jpg" false in
  placeholder_name pd 2 = "IMG_002.jpg"
  /\ classify_file ∅ "IMG_002.jpg"
     = Ok (record_file ∅ "IMG__.jpg" "IMG_002.jpg" 2 "IMG_" "" 3 ".jpg" false).
Proof.
  split; [reflexivity|].
  assert (Hext : extension ".jpg") by (right; exists "jpg"; repeat split; reflexivity).
  pose proof (placeholder_read_back ∅
                (PatternData [("IMG_001.jpg", 1); ("IMG_004.jpg", 4)] "IMG_" "" 3 ".jpg" false)
                2 eq_refl Hext ltac:(lia) ltac:(discriminate)) as (_ & H & _).
  exact (H eq_refl eq_refl).
Defined.

(* ===================================================================== *)
(** ** The verdicts of the duplicate detector *)
(* ===================================================================== *)

Lemma select_size_hash_nil db filename :
  select_size_hash db filename = [] <-> ~ name_recorded db filename.
Proof.
  unfold select_size_hash, name_recorded. split.
  - intros H (r & Hr & Hn). apply fmap_nil_inv in H.
    assert (Hin : In r (List.filter (fun r => String.eqb (h_filename r) filename) db)).
    { apply filter_In. split; [apply list_elem_of_In; exact Hr|]. apply String.eqb_eq. exact Hn. }
    rewrite H in Hin. contradiction.
  - intros H. destruct (List.filter _ db) as [|r l] eqn:E; [reflexivity|].
    exfalso. apply H. exists r.
    assert (Hin : In r (List.filter (fun r => String.eqb (h_filename r) filename) db))
      by (rewrite E; left; reflexivity).
    apply filter_In in Hin as [Hin Hn]. split; [apply list_elem_of_In; exact Hin|].
    apply String.eqb_eq. exact Hn.
Qed.

Lemma select_size_hash_match db filename size file_hash :
  existsb (fun '(existing_size, existing_hash) =>
             String.eqb existing_hash file_hash && (existing_size =? size))
    (select_size_hash db filename) = true
  <-> recorded db filename size file_hash.
Proof.
  unfold select_size_hash, recorded, row_key. rewrite existsb_exists. split.
  - intros ([s h] & Hin & Hm). apply list_elem_of_In, list_elem_of_fmap in Hin as (r & Hr & Hin).
    apply list_elem_of_In, filter_In in Hin as [Hin Hn]. apply String.eqb_eq in Hn.
    apply andb_true_iff in Hm as [Hh Hs]. apply String.eqb_eq in Hh. apply Z.eqb_eq in Hs.
    injection Hr as -> ->. exists r. split; [apply list_elem_of_In; exact Hin|].
    rewrite Hn, Hh, Hs. reflexivity.
  - intros (r & Hr & Hk). injection Hk as Hn Hs Hh.
    exists (h_size r, h_hash r). split.
    + apply list_elem_of_In, list_elem_of_fmap. exists r. split; [reflexivity|].
      apply list_elem_of_In, filter_In. split; [apply list_elem_of_In; exact Hr|].
      apply String.eqb_eq. exact Hn.
    + rewrite Hs, Hh, String.eqb_refl, Z.eqb_refl. reflexivity.
Qed.

Lemma select_size_hash_cons db filename :
  select_size_hash db filename <> [] -> name_recorded db filename.
Proof.
  unfold select_size_hash, name_recorded. intros H.
  destruct (List.filter (fun r => String.eqb (h_filename r) filename) db) as [|r l] eqn:E;
    [contradiction|].
  assert (Hin : In r (List.filter (fun r => String.eqb (h_filename r) filename) db))
    by (rewrite E; left; reflexivity).
  apply filter_In in Hin as [Hin Hn]. exists r. split; [apply list_elem_of_In; exact Hin|].
  apply String.eqb_eq. exact Hn.
Qed.

Lemma recorded_name db filename size file_hash :
  recorded db filename size file_hash -> name_recorded db filename.
Proof.
  intros (r & Hr & Hk). exists r. split; [exact Hr|]. injection Hk as Hn _ _. exact Hn.
Qed.

Section Verdicts.

Variable read_file : string -> read_outcome.

Variable md5_hexdigest : string -> string.

Variable now : string.

(** the three outcomes of [check_duplicate] *)
Lemma check_duplicate_cases db filename size filepath :
  let res := check_duplicate read_file md5_hexdigest now db filename size filepath in
  (res = ((false, ""), db)
   /\ truthy (compute_hash read_file md5_hexdigest filepath) = None)
  \/ exists file_hash,
       truthy (compute_hash read_file md5_hexdigest filepath) = Some file_hash
       /\ ((res = ((false, ""), (db ++ [HashRow filename size file_hash filepath now])%list)
            /\ ~ name_recorded db filename)
           \/ (res = ((true, "DUPES"), db) /\ recorded db filename size file_hash)
           \/ (res = ((true, "DUPE SIZE"),
                      (db ++ [HashRow filename size file_hash filepath now])%list)
               /\ name_recorded db filename /\ ~ recorded db filename size file_hash)).
Proof.
  cbv zeta. unfold check_duplicate.
  assert (Hfresh : forall file_hash,
            ~ recorded db filename size file_hash ->
            insert_or_replace db (HashRow filename size file_hash filepath now)
            = (db ++ [HashRow filename size file_hash filepath now])%list).
  { intros file_hash Hn. unfold insert_or_replace. f_equal.
    apply forallb_filter_id. apply forallb_forall. intros r Hr.
    apply negb_true_iff. destruct (same_key r _) eqn:E; [|reflexivity].
    exfalso. apply Hn. exists r. split; [apply list_elem_of_In; exact Hr|].
    unfold same_key in E. cbn in E.
    apply andb_true_iff in E as [E E3]. apply andb_true_iff in E as [E1 E2].
    apply String.eqb_eq in E1, E3. apply Z.eqb_eq in E2.
    unfold row_key. rewrite E1, E2, E3. reflexivity. }
  destruct (select_size_hash db filename) as [|x l] eqn:Es.
  - apply select_size_hash_nil in Es.
    destruct (truthy (compute_hash read_file md5_hexdigest filepath)) as [file_hash|];
      [|left; split; reflexivity].
    right. exists file_hash. split; [reflexivity|]. left.
    rewrite Hfresh by (intros H; apply Es; eapply recorded_name; exact H).
    split; [reflexivity|exact Es].
  - assert (Hname : name_recorded db filename).
    { apply select_size_hash_cons. rewrite Es. discriminate. }
    destruct (truthy (compute_hash read_file md5_hexdigest filepath)) as [file_hash|];
      [|left; split; reflexivity].
    right. exists file_hash. split; [reflexivity|]. right.
    rewrite <- Es.
    destruct (existsb _ (select_size_hash db filename)) eqn:Ee.
    + left. split; [reflexivity|]. apply select_size_hash_match. exact Ee.
    + right. assert (Hn : ~ recorded db filename size file_hash).
      { intros H. apply select_size_hash_match in H. congruence. }
      rewrite Hfresh by exact Hn. repeat split; assumption.
Qed.

End Verdicts.

(** X13. For a name, a size and a path that SQLite binds,
    [check_duplicate] answers (True, 'DUPES') exactly when the file
    can be hashed and the table has a row with its name, size and hash;
    (True, 'DUPE SIZE') exactly when it can be hashed and the table has
    rows with its name but none with its size and hash, be it the size or
    only the content that differs; and (False, '') in every other case. *)
Theorem check_duplicate_verdict (read_file : string -> read_outcome)
    (md5_hexdigest : string -> string) (now : string)
    (db : list hash_row) (filename : string) (size : Z) (filepath : string) :
  bound_by_sqlite filename size filepath ->
  let verdict := (check_duplicate read_file md5_hexdigest now db filename size filepath).1 in
  let hashed := truthy (compute_hash read_file md5_hexdigest filepath) in
  (verdict = (true, "DUPES")
   <-> exists file_hash, hashed = Some file_hash /\ recorded db filename size file_hash)
  /\ (verdict = (true, "DUPE SIZE")
      <-> exists file_hash, hashed = Some file_hash /\ name_recorded db filename
                            /\ ~ recorded db filename size file_hash)
  /\ (verdict = (false, "") <-> hashed = None \/ ~ name_recorded db filename).
Proof.
  intros _. cbv zeta.
  destruct (check_duplicate_cases read_file md5_hexdigest now db filename size filepath)
    as [[-> Hh]|(file_hash & Hh & [[-> Hn]|[[-> Hr]|[-> [Hn Hr]]]])];
    cbn [fst]; rewrite Hh.
  - split; [split; [discriminate|intros (h & H & _); discriminate]|].
    split; [split; [discriminate|intros (h & H & _); discriminate]|].
    split; [left; reflexivity|reflexivity].
  - split; [split; [discriminate|]|].
    { intros (h & _ & H). destruct Hn. eapply recorded_name. exact H. }
    split; [split; [discriminate|intros (h & _ & H & _); destruct (Hn H)]|].
    split; [right; exact Hn|reflexivity].
  - split; [split; [intros _; exists file_hash; split; [reflexivity|exact Hr]|reflexivity]|].
    split; [split; [discriminate|]|].
    { intros (h & H & _ & Hnot). injection H as <-. destruct (Hnot Hr). }
    split; [discriminate|]. intros [H|H]; [discriminate|].
    destruct H. eapply recorded_name. exact Hr.
  - split; [split; [discriminate|]|].
    { intros (h & H & Hrec). injection H as <-. destruct (Hr Hrec). }
    split; [split; [intros _; exists file_hash; repeat split; assumption|reflexivity]|].
    split; [discriminate|]. intros [H|H]; [discriminate|destruct (H Hn)].
Qed.

Lemma check_duplicate_verdict_witness :
  let read_file := fun _ : string => Content "pixels" in
  let md5_hexdigest := fun bytes : string => "md5:" +:+ bytes in
  let db := [HashRow "photo.jpg" 6 "md5:pixels" "/in/a/photo.jpg" "t0"] in
  bound_by_sqlite "photo.jpg" 6 "/in/b/photo.jpg"
  /\ (check_duplicate read_file md5_hexdigest "t1" db "photo.jpg" 6 "/in/b/photo.jpg").1
     = (true, "DUPES")
  /\ (check_duplicate read_file md5_hexdigest "t1" db "photo.jpg" 7 "/in/b/photo.jpg").1
     = (true, "DUPE SIZE")
  /\ (check_duplicate read_file md5_hexdigest "t1" db "other.jpg" 6 "/in/b/other.jpg").1
     = (false, "").
Proof.
  cbv zeta.
  assert (Hbound : forall filename size filepath,
             ascii_only filename = true -> ascii_only filepath = true ->
             (size = 6 \/ size = 7) -> bound_by_sqlite filename size filepath).
  { intros filename size filepath Hn Hp Hs. split; [exact Hn|]. split; [exact Hp|].
    destruct Hs as [->| ->]; split; (discriminate || reflexivity). }
  split; [apply Hbound; auto|]. split; [|split].
  - apply (check_duplicate_verdict (fun _ => Content "pixels") (fun bytes => "md5:" +:+ bytes)
             "t1" _ "photo.jpg" 6 "/in/b/photo.jpg"); [apply Hbound; auto|].
    exists "md5:pixels". split; [reflexivity|].
    eexists. split; [apply list_elem_of_singleton; reflexivity|reflexivity].
  - apply (check_duplicate_verdict (fun _ => Content "pixels") (fun bytes => "md5:" +:+ bytes)
             "t1" _ "photo.jpg" 7 "/in/b/photo.jpg"); [apply Hbound; auto|].
    exists "md5:pixels". split; [reflexivity|]. split.
    + eexists. split; [apply list_elem_of_singleton; reflexivity|reflexivity].
    + intros (r & Hr & Hk). apply list_elem_of_singleton in Hr. subst r. discriminate.
  - apply (check_duplicate_verdict (fun _ => Content "pixels") (fun bytes => "md5:" +:+ bytes)
             "t1" _ "other.jpg" 6 "/in/b/other.jpg"); [apply Hbound; auto|].
    right. intros (r & Hr & Hk). apply list_elem_of_singleton in Hr. subst r. discriminate.
Defined.

(** X14. [check_duplicate] never deletes or replaces a row: the table
    after the call is the table before it, or that table with one row
    appended for a name, size and hash that had no row; so the primary key
    stays unique. *)
Theorem check_duplicate_table (read_file : string -> read_outcome)
    (md5_hexdigest : string -> string) (now : string)
    (db : list hash_row) (filename : string) (size : Z) (filepath : string) :
  let db' := (check_duplicate read_file md5_hexdigest now db filename size filepath).2 in
  (db' = db
   \/ exists file_hash,
        truthy (compute_hash read_file md5_hexdigest filepath) = Some file_hash
        /\ db' = (db ++ [HashRow filename size file_hash filepath now])%list
        /\ ~ recorded db filename size file_hash)
  /\ (forall r, r ∈ db -> r ∈ db')
  /\ (NoDup (row_key <$> db) -> NoDup (row_key <$> db')).
Proof.
  cbv zeta.
  assert (Hgrow : forall file_hash,
            ~ recorded db filename size file_hash ->
            let db' := (db ++ [HashRow filename size file_hash filepath now])%list in
            (forall r, r ∈ db -> r ∈ db')
            /\ (NoDup (row_key <$> db) -> NoDup (row_key <$> db'))).
  { intros file_hash Hn. cbv zeta. split.
    - intros r Hr. apply elem_of_app. left. exact Hr.
    - intros Hnd. rewrite fmap_app. apply NoDup_app. split; [exact Hnd|].
      split; [|apply NoDup_singleton].
      intros k Hk Hk'. apply list_elem_of_fmap in Hk as (r & -> & Hr).
      apply list_elem_of_singleton in Hk'. apply Hn. exists r. split; [exact Hr|exact Hk']. }
  destruct (check_duplicate_cases read_file md5_hexdigest now db filename size filepath)
    as [[-> Hh]|(file_hash & Hh & [[-> Hn]|[[-> Hr]|[-> [Hn Hr]]]])];
    cbn [snd].
  - split; [left; reflexivity|]. split; [intros r Hr; exact Hr|intros H; exact H].
  - assert (Hnot : ~ recorded db filename size file_hash)
      by (intros H; apply Hn; eapply recorded_name; exact H).
    split; [right; exists file_hash; repeat split; assumption|]. apply Hgrow. exact Hnot.
  - split; [left; reflexivity|]. split; [intros r Hr'; exact Hr'|intros H; exact H].
  - split; [right; exists file_hash; repeat split; assumption|]. apply Hgrow. exact Hr.
Qed.

(** X15. Once a file that can be hashed has been checked, a second file
    with the same name, size and content is reported as (True, 'DUPES'),
    and that second check leaves the table as it is. *)
Theorem check_duplicate_again (read_file : string -> read_outcome)
    (md5_hexdigest : string -> string) (now now' : string)
    (db : list hash_row) (filename : string) (size : Z) (filepath filepath' bytes : string) :
  read_file filepath = Content bytes -> read_file filepath' = Content bytes ->
  md5_hexdigest bytes <> "" ->
  let db1 := (check_duplicate read_file md5_hexdigest now db filename size filepath).2 in
  check_duplicate read_file md5_hexdigest now' db1 filename size filepath'
  = ((true, "DUPES"), db1).
Proof.
  intros Hread Hread' Hne. cbv zeta.
  assert (Hh : forall path, read_file path = Content bytes ->
            truthy (compute_hash read_file md5_hexdigest path) = Some (md5_hexdigest bytes)).
  { intros path Hp. unfold compute_hash. rewrite Hp.
    destruct (md5_hexdigest bytes); [contradiction|reflexivity]. }
  assert (Hrec : recorded
            (check_duplicate read_file md5_hexdigest now db filename size filepath).2
            filename size (md5_hexdigest bytes)).
  { assert (Hnew : recorded (db ++ [HashRow filename size (md5_hexdigest bytes) filepath now])
                     filename size (md5_hexdigest bytes)).
    { eexists. split; [apply elem_of_app; right; apply list_elem_of_singleton; reflexivity|].
      reflexivity. }
    destruct (check_duplicate_cases read_file md5_hexdigest now db filename size filepath)
      as [[_ H]|(file_hash & H & [[-> _]|[[-> Hr]|[-> _]]])];
      rewrite (Hh _ Hread) in H; [discriminate|injection H as <-..]; cbn [snd];
      [exact Hnew|exact Hr|exact Hnew]. }
  set (db1 := (check_duplicate read_file md5_hexdigest now db filename size filepath).2) in *.
  destruct (check_duplicate_cases read_file md5_hexdigest now' db1 filename size filepath')
    as [[_ H]|(file_hash & H & [[_ Hn]|[[-> _]|[_ [_ Hn]]]])];
    rewrite (Hh _ Hread') in H; [discriminate|injection H as <-..].
  - destruct Hn. eapply recorded_name. exact Hrec.
  - reflexivity.
  - destruct (Hn Hrec).
Qed.

Lemma check_duplicate_again_witness :
  let read_file := fun _ : string => Content "pixels" in
  let md5_hexdigest := fun bytes : string => "md5:" +:+ bytes in
  check_duplicate read_file md5_hexdigest "t1"
    (check_duplicate read_file md5_hexdigest "t0" [] "photo.jpg" 6 "/in/a/photo.jpg").2
    "photo.jpg" 6 "/in/b/photo.jpg"
  = ((true, "DUPES"), [HashRow "photo.jpg" 6 "md5:pixels" "/in/a/photo.jpg" "t0"]).
Proof.
  exact (check_duplicate_again (fun _ => Content "pixels") (fun bytes => "md5:" +:+ bytes)
           "t0" "t1" [] "photo.jpg" 6 "/in/a/photo.jpg" "/in/b/photo.jpg" "pixels"
           eq_refl eq_refl ltac:(discriminate)).
Defined.

Lemma recorded_snoc db row filename size file_hash :
  recorded (db ++ [row]) filename size file_hash
  <-> recorded db filename size file_hash \/ row_key row = (filename, size, file_hash).
Proof.
  unfold recorded. split.
  - intros (r & Hr & Hk). apply elem_of_app in Hr as [Hr|Hr].
    + left. exists r. split; assumption.
    + apply list_elem_of_singleton in Hr. subst r. right. exact Hk.
  - intros [(r & Hr & Hk)|Hk].
    + exists r. split; [apply elem_of_app; left; exact Hr|exact Hk].
    + exists row. split; [apply elem_of_app; right; apply list_elem_of_singleton; reflexivity|].
      exact Hk.
Qed.

(** the rows of the table after [check_duplicate] *)
Lemma check_duplicate_recorded (read_file : string -> read_outcome)
    (md5_hexdigest : string -> string) (now : string) db filename size filepath
    filename' size' file_hash' :
  recorded (check_duplicate read_file md5_hexdigest now db filename size filepath).2
    filename' size' file_hash'
  <-> recorded db filename' size' file_hash'
      \/ (filename' = filename /\ size' = size
          /\ truthy (compute_hash read_file md5_hexdigest filepath) = Some file_hash').
Proof.
  destruct (check_duplicate_cases read_file md5_hexdigest now db filename size filepath)
    as [[-> Hh]|(file_hash & Hh & [[-> Hn]|[[-> Hr]|[-> [Hn Hr]]]])];
    cbn [snd]; rewrite Hh.
  - split; [left; assumption|]. intros [H|(_ & _ & H)]; [exact H|discriminate].
  - rewrite recorded_snoc. unfold row_key. cbn. split.
    + intros [H|H]; [left; exact H|]. injection H as <- <- <-. right. repeat split.
    + intros [H|(-> & -> & H)]; [left; exact H|]. injection H as <-. right. reflexivity.
  - split; [left; assumption|]. intros [H|(-> & -> & H)]; [exact H|].
    injection H as <-. exact Hr.
  - rewrite recorded_snoc. unfold row_key. cbn. split.
    + intros [H|H]; [left; exact H|]. injection H as <- <- <-. right. repeat split.
    + intros [H|(-> & -> & H)]; [left; exact H|]. injection H as <-. right. reflexivity.
Qed.

(* ===================================================================== *)
(** ** Collecting files with repeated names *)
(* ===================================================================== *)

Lemma same_name_snoc file visited dirpath file' :
  same_name file (visited ++ [(dirpath, file')])
  = (same_name file visited ++ (if String.eqb file' file then [(dirpath, file')] else []))%list.
Proof. unfold same_name. rewrite List.filter_app. reflexivity. Qed.

Section CollectFacts.

Variables (target_root : string) (use_hash inplace_mode : bool)
  (logic_func : string -> option string) (abspath : string -> string) (fs : file_system)
  (read_file : string -> read_outcome) (md5_hexdigest : string -> string)
  (now_at : string -> string).

Let step := collect_file target_root use_hash logic_func abspath fs read_file md5_hexdigest
              now_at.

Let after := collect_visited target_root use_hash logic_func abspath fs read_file
               md5_hexdigest now_at.

Let logic := by_logic target_root logic_func abspath.

Lemma by_logic_state st src file : (logic st src file).1 = st.
Proof.
  unfold logic, by_logic. destruct (truthy (logic_func file)); [|reflexivity].
  destruct (String.eqb _ _); reflexivity.
Qed.

Lemma by_logic_item st st' src file : (logic st src file).2 = (logic st' src file).2.
Proof.
  unfold logic, by_logic. destruct (truthy (logic_func file)); [|reflexivity].
  destruct (String.eqb _ _); reflexivity.
Qed.

Lemma collect_visited_snoc visited :
  forall st dirpath file,
    after st (visited ++ [(dirpath, file)]) = (step (after st visited) dirpath file).1.
Proof.
  induction visited as [|[d f] visited IH]; intros st dirpath file; [reflexivity|].
  cbn [app]. unfold after in *. cbn [collect_visited]. apply IH.
Qed.

Let seen_invariant := seen_invariant use_hash fs.

Lemma seen_invariant_step visited st dirpath file :
  seen_invariant visited st ->
  seen_invariant (visited ++ [(dirpath, file)]) (step st dirpath file).1.
Proof.
  intros Hinv file'. rewrite same_name_snoc.
  assert (Hseen : exists entry,
            seen_files (step st dirpath file).1
            = <[file := entry]> (seen_files st)
            /\ match seen_files st !! file with
               | None => entry = Seen [get_file_size fs (Path.join dirpath file)] 0
               | Some old =>
                   s_count entry = s_count old + 1
                   /\ (use_hash = false ->
                       forall z, z ∈ s_sizes entry
                                 <-> z ∈ s_sizes old \/ z = get_file_size fs (Path.join dirpath file))
               end).
  { unfold step, collect_file. destruct (seen_files st !! file) as [old|] eqn:El.
    - destruct (Path.splitext file) as [base ext]. destruct use_hash.
      + destruct (check_duplicate _ _ _ _ _ _ _) as [[is_dup dup_type] db].
        destruct is_dup.
        * eexists. split; [reflexivity|]. split; [reflexivity|discriminate].
        * fold logic. rewrite by_logic_state.
          eexists. split; [reflexivity|]. split; [reflexivity|discriminate].
      + destruct (bool_decide _) eqn:Eb.
        * apply bool_decide_eq_true in Eb.
          eexists. split; [reflexivity|]. split; [reflexivity|].
          intros _ z. cbn [s_sizes]. split; [tauto|]. intros [H| ->]; assumption.
        * eexists. split; [reflexivity|]. split; [reflexivity|].
          intros _ z. cbn [s_sizes]. rewrite elem_of_app, list_elem_of_singleton. reflexivity.
    - fold logic. rewrite by_logic_state. eexists. split; reflexivity. }
  destruct Hseen as (entry & -> & Hentry).
  destruct (String.eqb file file') eqn:Ef.
  - apply String.eqb_eq in Ef. subst file'. rewrite lookup_insert_eq.
    specialize (Hinv file). destruct (seen_files st !! file) as [old|].
    + destruct Hinv as (Hne & Hcount & Hsizes). destruct Hentry as (Hc & Hs).
      split; [intros E; apply app_eq_nil in E as [E _]; contradiction|].
      split; [rewrite length_app; cbn [length]; lia|].
      intros Hmode z. rewrite (Hs Hmode), fmap_app, elem_of_app, (Hsizes Hmode).
      cbn. rewrite list_elem_of_singleton. reflexivity.
    + subst entry. rewrite Hinv. cbn [app length s_count s_sizes].
      split; [discriminate|]. split; [reflexivity|].
      intros _ z. cbn. reflexivity.
  - rewrite lookup_insert_ne by (intros ->; rewrite String.eqb_refl in Ef; discriminate).
    rewrite app_nil_r. apply Hinv.
Qed.

Lemma seen_invariant_after visited db :
  seen_invariant visited (after (CollectState ∅ db 0) visited).
Proof.
  induction visited as [|[d f] visited IH] using rev_ind.
  - intros file. cbn. rewrite lookup_empty. reflexivity.
  - rewrite collect_visited_snoc.
    apply seen_invariant_step. exact IH.
Qed.

Let table_invariant := table_invariant fs read_file md5_hexdigest.

Lemma step_hash_db st dirpath file :
  use_hash = true ->
  hash_db (step st dirpath file).1
  = (check_duplicate read_file md5_hexdigest (now_at (Path.join dirpath file)) (hash_db st)
       file (get_file_size fs (Path.join dirpath file)) (Path.join dirpath file)).2.
Proof.
  intros Hmode. unfold step, collect_file. rewrite Hmode.
  destruct (seen_files st !! file) as [old|].
  - destruct (Path.splitext file) as [base ext].
    destruct (check_duplicate _ _ _ _ _ _ _) as [[is_dup dup_type] db].
    destruct is_dup; [reflexivity|]. fold logic. rewrite by_logic_state. reflexivity.
  - fold logic. rewrite by_logic_state. reflexivity.
Qed.

Lemma table_invariant_after visited :
  use_hash = true ->
  table_invariant visited (after (CollectState ∅ [] 0) visited).
Proof.
  intros Hmode. induction visited as [|[d f] visited IH] using rev_ind.
  - intros file size file_hash. cbn. split.
    + intros (r & Hr & _). inversion Hr.
    + intros (e & He & _). inversion He.
  - intros file size file_hash. rewrite collect_visited_snoc.
    rewrite step_hash_db by exact Hmode. rewrite check_duplicate_recorded.
    rewrite (IH file size file_hash). split.
    + intros [(e & He & H)|(-> & -> & H)].
      * exists e. split; [apply elem_of_app; left; exact He|exact H].
      * exists (d, f). split; [apply elem_of_app; right; apply list_elem_of_singleton; reflexivity|].
        repeat split. exact H.
    + intros (e & He & Hf & Hs & Hh). apply elem_of_app in He as [He|He].
      * left. exists e. repeat split; assumption.
      * apply list_elem_of_singleton in He. subst e. right. cbn in *.
        repeat split; [symmetry; exact Hf|symmetry; exact Hs|exact Hh].
Qed.

(** the nested loops visit the files of [visited_of] in order *)
Lemma collect_dir_items files :
  forall st dirpath,
    collect_dir target_root use_hash logic_func abspath fs read_file md5_hexdigest now_at
      st dirpath files
    = (after st (pair dirpath <$> files),
       collect_items target_root use_hash logic_func abspath fs read_file md5_hexdigest
         now_at st (pair dirpath <$> files)).
Proof.
  induction files as [|file files IH]; intros st dirpath; [reflexivity|].
  cbn [collect_dir fmap list_fmap]. unfold after. cbn [collect_visited collect_items].
  destruct (collect_file _ _ _ _ _ _ _ _ st dirpath file) as [st1 item].
  rewrite IH. reflexivity.
Qed.

Lemma collect_visited_app a :
  forall st b, after st (a ++ b) = after (after st a) b.
Proof.
  induction a as [|[d f] a IH]; intros st b; [reflexivity|].
  cbn [app]. unfold after in *. cbn [collect_visited]. apply IH.
Qed.

Lemma collect_items_app a :
  forall st b,
    collect_items target_root use_hash logic_func abspath fs read_file md5_hexdigest now_at
      st (a ++ b)
    = (collect_items target_root use_hash logic_func abspath fs read_file md5_hexdigest
         now_at st a
       ++ collect_items target_root use_hash logic_func abspath fs read_file md5_hexdigest
            now_at (after st a) b)%list.
Proof.
  induction a as [|[d f] a IH]; intros st b; [reflexivity|].
  cbn [app]. unfold after in *. cbn [collect_items collect_visited].
  destruct (collect_file _ _ _ _ _ _ _ _ st d f) as [st1 item]. cbn [fst].
  rewrite IH, app_assoc. reflexivity.
Qed.

Lemma collect_walk_items walk :
  forall st source,
    collect_walk target_root use_hash inplace_mode logic_func abspath fs read_file
      md5_hexdigest now_at st source walk
    = (after st (visited_of_walk inplace_mode abspath source walk),
       collect_items target_root use_hash logic_func abspath fs read_file md5_hexdigest
         now_at st (visited_of_walk inplace_mode abspath source walk)).
Proof.
  induction walk as [|[dirpath files] walk IH]; intros st source; [reflexivity|].
  cbn [collect_walk visited_of_walk flat_map].
  fold (visited_of_walk inplace_mode abspath source walk).
  rewrite collect_visited_app, collect_items_app.
  destruct (inplace_mode && negb (String.eqb (abspath dirpath) (abspath source))).
  - rewrite IH. reflexivity.
  - rewrite collect_dir_items, IH. reflexivity.
Qed.

Lemma collect_sources_items source_dirs :
  forall st,
    collect_sources target_root use_hash inplace_mode logic_func abspath fs read_file
      md5_hexdigest now_at st source_dirs
    = (after st (visited_of inplace_mode abspath source_dirs),
       collect_items target_root use_hash logic_func abspath fs read_file md5_hexdigest
         now_at st (visited_of inplace_mode abspath source_dirs)).
Proof.
  induction source_dirs as [|[source walk] source_dirs IH]; intros st; [reflexivity|].
  cbn [collect_sources visited_of flat_map].
  fold (visited_of inplace_mode abspath source_dirs).
  rewrite collect_visited_app, collect_items_app, collect_walk_items, IH. reflexivity.
Qed.

End CollectFacts.

Lemma renamed_eq target_root dirpath file folder count base ext :
  Path.splitext file = (base, ext) ->
  renamed target_root dirpath file folder count
  = (Path.join dirpath file, Path.join target_root folder,
     base +:+ " (" +:+ str_of_Z (Z.of_nat count) +:+ ")" +:+ ext).
Proof. intros H. unfold renamed. rewrite H. reflexivity. Qed.

(** X16. Without hashing, [collect_files_generator] runs its loop body on
    the visited files in order, and a file whose name was visited before
    never reaches the logic function: it is yielded under the name
    "base (n)ext", n being the number of earlier files with that name, for
    the folder "!Dupes" when one of them has its size and "!Dupes Size"
    otherwise.  A name visited for the first time goes to the logic
    function. *)
Theorem collect_repeated_names_by_size (target_root : string) (inplace_mode : bool)
    (logic_func : string -> option string) (abspath : string -> string) (fs : file_system)
    (read_file : string -> read_outcome) (md5_hexdigest : string -> string)
    (now_at : string -> string) (db : list hash_row)
    (source_dirs : list (string * list (string * list string))) :
  collect_files_generator target_root false inplace_mode logic_func abspath fs read_file
    md5_hexdigest now_at db source_dirs
  = collect_items target_root false logic_func abspath fs read_file md5_hexdigest now_at
      (CollectState ∅ db 0) (visited_of inplace_mode abspath source_dirs)
  /\ forall visited dirpath file,
       let st := collect_visited target_root false logic_func abspath fs read_file
                   md5_hexdigest now_at (CollectState ∅ db 0) visited in
       let earlier := same_name file visited in
       (collect_file target_root false logic_func abspath fs read_file md5_hexdigest now_at
          st dirpath file).2
       = match earlier with
         | [] => logic_item target_root logic_func abspath dirpath file
         | _ :: _ =>
             Some (renamed target_root dirpath file
                     (if bool_decide (size_of fs (dirpath, file) ∈ size_of fs <$> earlier)
                      then "!Dupes" else "!Dupes Size")
                     (length earlier))
         end.
Proof.
  split.
  - unfold collect_files_generator. rewrite collect_sources_items. reflexivity.
  - intros visited dirpath file. cbv zeta.
    pose proof (seen_invariant_after target_root false logic_func abspath fs read_file
                  md5_hexdigest now_at visited db file) as Hinv.
    unfold collect_file.
    destruct (seen_files _ !! file) as [entry|].
    + destruct Hinv as (Hne & Hcount & Hsizes). specialize (Hsizes eq_refl).
      destruct (same_name file visited) as [|e earlier] eqn:Ee; [contradiction|].
      destruct (Path.splitext file) as [base ext] eqn:Es.
      rewrite (renamed_eq _ _ _ _ _ _ _ Es).
      replace (s_count entry + 1) with (Z.of_nat (length (e :: earlier))) by lia.
      rewrite (bool_decide_ext _ _ (Hsizes _)).
      change (size_of fs (dirpath, file)) with (get_file_size fs (Path.join dirpath file)).
      destruct (bool_decide _); reflexivity.
    + rewrite Hinv. apply by_logic_item.
Qed.

Lemma existsb_bool_decide {A} (P : A -> Prop) `{forall x, Decision (P x)} (l : list A) :
  existsb (fun x => bool_decide (P x)) l = true <-> exists x, x ∈ l /\ P x.
Proof.
  rewrite existsb_exists. split.
  - intros (x & Hx & Hp). exists x. split; [apply list_elem_of_In; exact Hx|].
    apply bool_decide_eq_true in Hp. exact Hp.
  - intros (x & Hx & Hp). exists x. split; [apply list_elem_of_In; exact Hx|].
    apply bool_decide_eq_true. exact Hp.
Qed.

Lemma elem_of_same_name file visited entry :
  entry ∈ same_name file visited <-> entry ∈ visited /\ entry.2 = file.
Proof.
  unfold same_name. rewrite !list_elem_of_In, filter_In. rewrite String.eqb_eq. reflexivity.
Qed.

(** X17. With hashing and an empty table at the start, for files whose
    names, sizes and paths SQLite binds: a file that cannot
    be hashed goes to the logic function; a file that can is yielded under
    the name "base (n)ext" for "!Dupes" when an earlier file of its name
    had its size and hash, and for "!Dupes Size" when earlier files of its
    name were hashed but none with its size and hash; when no earlier file
    of its name could be hashed it goes to the logic function under its own
    name. *)
Theorem collect_repeated_names_by_hash (target_root : string) (inplace_mode : bool)
    (logic_func : string -> option string) (abspath : string -> string) (fs : file_system)
    (read_file : string -> read_outcome) (md5_hexdigest : string -> string)
    (now_at : string -> string)
    (source_dirs : list (string * list (string * list string))) :
  let bound entry := bound_by_sqlite entry.2 (size_of fs entry) (Path.join entry.1 entry.2) in
  (Forall bound (visited_of inplace_mode abspath source_dirs) ->
   collect_files_generator target_root true inplace_mode logic_func abspath fs read_file
     md5_hexdigest now_at [] source_dirs
   = collect_items target_root true logic_func abspath fs read_file md5_hexdigest now_at
       (CollectState ∅ [] 0) (visited_of inplace_mode abspath source_dirs))
  /\ forall visited dirpath file,
       Forall bound (visited ++ [(dirpath, file)]) ->
       let st := collect_visited target_root true logic_func abspath fs read_file
                   md5_hexdigest now_at (CollectState ∅ [] 0) visited in
       let earlier := same_name file visited in
       let size := size_of fs (dirpath, file) in
       (collect_file target_root true logic_func abspath fs read_file md5_hexdigest now_at
          st dirpath file).2
       = match hash_of read_file md5_hexdigest (dirpath, file) with
         | None => logic_item target_root logic_func abspath dirpath file
         | Some file_hash =>
             if existsb (fun entry =>
                           bool_decide (size_of fs entry = size
                                        /\ hash_of read_file md5_hexdigest entry
                                           = Some file_hash)) earlier
             then Some (renamed target_root dirpath file "!Dupes" (length earlier))
             else if existsb (fun entry =>
                                bool_decide (is_Some (hash_of read_file md5_hexdigest entry)))
                       earlier
             then Some (renamed target_root dirpath file "!Dupes Size" (length earlier))
             else logic_item target_root logic_func abspath dirpath file
         end.
Proof.
  cbv zeta. split.
  - intros _. unfold collect_files_generator. rewrite collect_sources_items. reflexivity.
  - intros visited dirpath file _. cbv zeta.
    pose proof (seen_invariant_after target_root true logic_func abspath fs read_file
                  md5_hexdigest now_at visited [] file) as Hinv.
    pose proof (table_invariant_after target_root true logic_func abspath fs read_file
                  md5_hexdigest now_at visited eq_refl) as Htable.
    set (st := collect_visited target_root true logic_func abspath fs read_file
                 md5_hexdigest now_at (CollectState ∅ [] 0) visited) in *.
    assert (Hfull : forall file_hash,
              existsb (fun entry =>
                         bool_decide (size_of fs entry = size_of fs (dirpath, file)
                                      /\ hash_of read_file md5_hexdigest entry = Some file_hash))
                (same_name file visited) = true
              <-> recorded (hash_db st) file (size_of fs (dirpath, file)) file_hash).
    { intros file_hash. rewrite existsb_bool_decide, (Htable _ _ _). split.
      - intros (e & He & Hs & Hh). apply elem_of_same_name in He as [He Hf].
        exists e. repeat split; assumption.
      - intros (e & He & Hf & Hs & Hh). exists e.
        split; [apply elem_of_same_name; split; assumption|]. split; assumption. }
    assert (Hany : existsb (fun entry =>
                      bool_decide (is_Some (hash_of read_file md5_hexdigest entry)))
                     (same_name file visited) = true
                   <-> name_recorded (hash_db st) file).
    { rewrite existsb_bool_decide. split.
      - intros (e & He & [h Hh]). apply elem_of_same_name in He as [He Hf].
        eapply recorded_name. apply Htable. exists e. repeat split; eassumption.
      - intros (r & Hr & Hn).
        assert (Hrec : recorded (hash_db st) file (h_size r) (h_hash r)).
        { exists r. split; [exact Hr|]. unfold row_key. rewrite Hn. reflexivity. }
        apply Htable in Hrec as (e & He & Hf & _ & Hh). exists e.
        split; [apply elem_of_same_name; split; assumption|]. eexists. exact Hh. }
    change (hash_of read_file md5_hexdigest (dirpath, file))
      with (truthy (compute_hash read_file md5_hexdigest (Path.join dirpath file))).
    change (size_of fs (dirpath, file)) with (get_file_size fs (Path.join dirpath file)) in *.
    unfold collect_file.
    destruct (check_duplicate_cases read_file md5_hexdigest (now_at (Path.join dirpath file))
                (hash_db st) file (get_file_size fs (Path.join dirpath file))
                (Path.join dirpath file))
      as [[Hres Hh]|(file_hash & Hh & Hcases)]; rewrite Hh.
    { destruct (seen_files st !! file) as [entry|].
      - destruct (Path.splitext file) as [base ext]. rewrite Hres. apply by_logic_item.
      - apply by_logic_item. }
    specialize (Hfull file_hash).
    destruct Hcases as [[Hres Hn]|[[Hres Hr]|[Hres [Hn Hr]]]].
    + assert (E1 : existsb (fun entry =>
                      bool_decide (size_of fs entry = get_file_size fs (Path.join dirpath file)
                                   /\ hash_of read_file md5_hexdigest entry = Some file_hash))
                     (same_name file visited) = false).
      { apply not_true_is_false. intros H. apply Hfull in H. apply Hn.
        eapply recorded_name. exact H. }
      assert (E2 : existsb (fun entry =>
                      bool_decide (is_Some (hash_of read_file md5_hexdigest entry)))
                     (same_name file visited) = false).
      { apply not_true_is_false. intros H. apply Hany in H. exact (Hn H). }
      rewrite E1, E2.
      destruct (seen_files st !! file) as [entry|].
      * destruct (Path.splitext file) as [base ext]. rewrite Hres. apply by_logic_item.
      * apply by_logic_item.
    + rewrite (proj2 Hfull Hr).
      destruct (seen_files st !! file) as [entry|].
      * destruct Hinv as (Hne & Hcount & _).
        destruct (Path.splitext file) as [base ext] eqn:Es.
        rewrite (renamed_eq _ _ _ _ _ _ _ Es). rewrite Hres. cbn [String.eqb Ascii.eqb Bool.eqb].
        replace (s_count entry + 1) with (Z.of_nat (length (same_name file visited))) by lia.
        reflexivity.
      * exfalso. apply (proj2 Hfull) in Hr. rewrite Hinv in Hr. discriminate.
    + assert (E1 : existsb (fun entry =>
                      bool_decide (size_of fs entry = get_file_size fs (Path.join dirpath file)
                                   /\ hash_of read_file md5_hexdigest entry = Some file_hash))
                     (same_name file visited) = false).
      { apply not_true_is_false. intros H. apply Hfull in H. exact (Hr H). }
      rewrite E1, (proj2 Hany Hn).
      destruct (seen_files st !! file) as [entry|].
      * destruct Hinv as (Hne & Hcount & _).
        destruct (Path.splitext file) as [base ext] eqn:Es.
        rewrite (renamed_eq _ _ _ _ _ _ _ Es). rewrite Hres. cbn [String.eqb Ascii.eqb Bool.eqb].
        replace (s_count entry + 1) with (Z.of_nat (length (same_name file visited))) by lia.
        reflexivity.
      * exfalso. apply (proj2 Hany) in Hn. rewrite Hinv in Hn. discriminate.
Qed.

(* ===================================================================== *)
(** ** Chunks *)
(* ===================================================================== *)

Lemma chunks_from_spec {A : Type} (chunk_size : Z) (items : list A) :
  1 <= chunk_size ->
  forall current_chunk,
    Z.of_nat (length current_chunk) < chunk_size ->
    let chunks := chunks_from items chunk_size current_chunk in
    concat chunks = (current_chunk ++ items)%list
    /\ Forall (fun chunk => chunk <> []) chunks
    /\ forall (i : nat) chunk,
         chunks !! i = Some chunk ->
         Z.of_nat (length chunk) <= chunk_size
         /\ ((S i < length chunks)%nat -> Z.of_nat (length chunk) = chunk_size).
Proof.
  intros Hsize. induction items as [|item items IH]; intros current_chunk Hcur; cbv zeta.
  - cbn [chunks_from]. destruct current_chunk as [|x l].
    + split; [reflexivity|]. split; [constructor|].
      intros i chunk H. destruct i; discriminate.
    + split; [cbn; rewrite !app_nil_r; reflexivity|].
      split; [repeat constructor; discriminate|].
      intros i chunk H. destruct i as [|i]; [|destruct i; discriminate].
      injection H as <-. split; [lia|]. cbn. lia.
  - cbn [chunks_from].
    destruct (chunk_size <=? Z.of_nat (length (current_chunk ++ [item]))) eqn:E.
    + apply Z.leb_le in E. rewrite length_app in E. cbn [length] in E.
      destruct (IH [] ltac:(cbn; lia)) as (Hc & Hne & Hlen).
      split; [cbn [concat]; rewrite Hc, <- app_assoc; reflexivity|].
      split; [constructor; [destruct current_chunk; discriminate|exact Hne]|].
      intros i chunk H. destruct i as [|i].
      * injection H as <-. rewrite length_app. cbn [length]. split; lia.
      * cbn in H. destruct (Hlen i chunk H) as [H1 H2]. split; [exact H1|].
        intros Hi. apply H2. cbn [length] in Hi. lia.
    + apply Z.leb_gt in E.
      destruct (IH (current_chunk ++ [item])%list E) as (Hc & Hne & Hlen).
      split; [rewrite Hc, <- app_assoc; reflexivity|]. split; [exact Hne|exact Hlen].
Qed.

Lemma chunks_from_singletons {A : Type} (chunk_size : Z) (items : list A) :
  chunk_size <= 1 -> chunks_from items chunk_size [] = (fun item => [item]) <$> items.
Proof.
  intros Hsize. induction items as [|item items IH]; [reflexivity|].
  cbn [chunks_from app length]. rewrite (proj2 (Z.leb_le _ _)) by lia.
  rewrite IH. reflexivity.
Qed.

(** X18. [collect_files_chunked] cuts what the generator yields into
    chunks without losing or reordering a triple: no chunk is empty, and for
    a chunk size of at least 1 every chunk but the last has exactly that
    many triples and the last has at most that many.  For a chunk size below
    1 every triple is a chunk of its own. *)
Theorem collect_files_chunked_spec (target_root : string) (use_hash inplace_mode : bool)
    (logic_func : string -> option string) (abspath : string -> string) (fs : file_system)
    (read_file : string -> read_outcome) (md5_hexdigest : string -> string)
    (now_at : string -> string) (db : list hash_row)
    (source_dirs : list (string * list (string * list string))) (chunk_size : Z) :
  let items := collect_files_generator target_root use_hash inplace_mode logic_func abspath
                 fs read_file md5_hexdigest now_at db source_dirs in
  let chunks := collect_files_chunked target_root use_hash inplace_mode logic_func abspath
                  fs read_file md5_hexdigest now_at db source_dirs chunk_size in
  concat chunks = items
  /\ Forall (fun chunk => chunk <> []) chunks
  /\ (1 <= chunk_size ->
      forall (i : nat) chunk,
        chunks !! i = Some chunk ->
        Z.of_nat (length chunk) <= chunk_size
        /\ ((S i < length chunks)%nat -> Z.of_nat (length chunk) = chunk_size))
  /\ (chunk_size < 1 -> chunks = (fun item => [item]) <$> items).
Proof.
  cbv zeta. unfold collect_files_chunked.
  set (items := collect_files_generator _ _ _ _ _ _ _ _ _ _ _).
  destruct (Z_le_gt_dec 1 chunk_size) as [Hsize|Hsize].
  - destruct (chunks_from_spec chunk_size items Hsize [] ltac:(cbn; lia)) as (Hc & Hne & Hlen).
    split; [exact Hc|]. split; [exact Hne|]. split; [intros _; exact Hlen|lia].
  - rewrite chunks_from_singletons by lia.
    split; [induction items as [|x l IH]; [reflexivity|cbn; f_equal; exact IH]|].
    split; [apply Forall_fmap, Forall_forall; intros x _; discriminate|].
    split; [lia|reflexivity].
Qed.

(* ===================================================================== *)
(** ** The duplicate decision matrix *)
(* ===================================================================== *)
















(* ===================================================================== *)
(** ** What a move never does *)
(* ===================================================================== *)




(* ===================================================================== *)
(** ** Learning and then predicting *)
(* ===================================================================== *)

(** X20. [learn] never raises, and what [predict] answers for the file
    name afterwards is fixed by the entry that its signature had: without
    an entry, or with an entry for another folder and a count of at most
    3, the new folder with the confidence of count 1; with an entry for
    the same folder, that folder with the confidence of its count plus 1;
    and with an entry for another folder and a count above 3, the old
    folder with the old confidence, so that the prediction is what it was
    before. *)
Theorem learn_then_predict (patterns : gmap string learned_pattern)
    (filename folder : string) :
  exists patterns',
    learn patterns filename folder = Ok patterns'
    /\ predict patterns' filename
       = Ok (Some (match patterns !! extract_signature filename with
                   | None => (folder, learned_confidence 1)
                   | Some p =>
                       if String.eqb (p_folder p) folder
                       then (folder, learned_confidence (p_count p + 1))
                       else if 3 <? p_count p
                            then (p_folder p, learned_confidence (p_count p))
                            else (folder, learned_confidence 1)
                   end))
    /\ (forall p, patterns !! extract_signature filename = Some p ->
          p_folder p <> folder -> 3 < p_count p ->
          predict patterns' filename = predict patterns filename).
Proof.
  destruct (patterns !! extract_signature filename) as [p|] eqn:El.
  - rewrite (learn_known _ _ _ _ El). eexists. split; [reflexivity|]. cbv zeta.
    destruct (String.eqb (p_folder p) folder) eqn:Ef.
    + apply String.eqb_eq in Ef. split.
      * rewrite predict_returns, lookup_insert_eq. cbn. rewrite Ef. reflexivity.
      * intros q Hq Hne _. injection Hq as <-. contradiction.
    + destruct (3 <? p_count p) eqn:Ec.
      * split.
        -- rewrite predict_returns, lookup_insert_eq. reflexivity.
        -- intros q Hq _ _. rewrite !predict_returns, lookup_insert_eq, El. reflexivity.
      * split.
        -- rewrite predict_returns, lookup_insert_eq. reflexivity.
        -- intros q Hq _ Hc. injection Hq as <-. apply Z.ltb_ge in Ec. lia.
  - rewrite (learn_new _ _ _ El). eexists. split; [reflexivity|]. split.
    + rewrite predict_returns, lookup_insert_eq. reflexivity.
    + intros q Hq. discriminate.
Qed.

(** X21. A pattern with a count above 3 is never corrected: however often
    [learn] is called with other folders for file names of its signature,
    [predict] keeps answering with the old folder and the old confidence,
    and the last other folder sits under the "_ALT" key with count 1. *)
Theorem established_pattern_stays (choices : list (string * string)) :
  forall (patterns : gmap string learned_pattern) (signature : string) (p : learned_pattern),
    patterns !! signature = Some p -> 3 < p_count p ->
    Forall (fun choice => extract_signature choice.1 = signature /\ choice.2 <> p_folder p)
      choices ->
    exists patterns',
      learn_all patterns choices = Ok patterns'
      /\ (forall filename, extract_signature filename = signature ->
            predict patterns' filename
            = Ok (Some (p_folder p, learned_confidence (p_count p))))
      /\ (forall filename folder, last choices = Some (filename, folder) ->
            patterns' !! (signature +:+ "_ALT") = Some (Pattern folder 1 (Some [filename]))).
Proof.
  induction choices as [|[filename folder] choices IH]; intros patterns signature p Hp Hc Hall.
  - exists patterns. split; [reflexivity|]. split; [|discriminate].
    intros filename Hs. rewrite predict_returns, Hs, Hp. reflexivity.
  - inversion Hall as [|? ? [Hsig Hne] Hrest]; subst. cbn [fst snd] in *.
    cbn [learn_all]. rewrite (learn_known _ _ _ _ Hp). cbv zeta.
    rewrite (proj2 (String.eqb_neq _ _)) by (intros E; apply Hne; symmetry; exact E).
    rewrite (proj2 (Z.ltb_lt _ _)) by exact Hc. rewrite bind_ok.
    set (kept := Pattern (p_folder p) (p_count p)
                   (Some (last5 (default [] (p_examples p) ++ [filename])%list))).
    set (patterns1 := <[extract_signature filename := kept]> _).
    destruct (IH patterns1 (extract_signature filename) kept) as (patterns' & Hrun & Hpred & Halt).
    + unfold patterns1. apply lookup_insert_eq.
    + exact Hc.
    + exact Hrest.
    + exists patterns'. split; [exact Hrun|]. split; [exact Hpred|].
      intros filename' folder' Hlast. destruct choices as [|c choices'].
      * cbn in Hlast. injection Hlast as <- <-. cbn [learn_all] in Hrun. injection Hrun as <-.
        unfold patterns1.
        rewrite lookup_insert_ne by (intros E; symmetry in E; exact (alt_signature_fresh _ E)).
        apply lookup_insert_eq.
      * apply Halt. exact Hlast.
Qed.

Lemma established_pattern_stays_witness :
  exists patterns',
    learn_all {[ "TEXT-NNN" := Pattern "Trips" 4 None ]}
      [("beach-001.jpg", "Family"); ("beach-002.jpg", "Family"); ("beach-003.jpg", "Family")]
    = Ok patterns'
    /\ predict patterns' "beach-004.jpg" = Ok (Some ("Trips", learned_confidence 4))
    /\ patterns' !! "TEXT-NNN_ALT" = Some (Pattern "Family" 1 (Some ["beach-003.jpg"])).
Proof.
  destruct (established_pattern_stays
              [("beach-001.jpg", "Family"); ("beach-002.jpg", "Family"); ("beach-003.jpg", "Family")]
              {[ "TEXT-NNN" := Pattern "Trips" 4 None ]} "TEXT-NNN" (Pattern "Trips" 4 None)
              (lookup_singleton_eq _ _) ltac:(reflexivity))
    as (patterns' & Hrun & Hpred & Halt).
  - repeat constructor; try (vm_compute; reflexivity); discriminate.
  - exists patterns'. split; [exact Hrun|]. split.
    + apply Hpred. vm_compute. reflexivity.
    + apply (Halt "beach-003.jpg" "Family"). reflexivity.
Defined.

(* ===================================================================== *)
(** ** Signatures and digits *)
(* ===================================================================== *)

Lemma signature_parts_cons c tl :
  signature_parts (String c tl)
  = if isdigit_c c then
      repeat_c "N" (String.length (take_run isdigit_c (String c tl)))
        :: signature_parts (drop_run isdigit_c (String c tl))
    else if isalpha_c c then
      (let text_str := take_run isalpha_c (String c tl) in
       if isupper text_str && (len text_str <=? 5) then text_str else "TEXT")
        :: signature_parts (drop_run isalpha_c (String c tl))
    else String c "" :: signature_parts tl.
Proof.
  funelim (signature_parts (String c tl)); try discriminate;
    match goal with H : String _ _ = String _ _ |- _ => injection H as -> -> end.
  - rewrite Hd. reflexivity.
  - rewrite Hd, Ha. reflexivity.
  - rewrite Hd, Ha. reflexivity.
Qed.

Lemma same_kind_cases c d :
  same_kind c d = true -> c = d \/ (isdigit_c c = true /\ isdigit_c d = true).
Proof.
  unfold same_kind. intros H. apply orb_true_iff in H as [H|H].
  - left. apply Ascii.eqb_eq. exact H.
  - right. apply andb_true_iff. exact H.
Qed.

Lemma same_kind_class (q : ascii -> bool) c d :
  (forall x y, isdigit_c x = true -> isdigit_c y = true -> q x = q y) ->
  same_kind c d = true -> q c = q d.
Proof.
  intros Hq H. destruct (same_kind_cases c d H) as [->|[Hc Hd]]; [reflexivity|].
  apply Hq; assumption.
Qed.

Lemma same_kind_plain c d :
  same_kind c d = true -> isdigit_c c = false -> c = d.
Proof. intros H Hc. destruct (same_kind_cases c d H) as [E|[E _]]; [exact E|congruence]. Qed.

Lemma digit_variant_refl s : digit_variant s s = true.
Proof.
  induction s as [|c s IH]; [reflexivity|]. simpl. rewrite IH.
  unfold same_kind, eqb_c. rewrite Ascii.eqb_refl. reflexivity.
Qed.

Lemma drop_run_length p s : (String.length (drop_run p s) <= String.length s)%nat.
Proof. induction s as [|c s IH]; simpl; [lia|]. destruct (p c); simpl; lia. Qed.

(** runs of digits have the same length in two variants, and runs of
    letters are equal *)
Lemma digit_run_variant s :
  forall t, digit_variant s t = true ->
    String.length (take_run isdigit_c s) = String.length (take_run isdigit_c t)
    /\ digit_variant (drop_run isdigit_c s) (drop_run isdigit_c t) = true.
Proof.
  induction s as [|c s IH]; intros [|d t] H; try discriminate; [split; reflexivity|].
  cbn [digit_variant] in H. apply andb_true_iff in H as [Hk Hv].
  cbn [take_run drop_run].
  rewrite <- (same_kind_class isdigit_c c d (fun x y Hx Hy => eq_trans Hx (eq_sym Hy)) Hk).
  destruct (isdigit_c c).
  - destruct (IH t Hv) as [Hl Hd]. split; [cbn [String.length]; lia|exact Hd].
  - split; [reflexivity|]. cbn [digit_variant]. rewrite Hk, Hv. reflexivity.
Qed.

Lemma digit_not_alpha' x : isdigit_c x = true -> isalpha_c x = false.
Proof. each_char x. Qed.

Lemma alpha_run_variant s :
  forall t, digit_variant s t = true ->
    take_run isalpha_c s = take_run isalpha_c t
    /\ digit_variant (drop_run isalpha_c s) (drop_run isalpha_c t) = true.
Proof.
  induction s as [|c s IH]; intros [|d t] H; try discriminate; [split; reflexivity|].
  cbn [digit_variant] in H. apply andb_true_iff in H as [Hk Hv].
  cbn [take_run drop_run].
  assert (Ha : isalpha_c c = isalpha_c d).
  { apply same_kind_class; [|exact Hk]. intros x y Hx Hy.
    rewrite !digit_not_alpha' by assumption. reflexivity. }
  rewrite <- Ha. destruct (isalpha_c c) eqn:Ec.
  - assert (c = d) as <-.
    { apply same_kind_plain; [exact Hk|]. destruct (isdigit_c c) eqn:Ed; [|reflexivity].
      rewrite (digit_not_alpha' c Ed) in Ec. discriminate. }
    destruct (IH t Hv) as [Ht Hd]. split; [rewrite Ht; reflexivity|exact Hd].
  - split; [reflexivity|]. cbn [digit_variant]. rewrite Hk, Hv. reflexivity.
Qed.

Lemma signature_parts_variant (n : nat) :
  forall s t, (String.length s <= n)%nat -> digit_variant s t = true ->
    signature_parts s = signature_parts t.
Proof.
  induction n as [|n IH]; intros s t Hn Hv.
  - destruct s; [|simpl in Hn; lia]. destruct t; [reflexivity|discriminate].
  - destruct s as [|c s], t as [|d t]; try discriminate; [reflexivity|].
    pose proof Hv as Hv0. cbn [digit_variant] in Hv. apply andb_true_iff in Hv as [Hk Hv].
    rewrite !signature_parts_cons.
    rewrite <- (same_kind_class isdigit_c c d (fun x y Hx Hy => eq_trans Hx (eq_sym Hy)) Hk).
    cbn [String.length] in Hn.
    destruct (isdigit_c c) eqn:Ed.
    + destruct (digit_run_variant _ _ Hv0) as [Hl Hd]. rewrite Hl. f_equal.
      apply IH; [|exact Hd].
      cbn [drop_run]. rewrite Ed. pose proof (drop_run_length isdigit_c s). lia.
    + assert (c = d) as <- by (apply same_kind_plain; assumption).
      destruct (isalpha_c c) eqn:Ea.
      * destruct (alpha_run_variant _ _ Hv0) as [Ht Hd]. cbv zeta. rewrite Ht. f_equal.
        apply IH; [|exact Hd].
        cbn [drop_run]. rewrite Ea. pose proof (drop_run_length isalpha_c s). lia.
      * f_equal. apply IH; [lia|exact Hv].
Qed.

Lemma same_kind_eqb c x y :
  isdigit_c c = false -> same_kind x y = true -> eqb_c x c = eqb_c y c.
Proof.
  intros Hc H. destruct (same_kind_cases x y H) as [->|[Hx Hy]]; [reflexivity|].
  unfold eqb_c.
  rewrite (proj2 (Ascii.eqb_neq x c)) by (intros ->; congruence).
  rewrite (proj2 (Ascii.eqb_neq y c)) by (intros ->; congruence). reflexivity.
Qed.

Lemma rfind_from_variant c s :
  isdigit_c c = false ->
  forall t i found, digit_variant s t = true ->
    rfind_from c s i found = rfind_from c t i found.
Proof.
  intros Hc. induction s as [|x s IH]; intros [|y t] i found H; try discriminate;
    [reflexivity|].
  cbn [digit_variant] in H. apply andb_true_iff in H as [Hk Hv].
  cbn [rfind_from]. rewrite (same_kind_eqb c x y Hc Hk). apply IH. exact Hv.
Qed.

Lemma substring_variant s :
  forall t k m, digit_variant s t = true ->
    digit_variant (String.substring k m s) (String.substring k m t) = true.
Proof.
  induction s as [|x s IH]; intros [|y t] k m H; try discriminate.
  - destruct k, m; reflexivity.
  - cbn [digit_variant] in H. apply andb_true_iff in H as [Hk Hv].
    destruct k as [|k]; cbn [String.substring].
    + destruct m as [|m]; [reflexivity|]. cbn [digit_variant]. rewrite Hk. apply IH. exact Hv.
    + apply IH. exact Hv.
Qed.

Lemma sany_variant (q : ascii -> bool) s :
  (forall x y, isdigit_c x = true -> isdigit_c y = true -> q x = q y) ->
  forall t, digit_variant s t = true -> sany q s = sany q t.
Proof.
  intros Hq. induction s as [|x s IH]; intros [|y t] H; try discriminate; [reflexivity|].
  cbn [digit_variant] in H. apply andb_true_iff in H as [Hk Hv].
  cbn [sany]. rewrite (same_kind_class q x y Hq Hk), (IH t Hv). reflexivity.
Qed.

Lemma digit_not_dot' x : isdigit_c x = true -> eqb_c x "." = false.
Proof. each_char x. Qed.

Lemma splitext_variant s t :
  digit_variant s t = true ->
  digit_variant (Path.splitext s).1 (Path.splitext t).1 = true.
Proof.
  intros H. unfold Path.splitext, rfind.
  rewrite <- (rfind_from_variant "/" s eq_refl t 0 (-1) H).
  rewrite <- (rfind_from_variant "." s eq_refl t 0 (-1) H).
  unfold slice_to, slice.
  rewrite <- (sany_variant (fun c => negb (eqb_c c ".")) _
                (fun x y Hx Hy => eq_trans (f_equal negb (digit_not_dot' x Hx))
                                    (eq_sym (f_equal negb (digit_not_dot' y Hy))))
                _ (substring_variant s t _ _ H)).
  destruct (_ && _); cbn [fst]; [apply substring_variant|]; exact H.
Qed.

(** X22. Two file names that differ only in which digits they have, digit
    for digit, have the same signature; so [predict] answers alike for
    both, and what [learn] stores for one is predicted for the other. *)
Theorem signature_ignores_digits (filename other : string) :
  digit_variant filename other = true ->
  extract_signature filename = extract_signature other
  /\ (forall patterns, predict patterns filename = predict patterns other)
  /\ forall folder,
       exists patterns',
         learn ∅ filename folder = Ok patterns'
         /\ predict patterns' other = Ok (Some (folder, learned_confidence 1)).
Proof.
  intros H.
  assert (Hsig : extract_signature filename = extract_signature other).
  { unfold extract_signature. f_equal.
    apply (signature_parts_variant (String.length (Path.splitext filename).1)); [lia|].
    apply splitext_variant. exact H. }
  split; [exact Hsig|]. split.
  - intros patterns. rewrite !predict_returns, Hsig. reflexivity.
  - intros folder. rewrite learn_new by apply lookup_empty.
    eexists. split; [reflexivity|].
    rewrite predict_returns, <- Hsig, lookup_insert_eq. reflexivity.
Qed.

Lemma signature_ignores_digits_witness :
  extract_signature "scan_2023-07.pdf" = extract_signature "scan_1999-12.pdf"
  /\ exists patterns',
       learn ∅ "scan_2023-07.pdf" "Scans" = Ok patterns'
       /\ predict patterns' "scan_1999-12.pdf" = Ok (Some ("Scans", learned_confidence 1)).
Proof.
  destruct (signature_ignores_digits "scan_2023-07.pdf" "scan_1999-12.pdf" eq_refl)
    as (Hsig & _ & Hlearn).
  split; [exact Hsig|]. exact (Hlearn "Scans").
Defined.

(* ===================================================================== *)
(** ** Unorganized folders *)
(* ===================================================================== *)

Lemma substring_is_prefix p :
  forall s, String.substring 0 (String.length p) s = p -> exists b, s = p +:+ b.
Proof.
  induction p as [|c p IH]; intros s H.
  - exists s. reflexivity.
  - destruct s as [|d s]; [discriminate|]. cbn [String.length String.substring] in H.
    injection H as -> H. destruct (IH s H) as [b ->]. exists b. reflexivity.
Qed.

Lemma startswith_spec s p : startswith s p = true <-> exists b, s = p +:+ b.
Proof.
  unfold startswith, slice_to, slice, len. rewrite Z.sub_0_r, Nat2Z.id.
  change (Z.to_nat 0) with 0%nat. rewrite String.eqb_eq. split.
  - apply substring_is_prefix.
  - intros [b ->]. apply substring_prefix.
Qed.

Lemma is_infix_spec p s : is_infix p s = true <-> exists a b, s = a +:+ p +:+ b.
Proof.
  induction s as [|c s IH].
  - cbn [is_infix]. rewrite orb_false_r, startswith_spec. split.
    + intros [b H]. exists "", b. exact H.
    + intros (a & b & H). destruct a; [exists b; exact H|discriminate].
  - cbn [is_infix]. rewrite orb_true_iff, startswith_spec, IH. split.
    + intros [[b H]|(a & b & H)].
      * exists "", b. exact H.
      * exists (String c a), b. rewrite H. reflexivity.
    + intros (a & b & H). destruct a as [|d a].
      * left. exists b. exact H.
      * right. rewrite append_cons in H. injection H as _ H. exists a, b. exact H.
Qed.

Lemma is_infix_trans p q s : is_infix p q = true -> is_infix q s = true -> is_infix p s = true.
Proof.
  rewrite !is_infix_spec. intros (a & b & ->) (a' & b' & ->).
  exists (a' +:+ a), (b +:+ b'). rewrite !append_assoc_s. reflexivity.
Qed.

Lemma lower_c_upper c : lower_c (upper_c c) = lower_c c.
Proof. each_char c. Qed.

Lemma lower_upper s : lower (upper s) = lower s.
Proof.
  unfold lower, upper. induction s as [|c s IH]; [reflexivity|].
  simpl. rewrite lower_c_upper, IH. reflexivity.
Qed.

(** X23. [is_unorganized_folder] looks at the name in lowercase and holds
    exactly when it contains "sort", "to organize" or "temp"; the other
    four keywords of the list change nothing.  For a name of ASCII
    characters the case of the name does not matter either. *)
Theorem is_unorganized_folder_keywords (folder_name : string) :
  is_unorganized_folder folder_name
  = is_infix "sort" (lower folder_name) || is_infix "to organize" (lower folder_name)
    || is_infix "temp" (lower folder_name)
  /\ (ascii_only folder_name = true ->
      is_unorganized_folder (upper folder_name) = is_unorganized_folder folder_name).
Proof.
  split.
  - unfold is_unorganized_folder, unorganized_keywords. cbn [existsb].
    set (l := lower folder_name).
    assert (H1 := is_infix_trans "sort" "sorting" l eq_refl).
    assert (H2 := is_infix_trans "sort" "unsorted" l eq_refl).
    assert (H3 := is_infix_trans "sort" "to sort" l eq_refl).
    assert (H4 := is_infix_trans "temp" "temporary" l eq_refl).
    destruct (is_infix "sorting" l), (is_infix "sort" l), (is_infix "unsorted" l),
      (is_infix "to organize" l), (is_infix "to sort" l), (is_infix "temp" l),
      (is_infix "temporary" l); try reflexivity;
      try (discriminate (H1 eq_refl)); try (discriminate (H2 eq_refl));
      try (discriminate (H3 eq_refl)); try (discriminate (H4 eq_refl)).
  - intros _. unfold is_unorganized_folder. rewrite lower_upper. reflexivity.
Qed.

(* ===================================================================== *)
(** ** Config *)
(* ===================================================================== *)

Section ConfigFacts.

Context {atom : Type}.

Implicit Types (config : gmap string (pyval atom)) (v default : pyval atom).

Lemma get_from_found config k keys v default :
  config !! k = Some v -> v <> VNone ->
  get_from (VDict config) (k :: keys) default = get_from v keys default.
Proof.
  intros Hk Hv. cbn [get_from]. rewrite Hk. destruct v; [contradiction|reflexivity..].
Qed.

Lemma set_in_cons config k k2 rest v :
  set_in config (k :: k2 :: rest) v
  = match
      match config !! k with
      | None => set_in ∅ (k2 :: rest) v
      | Some (VDict d) => set_in d (k2 :: rest) v
      | Some _ =>
          SetRaises (match rest with [] => SetTypeError | _ :: _ => SetAttributeError end)
      end
    with
    | Stored d => Stored (<[k := VDict d]> config)
    | SetRaises e => SetRaises e
    end.
Proof. reflexivity. Qed.

Lemma set_in_step config config' k k2 rest v :
  set_in config (k :: k2 :: rest) v = Stored config' ->
  exists d inner, set_in d (k2 :: rest) v = Stored inner
                  /\ config' = <[k := VDict inner]> config.
Proof.
  rewrite set_in_cons. intros H.
  destruct (config !! k) as [[|d|a]|].
  - discriminate.
  - destruct (set_in d (k2 :: rest) v) as [inner|e] eqn:E; [|discriminate].
    injection H as <-. eauto.
  - discriminate.
  - destruct (set_in ∅ (k2 :: rest) v) as [inner|e] eqn:E; [|discriminate].
    injection H as <-. eauto.
Qed.

Lemma set_in_get_from keys : forall config config' v default,
  set_in config keys v = Stored config' ->
  get_from (VDict config') keys default
  = Ok (match v with VNone => default | _ => v end).
Proof.
  induction keys as [|k keys IH]; intros config config' v default H; [discriminate|].
  destruct keys as [|k2 rest].
  - injection H as <-. cbn [get_from]. rewrite lookup_insert_eq.
    destruct v; reflexivity.
  - destruct (set_in_step _ _ _ _ _ _ H) as (d & inner & Hin & ->).
    rewrite (get_from_found _ k (k2 :: rest) (VDict inner)); [|apply lookup_insert_eq|discriminate].
    apply (IH _ _ _ _ Hin).
Qed.

Lemma set_in_first config config' k keys v :
  set_in config (k :: keys) v = Stored config' ->
  forall k', k' <> k -> config' !! k' = config !! k'.
Proof.
  intros H k' Hk'. destruct keys as [|k2 rest].
  - injection H as <-. apply lookup_insert_ne. congruence.
  - destruct (set_in_step _ _ _ _ _ _ H) as (d & inner & _ & ->).
    apply lookup_insert_ne. congruence.
Qed.

End ConfigFacts.

(** X24.  [Config.set] followed by [Config.get]: when [set] stores a value
    under a dotted key without raising, [get] of the same key returns that
    value, whatever the default; a stored [None] reads back as the
    default. *)
Theorem config_set_then_get {atom : Type} (config config' : gmap string (pyval atom))
    (key : string) (v default : pyval atom) :
  config_set config key v = Stored config' ->
  config_get config' key default = Ok (match v with VNone => default | _ => v end).
Proof.
  unfold config_set, config_get. apply set_in_get_from.
Qed.

Lemma config_set_then_get_witness :
  let config : gmap string (pyval Z) := {[ "ui" := VDict {[ "font_size" := VAtom 10%Z ]} ]} in
  let config' : gmap string (pyval Z) :=
    {[ "ui" := VDict (<[ "theme" := VAtom 7%Z ]> {[ "font_size" := VAtom 10%Z ]}) ]} in
  config_set config "ui.theme" (VAtom 7%Z) = Stored config'
  /\ config_get config' "ui.theme" VNone = Ok (VAtom 7%Z).
Proof.
  split; [reflexivity|].
  apply (config_set_then_get
           ({[ "ui" := VDict {[ "font_size" := VAtom 10%Z ]} ]} : gmap string (pyval Z))
           _ "ui.theme" (VAtom 7%Z) VNone).
  reflexivity.
Defined.

(** X25.  [Config.set] touches one section only: after a successful [set]
    of a key, [get] of any key whose first component is different returns
    what it returned before. *)
Theorem config_set_other_section {atom : Type} (config config' : gmap string (pyval atom))
    (key key' : string) (v default : pyval atom) :
  config_set config key v = Stored config' ->
  head (split "." key') <> head (split "." key) ->
  config_get config' key' default = config_get config key' default.
Proof.
  unfold config_set, config_get. intros Hset Hne.
  destruct (split_nonempty "." key) as (k & keys & Hk).
  destruct (split_nonempty "." key') as (k' & keys' & Hk').
  rewrite Hk in *. rewrite Hk' in *. cbn [head] in Hne.
  cbn [get_from]. rewrite (set_in_first _ _ _ _ _ Hset k'); [reflexivity|congruence].
Qed.

Lemma config_set_other_section_witness :
  let config : gmap string (pyval Z) :=
    {[ "ui" := VDict {[ "font_size" := VAtom 10%Z ]} ]} in
  exists config',
    config_set config "safety.max_undo_operations" (VAtom 5%Z) = Stored config'
    /\ config_get config' "ui.font_size" VNone = Ok (VAtom 10%Z).
Proof.
  eexists. split; [reflexivity|].
  etransitivity.
  - apply (config_set_other_section
             ({[ "ui" := VDict {[ "font_size" := VAtom 10%Z ]} ]} : gmap string (pyval Z))
             _ "safety.max_undo_operations" "ui.font_size" (VAtom 5%Z) VNone).
    + reflexivity.
    + discriminate.
  - reflexivity.
Defined.

(** X26.  [Config.get] of a key whose first component is missing from the
    configuration.  A key without a dot gives the default.  A dotted key
    gives [None] for the default [None], raises [AttributeError] for a
    default that is neither [None] nor a dictionary (the lookup of the next
    component is made on the default itself), and for a dictionary default
    continues the lookup inside the default. *)
Theorem config_get_missing {atom : Type} (config : gmap string (pyval atom))
    (section rest : string) (default : pyval atom) :
  contains "." section = false ->
  config !! section = None ->
  config_get config section default = Ok default
  /\ config_get config (section +:+ String "." rest) default
     = match default with
       | VNone => Ok VNone
       | VAtom _ => Raise AttributeError
       | VDict _ => get_from default (split "." rest) default
       end.
Proof.
  intros Hdot Hmiss. unfold config_get. split.
  - rewrite (split_absent _ _ Hdot). cbn [get_from]. rewrite Hmiss.
    destruct default; reflexivity.
  - rewrite (split_app_word _ _ _ Hdot). cbn [get_from]. rewrite Hmiss.
    destruct default as [|d|a]; [reflexivity|reflexivity|].
    destruct (split_nonempty "." rest) as (k & ks & ->). reflexivity.
Qed.

Lemma config_get_missing_witness :
  config_get (∅ : gmap string (pyval bool)) "performance" (VAtom true) = Ok (VAtom true)
  /\ config_get (∅ : gmap string (pyval bool)) "performance.use_generators" (VAtom true)
     = Raise AttributeError.
Proof.
  apply (config_get_missing (∅ : gmap string (pyval bool)) "performance" "use_generators"
           (VAtom true)); reflexivity.
Defined.

(* ===================================================================== *)
(** ** OperationLogger *)
(* ===================================================================== *)

Lemma log_idle ops calls : foldl log (Logger None ops) calls = Logger None ops.
Proof.
  induction calls as [|call calls IH]; [reflexivity|].
  destruct call; exact IH.
Qed.

Lemma log_running op ops calls :
  exists op',
    foldl log (Logger (Some op) ops) calls = Logger (Some op') ops
    /\ moves op' = (moves op ++ omap logged_move calls)%list
    /\ errors op' = (errors op ++ omap logged_error calls)%list
    /\ files_moved (stats op')
       = files_moved (stats op) + Z.of_nat (length (omap logged_move calls))
    /\ errors_counted (stats op')
       = errors_counted (stats op) + Z.of_nat (length (omap logged_error calls))
    /\ duplicates_found (stats op')
       = duplicates_found (stats op) + Z.of_nat (length (filter is_duplicate_call calls)).
Proof.
  revert op. induction calls as [|call calls IH]; intros op.
  - exists op. cbn. rewrite !app_nil_r. repeat split; lia.
  - destruct call as [src dst size_bytes|now_iso error filename|].
    + cbn [foldl log]. unfold log_move. cbn [current_operation operations].
      match goal with |- context [Logger (Some ?o) ops] => destruct (IH o) as (op' & -> & Hm & He & Hf & Hc & Hd) end.
      exists op'. cbn in Hm, He, Hf, Hc, Hd |- *.
      rewrite Hm, He, Hf, Hc, Hd, <- app_assoc. repeat split; try reflexivity; lia.
    + cbn [foldl log]. unfold log_error. cbn [current_operation operations].
      match goal with |- context [Logger (Some ?o) ops] => destruct (IH o) as (op' & -> & Hm & He & Hf & Hc & Hd) end.
      exists op'. cbn in Hm, He, Hf, Hc, Hd |- *.
      rewrite Hm, He, Hf, Hc, Hd, <- app_assoc. repeat split; try reflexivity; lia.
    + cbn [foldl log]. unfold log_duplicate. cbn [current_operation operations].
      match goal with |- context [Logger (Some ?o) ops] => destruct (IH o) as (op' & -> & Hm & He & Hf & Hc & Hd) end.
      exists op'. cbn in Hm, He, Hf, Hc, Hd.
      rewrite Hm, He, Hf, Hc, Hd. repeat split; try reflexivity.
      rewrite (filter_cons_True _ LogDuplicate calls I). cbn [length]. lia.
Qed.

(** X27.  The counters of an operation agree with its log.  After
    [start_operation] and any sequence of [log_move], [log_error] and
    [log_duplicate] calls, the operation holds the moves and the errors in
    the order of the calls, ["files_moved"] is the number of moves,
    ["errors"] the number of errors and ["duplicates_found"] the number of
    [log_duplicate] calls; the list of finished operations is untouched.
    On a logger with no operation started the three calls change
    nothing. *)
Theorem logger_counters_agree (now_id now_iso operation_type : string)
    (source_dirs : list string) (target_dir : string) (self : OperationLogger)
    (calls : list logged) :
  (exists op,
     foldl log (start_operation now_id now_iso operation_type source_dirs target_dir self) calls
     = Logger (Some op) (operations self)
     /\ moves op = omap logged_move calls
     /\ errors op = omap logged_error calls
     /\ files_moved (stats op) = Z.of_nat (length (moves op))
     /\ errors_counted (stats op) = Z.of_nat (length (errors op))
     /\ duplicates_found (stats op) = Z.of_nat (length (filter is_duplicate_call calls)))
  /\ foldl log (Logger None (operations self)) calls = Logger None (operations self).
Proof.
  split; [|apply log_idle].
  unfold start_operation.
  match goal with |- context [Logger (Some ?o) _] =>
    destruct (log_running o (operations self) calls) as (op & H & Hm & He & Hf & Hc & Hd) end.
  exists op. cbn in Hm, He, Hf, Hc, Hd. rewrite Hm, He.
  repeat split; assumption.
Qed.

Lemma last_slice_positive {A : Type} (l : list A) (n : Z) :
  1 <= n ->
  last_slice l n = drop (length l - Z.to_nat n) l.
Proof.
  intros Hn. unfold last_slice. cbv zeta.
  destruct (- n <? 0) eqn:E; [|apply Z.ltb_ge in E; lia].
  f_equal. lia.
Qed.

Lemma last_slice_zero {A : Type} (l : list A) : last_slice l 0 = l.
Proof. unfold last_slice. cbn. destruct (length l); reflexivity. Qed.

(** X28.  [end_operation] and the operations kept in memory.  When the
    line is written to the log file and [safety.max_undo_operations] is an
    integer [max_ops >= 1], the finished operation becomes the last of the
    list and the list is cut to its last [max_ops] entries.  With
    [max_ops = 0] nothing is cut: the slice [operations[-0:]] is the whole
    list.  When the line cannot be written the operation is not added.  In
    each case no operation is in progress afterwards. *)
Theorem end_operation_keeps_last (self : OperationLogger) (op : operation) (max_ops : Z) :
  current_operation self = Some op ->
  let finished := (operations self ++ [op])%list in
  (1 <= max_ops ->
     end_operation true (Some max_ops) self
     = Logger None (drop (length finished - Z.to_nat max_ops) finished)
     /\ last (operations (end_operation true (Some max_ops) self)) = Some op
     /\ Z.of_nat (length (operations (end_operation true (Some max_ops) self))) <= max_ops)
  /\ end_operation true (Some 0) self = Logger None finished
  /\ (forall m, end_operation false m self = Logger None (operations self)).
Proof.
  intros Hop finished. unfold end_operation. rewrite Hop. fold finished.
  split; [|split].
  - intros Hn.
    assert (Hcut : (if Z.of_nat (length finished) >? max_ops
                    then last_slice finished max_ops else finished)
                   = drop (length finished - Z.to_nat max_ops) finished).
    { destruct (Z.of_nat (length finished) >? max_ops) eqn:E.
      - apply last_slice_positive. assumption.
      - assert (Hle : Z.of_nat (length finished) <= max_ops)
          by (rewrite Z.gtb_ltb in E; apply Z.ltb_ge in E; exact E).
        replace (length finished - Z.to_nat max_ops)%nat with 0%nat by lia.
        reflexivity. }
    rewrite Hcut. cbn [operations]. split; [reflexivity|]. split.
    + unfold finished. rewrite length_app. cbn [length].
      rewrite drop_app_le by lia. apply last_snoc.
    + rewrite length_drop. lia.
  - cbn. rewrite last_slice_zero.
    destruct (Z.of_nat (length finished) >? 0); reflexivity.
  - intros m. reflexivity.
Qed.

Lemma end_operation_keeps_last_witness :
  let a := Operation "20250101_000000" "2025-01-01T00:00:00" "A" [] "/t" [] []
             (OperationStats 0 0 0 (PrimFloat.of_uint63 (Uint63.of_Z 0))) in
  let b := Operation "20250101_000001" "2025-01-01T00:00:01" "B" [] "/t" [] []
             (OperationStats 0 0 0 (PrimFloat.of_uint63 (Uint63.of_Z 0))) in
  end_operation true (Some 1) (Logger (Some b) [a]) = Logger None [b]
  /\ end_operation true (Some 0) (Logger (Some b) [a]) = Logger None [a; b].
Proof.
  intros a b.
  destruct (end_operation_keeps_last (Logger (Some b) [a]) b 1 eq_refl) as (H1 & H0 & _).
  split; [apply H1; lia | exact H0].
Defined.

(* ===================================================================== *)
(** ** DatabaseScanner *)
(* ===================================================================== *)

Section Totals.

Context {A : Type} (count : A -> Z).

Let total (m : gmap string A) : Z := map_fold (fun _ a t => count a + t) 0 m.

Lemma total_insert_new (m : gmap string A) k a :
  m !! k = None -> total (<[k := a]> m) = count a + total m.
Proof.
  intros Hk. unfold total. apply (map_fold_insert_L (fun _ a t => count a + t)); [|exact Hk].
  intros. lia.
Qed.

Lemma total_update (m : gmap string A) k a a' :
  m !! k = Some a -> total (<[k := a']> m) = total m - count a + count a'.
Proof.
  intros Hk.
  rewrite <- (insert_delete_eq m k a').
  rewrite <- (insert_delete_id m k a Hk) at 2.
  rewrite !total_insert_new by apply lookup_delete_eq. lia.
Qed.

End Totals.

Lemma tree_induction (P : tree -> Prop) :
  (forall filenames dirnames,
     Forall (fun entry => match entry.2 with Some t => P t | None => True end) dirnames ->
     P (Tree filenames dirnames)) ->
  forall t, P t.
Proof.
  intros H. fix IH 1. intros [filenames dirnames]. apply H.
  revert dirnames. fix IHd 1. intros [|[d [t|]] dirnames]; constructor.
  - apply IH.
  - apply IHd.
  - exact I.
  - apply IHd.
Qed.

Section ScanFacts.

Variable skip_list : list string.

Variable relpath : string -> string -> string.

Lemma learn_from_organized_file_totals filename folder_name full_path root_path mappings structure :
  examples_kept mappings ->
  let learned :=
    _learn_from_organized_file relpath filename folder_name full_path root_path
      mappings structure in
  mappings_total learned.1 = mappings_total mappings + 1
  /\ folders_total learned.2 = folders_total structure + 1
  /\ examples_kept learned.1.
Proof.
  intros Hex. unfold _learn_from_organized_file. cbv zeta. cbn [fst snd].
  set (signature := extract_signature filename).
  split; [|split].
  - unfold mappings_total. destruct (dict_has mappings signature) eqn:Hhas; cbn [negb].
    + destruct (dict_get_has _ _ Hhas) as (mapping & _ & Hm). rewrite Hm.
      rewrite (total_update mapping_count _ _ _ _ Hm). cbn. lia.
    + apply dict_has_false in Hhas. rewrite lookup_insert_eq.
      rewrite insert_insert_eq.
      rewrite (total_insert_new mapping_count _ _ _ Hhas). cbn. lia.
  - unfold folders_total. destruct (dict_has structure folder_name) eqn:Hhas; cbn [negb].
    + destruct (dict_get_has _ _ Hhas) as (entry & _ & Hm). rewrite Hm.
      rewrite (total_update folder_file_count _ _ _ _ Hm). cbn. lia.
    + apply dict_has_false in Hhas. rewrite lookup_insert_eq.
      rewrite insert_insert_eq.
      rewrite (total_insert_new folder_file_count _ _ _ Hhas). cbn. lia.
  - destruct (dict_has mappings signature) eqn:Hhas; cbn [negb].
    + destruct (dict_get_has _ _ Hhas) as (mapping & _ & Hm). rewrite Hm.
      intros sig' mapping' Hl. destruct (decide (sig' = signature)) as [->|Hne].
      * rewrite lookup_insert_eq in Hl. injection Hl as <-. cbn.
        destruct (Hex _ _ Hm) as [Hc Hl].
        destruct (Z.of_nat (length (mapping_examples mapping)) <? 5) eqn:E.
        -- apply Z.ltb_lt in E. rewrite length_app. cbn [length]. lia.
        -- apply Z.ltb_ge in E. lia.
      * rewrite lookup_insert_ne in Hl by congruence. apply (Hex _ _ Hl).
    + apply dict_has_false in Hhas. rewrite lookup_insert_eq, insert_insert_eq.
      intros sig' mapping' Hl. destruct (decide (sig' = signature)) as [->|Hne].
      * rewrite lookup_insert_eq in Hl. injection Hl as <-. cbn. lia.
      * rewrite lookup_insert_ne in Hl by congruence. apply (Hex _ _ Hl).
Qed.

Lemma scan_files_facts is_unorganized folder_name dirpath root_path filenames :
  forall results, consistent results ->
    let results' :=
      scan_files relpath is_unorganized folder_name dirpath root_path filenames results in
    consistent results'
    /\ total_files results' = total_files results + Z.of_nat (length filenames)
    /\ unorganized_files results'
       = unorganized_files results
         + (if is_unorganized then Z.of_nat (length filenames) else 0)
    /\ unorganized_areas results' = unorganized_areas results
    /\ total_folders results' = total_folders results
    /\ scan_date results' = scan_date results
    /\ scan_root results' = scan_root results.
Proof.
  induction filenames as [|filename filenames IH]; intros results Hc.
  - split; [exact Hc|]. cbn. repeat split; try lia. destruct is_unorganized; lia.
  - cbn [scan_files]. cbv zeta.
    match goal with |- context [scan_files _ _ _ _ _ filenames ?r] => set (step := r) end.
    assert (Hstep : consistent step
                    /\ total_files step = total_files results + 1
                    /\ unorganized_files step
                       = unorganized_files results + (if is_unorganized then 1 else 0)
                    /\ unorganized_areas step = unorganized_areas results
                    /\ total_folders step = total_folders results
                    /\ scan_date step = scan_date results
                    /\ scan_root step = scan_root results).
    { subst step. destruct Hc as (Ht & Hm & Hf & Hex). destruct is_unorganized.
      - split; [|cbn; repeat split; lia].
        unfold consistent. cbn. split; [lia|]. split; [lia|]. split; [lia|exact Hex].
      - pose proof (learn_from_organized_file_totals filename folder_name dirpath root_path
                      (learned_mappings results) (folder_structure results) Hex) as Hl.
        cbv zeta in Hl.
        destruct (_learn_from_organized_file relpath filename folder_name dirpath root_path
                    (learned_mappings results) (folder_structure results))
          as [mappings structure].
        cbn [fst snd] in Hl. destruct Hl as (Hm' & Hf' & Hex').
        split; [|cbn; repeat split; lia].
        unfold consistent. cbn. split; [lia|]. split; [lia|]. split; [lia|exact Hex']. }
    destruct Hstep as (Hc' & Ht & Hu & Ha & Hd & Hsd & Hsr).
    destruct (IH step Hc') as (Hc'' & Ht' & Hu' & Ha' & Hd' & Hsd' & Hsr').
    split; [exact Hc''|].
    rewrite Ht', Hu', Ha', Hd', Hsd', Hsr', Ht, Hu, Ha, Hd, Hsd, Hsr.
    cbn [length]. repeat split; try lia. destruct is_unorganized; lia.
Qed.

Lemma areas_total_snoc areas area :
  areas_total (areas ++ [area]) = areas_total areas + area_file_count area.
Proof.
  unfold areas_total. induction areas as [|a areas IH]; cbn; [lia|].
  cbn in IH. rewrite IH. lia.
Qed.

Lemma scan_folder_scanned root_path dirpath filenames dirnames results :
  scanned results ->
  let results' := scan_folder skip_list relpath root_path dirpath filenames dirnames results in
  scanned results'
  /\ scan_date results' = scan_date results
  /\ scan_root results' = scan_root results.
Proof.
  intros [Hc Ha]. unfold scan_folder. cbv zeta.
  match goal with |- context [scan_files _ _ _ _ _ _ ?r] => set (start := r) end.
  assert (Hstart : consistent start) by exact Hc.
  destruct (scan_files_facts (is_unorganized_folder (basename dirpath)) (basename dirpath)
              dirpath root_path filenames start Hstart)
    as (Hc' & _ & Hu & Har & _ & Hsd & Hsr).
  split; [split; [exact Hc'|] | split; assumption].
  rewrite Hu, Har. subst start. cbn [unorganized_files unorganized_areas].
  destruct (is_unorganized_folder (basename dirpath)).
  - rewrite areas_total_snoc. cbn. lia.
  - lia.
Qed.

Lemma scan_walk_scanned root_path (t : tree) :
  forall dirpath results,
    scanned results ->
    scanned (scan_walk skip_list relpath root_path dirpath t results)
    /\ scan_date (scan_walk skip_list relpath root_path dirpath t results) = scan_date results
    /\ scan_root (scan_walk skip_list relpath root_path dirpath t results) = scan_root results.
Proof.
  induction t as [filenames dirnames IH] using tree_induction.
  intros dirpath results Hs. cbn [scan_walk]. cbv zeta.
  destruct (scan_folder_scanned root_path dirpath filenames dirnames.*1 results Hs)
    as (Hs' & Hd & Hr).
  revert Hs' Hd Hr.
  generalize (scan_folder skip_list relpath root_path dirpath filenames dirnames.*1 results).
  induction IH as [|[d entered] dirnames' Hhead Htail IHd]; intros r Hs' Hd Hr.
  - auto.
  - destruct (should_skip_folder skip_list d); [apply IHd; assumption|].
    destruct entered as [t'|]; [|apply IHd; assumption].
    cbn in Hhead. destruct (Hhead (Path.join dirpath d) r Hs') as (Hs'' & Hd'' & Hr'').
    apply IHd; [assumption| congruence | congruence].
Qed.

End ScanFacts.

(** X29.  The counts of a scan add up.  In the results of
    [scan_directory], ["total_files"] is the sum of ["organized_files"] and
    ["unorganized_files"]; the counts of the learned mappings add up to
    ["organized_files"], and so do the file counts of the folder
    structure; the file counts of the unorganized areas add up to
    ["unorganized_files"]; and every learned mapping has a count of at
    least one and keeps [min count 5] examples. *)
Theorem scan_directory_counts (skip_list : list string) (relpath : string -> string -> string)
    (now_iso root_path : string) (found : option tree) :
  let results := scan_directory skip_list relpath now_iso root_path found in
  total_files results = organized_files results + unorganized_files results
  /\ organized_files results = mappings_total (learned_mappings results)
  /\ organized_files results = folders_total (folder_structure results)
  /\ unorganized_files results = areas_total (unorganized_areas results)
  /\ (forall signature mapping,
        learned_mappings results !! signature = Some mapping ->
        1 <= mapping_count mapping
        /\ Z.of_nat (length (mapping_examples mapping)) = Z.min (mapping_count mapping) 5)
  /\ scan_date results = now_iso
  /\ scan_root results = root_path.
Proof.
  cbv zeta. unfold scan_directory.
  match goal with |- context [match found with Some _ => _ | None => ?r end] =>
    set (start := r) end.
  assert (Hstart : scanned start).
  { unfold scanned, consistent. subst start. cbn.
    split; [|reflexivity]. split; [reflexivity|]. split; [reflexivity|]. split; [reflexivity|].
    intros ? ? Hl. rewrite lookup_empty in Hl. discriminate. }
  assert (Hall : forall r, scanned r -> scan_date r = now_iso -> scan_root r = root_path ->
                   total_files r = organized_files r + unorganized_files r
                   /\ organized_files r = mappings_total (learned_mappings r)
                   /\ organized_files r = folders_total (folder_structure r)
                   /\ unorganized_files r = areas_total (unorganized_areas r)
                   /\ (forall signature mapping,
                         learned_mappings r !! signature = Some mapping ->
                         1 <= mapping_count mapping
                         /\ Z.of_nat (length (mapping_examples mapping))
                            = Z.min (mapping_count mapping) 5)
                   /\ scan_date r = now_iso
                   /\ scan_root r = root_path).
  { intros r [(Ht & Hm & Hf & Hex) Ha] Hd Hr.
    split; [exact Ht|]. split; [exact Hm|]. split; [exact Hf|]. split; [exact Ha|].
    split; [exact Hex|]. split; assumption. }
  destruct found as [t|].
  - destruct (scan_walk_scanned skip_list relpath root_path t root_path start Hstart)
      as (Hs & Hd & Hr).
    apply Hall; [exact Hs| rewrite Hd; reflexivity | rewrite Hr; reflexivity].
  - apply Hall; [exact Hstart|reflexivity|reflexivity].
Qed.

(* ===================================================================== *)
(** ** Folders that a scan skips *)
(* ===================================================================== *)

Lemma should_skip_folder_listed skip_list name :
  name ∈ skip_list -> should_skip_folder skip_list name = true.
Proof.
  intros Hin. unfold should_skip_folder.
  destruct (startswith name "#" && _); [reflexivity|].
  apply bool_decide_eq_true. exact Hin.
Qed.

Lemma should_skip_folder_marked skip_list rest :
  (forall rest', rest <> String " " rest') ->
  should_skip_folder skip_list (String "#" rest) = true.
Proof.
  intros Hrest. unfold should_skip_folder.
  assert (Hs : startswith (String "#" rest) "#" = true)
    by (apply startswith_spec; exists rest; reflexivity).
  rewrite Hs. destruct rest as [|c rest']; [reflexivity|].
  assert (Hc : c <> " "%char) by (intros ->; apply (Hrest rest'); reflexivity).
  replace (len (String "#" (String c rest')) =? 1) with false
    by (symmetry; apply Z.eqb_neq; unfold len; cbn [String.length]; lia).
  unfold slice. change (Z.to_nat 1) with 1%nat. change (Z.to_nat (2 - 1)) with 1%nat.
  cbn [String.substring orb andb].
  replace (String.substring 0 0 rest') with "" by (destruct rest'; reflexivity).
  destruct (String.eqb (String c "") " ") eqn:E; [|reflexivity].
  apply String.eqb_eq in E. injection E as E. contradiction.
Qed.

(** X30.  A scan never enters a folder to skip.  What lies in a
    subdirectory whose name is in the list [skip_folders], or starts with
    [#] not followed by a space, has no effect on the results of the scan:
    they are the same whatever the walk would find there. *)
Theorem scan_never_enters_skipped (skip_list : list string)
    (relpath : string -> string -> string) (root_path dirpath : string)
    (filenames : list string) (before after : list (string * option tree))
    (name : string) (entered entered' : option tree) (results : scan_results) :
  name ∈ skip_list \/ (exists rest, name = String "#" rest
                                   /\ forall rest', rest <> String " " rest') ->
  scan_walk skip_list relpath root_path dirpath
    (Tree filenames (before ++ (name, entered) :: after)) results
  = scan_walk skip_list relpath root_path dirpath
      (Tree filenames (before ++ (name, entered') :: after)) results.
Proof.
  intros Hname.
  assert (Hskip : should_skip_folder skip_list name = true).
  { destruct Hname as [Hin|(rest & -> & Hrest)].
    - apply should_skip_folder_listed. exact Hin.
    - apply should_skip_folder_marked. exact Hrest. }
  cbn [scan_walk]. cbv zeta.
  rewrite !fmap_app, !fmap_cons. cbn [fst].
  generalize (scan_folder skip_list relpath root_path dirpath filenames
                (before.*1 ++ name :: after.*1) results).
  induction before as [|[d sub] before IH]; intros r.
  - cbn [app]. rewrite Hskip. reflexivity.
  - cbn [app]. apply IH.
Qed.

Lemma scan_never_enters_skipped_witness :
  scan_walk ["Sort"] (fun path _ => path) "/data" "/data"
    (Tree ["a1.txt"] [("#Archive", Some (Tree ["b1.txt"; "b2.txt"] []))])
    (scan_directory ["Sort"] (fun path _ => path) "2025-01-01T00:00:00" "/data" None)
  = scan_walk ["Sort"] (fun path _ => path) "/data" "/data"
      (Tree ["a1.txt"] [("#Archive", None)])
      (scan_directory ["Sort"] (fun path _ => path) "2025-01-01T00:00:00" "/data" None).
Proof.
  apply (scan_never_enters_skipped ["Sort"] (fun path _ => path) "/data" "/data"
           ["a1.txt"] [] [] "#Archive" (Some (Tree ["b1.txt"; "b2.txt"] [])) None).
  right. exists "Archive". split; [reflexivity|]. discriminate.
Defined.
